(** * Desktop cleaner: categorise, move, undo

    A shallow embedding of the two implementations the repository ships:

    - [desktop_cleaner.py], the command-line script ([classify_file],
      [iter_desktop_files], [plan_moves], [write_log], [parse_log],
      [undo_last_run], [clean_desktop]);
    - the package under [.kiro/src] ([categorizer.py], [undo.py],
      [cleaner.py], [main.py]).

    Both act on a file system, which is modelled as a finite map from paths
    to nodes.  Python exceptions are results of type [result]; the state
    reached when an exception is raised is kept, as it is in Python. *)

From Stdlib Require Import Ascii String.
From stdpp Require Import gmap strings list fin_maps.

(** ** Strings

    A Python [str] is modelled by the bytes of its UTF-8 encoding; a byte
    of a file name that belongs to no valid UTF-8 sequence stands for
    itself, as it does under [os.fsencode].  A byte below 128 is an ASCII
    character and is never part of a longer sequence. *)

Definition byte_of (a : ascii) : nat := nat_of_ascii a.

Definition bytes (l : list nat) : string :=
  foldr (λ n s, String (ascii_of_nat n) s) EmptyString l.

Definition in_range (lo hi : nat) (a : ascii) : bool :=
  ((lo <=? byte_of a) && (byte_of a <=? hi))%nat.

Definition lower_ascii (a : ascii) : ascii :=
  let n := nat_of_ascii a in
  if ((65 <=? n) && (n <=? 90))%nat then ascii_of_nat (n + 32) else a.

(** [str.lower].  Besides [A]-[Z], the code points whose lower-case form
    holds an ASCII character are U+212A (the Kelvin sign, which becomes
    [k]) and U+0130 (which becomes [i] followed by U+0307); both are
    mapped as Python maps them.  Every other code point has a lower-case
    form without any ASCII character and is left as it is.  So [lower s]
    and [s.lower()] hold the same ASCII characters, separated by other
    code points at the same places: one is equal to a given ASCII string,
    or contains it, exactly when the other does. *)
Fixpoint lower (s : string) : string :=
  match s with
  | EmptyString => EmptyString
  | String a s1 =>
      match s1 with
      | EmptyString => String (lower_ascii a) EmptyString
      | String b s2 =>
          if ((byte_of a =? 196) && (byte_of b =? 176))%nat then
            String "i" (bytes [204; 135] +:+ lower s2)
          else
            match s2 with
            | EmptyString => String (lower_ascii a) (lower s1)
            | String c s3 =>
                if ((byte_of a =? 226) && (byte_of b =? 132)
                    && (byte_of c =? 170))%nat
                then String "k" (lower s3)
                else String (lower_ascii a) (lower s1)
            end
      end
  end.

(** [s.rfind(c)]: index of the last occurrence of [c], [None] for -1. *)
Fixpoint rfind (c : ascii) (s : string) : option nat :=
  match s with
  | EmptyString => None
  | String a s' =>
      match rfind c s' with
      | Some i => Some (S i)
      | None => if Ascii.eqb a c then Some 0 else None
      end
  end.

(** [s[i:]] *)
Fixpoint drop_str (i : nat) (s : string) : string :=
  match i, s with
  | 0, _ => s
  | S i', String _ s' => drop_str i' s'
  | S _, EmptyString => EmptyString
  end.

Definition startswith (pre s : string) : bool := String.prefix pre s.

Fixpoint rev_str (s : string) : string :=
  match s with
  | EmptyString => EmptyString
  | String a s' => rev_str s' +:+ String a EmptyString
  end.

Definition endswith (suf s : string) : bool :=
  String.prefix (rev_str suf) (rev_str s).

Fixpoint take_str (n : nat) (s : string) : string :=
  match n, s with
  | S n', String a s' => String a (take_str n' s')
  | _, _ => EmptyString
  end.

(** The characters for which [str.isspace] holds, which are the ones
    [str.strip()] removes: U+0009 to U+000D, U+001C to U+0020, U+0085,
    U+00A0, U+1680, U+2000 to U+200A, U+2028, U+2029, U+202F, U+205F and
    U+3000. *)
Definition whitespace : list string :=
  map bytes
    [ [9]; [10]; [11]; [12]; [13]; [28]; [29]; [30]; [31]; [32];
      [194; 133]; [194; 160]; [225; 154; 128];
      [226; 128; 128]; [226; 128; 129]; [226; 128; 130]; [226; 128; 131];
      [226; 128; 132]; [226; 128; 133]; [226; 128; 134]; [226; 128; 135];
      [226; 128; 136]; [226; 128; 137]; [226; 128; 138];
      [226; 128; 168]; [226; 128; 169]; [226; 128; 175];
      [226; 129; 159]; [227; 128; 128] ].

(** [s] without the first of the sequences [ws] it starts with. *)
Fixpoint strip_one (ws : list string) (s : string) : option string :=
  match ws with
  | [] => None
  | w :: ws' =>
      if String.prefix w s then Some (drop_str (String.length w) s)
      else strip_one ws' s
  end.

Fixpoint strip_leading (ws : list string) (fuel : nat) (s : string)
    : string :=
  match fuel with
  | 0 => s
  | S fuel' =>
      match strip_one ws s with
      | Some s' => strip_leading ws fuel' s'
      | None => s
      end
  end.

(** [s.lstrip()] *)
Definition lstrip (s : string) : string :=
  strip_leading whitespace (String.length s) s.

(** [s.rstrip()]: a UTF-8 sequence at the end of [s] is the last
    character of [s], for its first byte cannot continue a sequence. *)
Definition rstrip (s : string) : string :=
  rev_str (strip_leading (map rev_str whitespace) (String.length s)
             (rev_str s)).

(** [s.strip()] *)
Definition strip (s : string) : string := rstrip (lstrip s).

(** The length of the UTF-8 sequence [s] starts with, [0] when it starts
    with none: no overlong form, no surrogate, nothing above U+10FFFF. *)
Definition utf8_head (s : string) : nat :=
  match s with
  | EmptyString => 0
  | String a s1 =>
      if (byte_of a <? 128)%nat then 1
      else
        match s1 with
        | EmptyString => 0
        | String b s2 =>
            if in_range 194 223 a then
              if in_range 128 191 b then 2 else 0
            else
              match s2 with
              | EmptyString => 0
              | String c s3 =>
                  if (in_range 224 224 a && in_range 160 191 b)
                     || (in_range 225 236 a && in_range 128 191 b)
                     || (in_range 237 237 a && in_range 128 159 b)
                     || (in_range 238 239 a && in_range 128 191 b)
                  then if in_range 128 191 c then 3 else 0
                  else
                    match s3 with
                    | EmptyString => 0
                    | String d _ =>
                        if ((in_range 240 240 a && in_range 144 191 b)
                            || (in_range 241 243 a && in_range 128 191 b)
                            || (in_range 244 244 a && in_range 128 143 b))
                           && in_range 128 191 c && in_range 128 191 d
                        then 4 else 0
                    end
              end
        end
  end.

(** The characters of [s]: its UTF-8 sequences, and one by one the bytes
    that belong to none. *)
Fixpoint code_points_from (fuel : nat) (s : string) : list string :=
  match fuel, s with
  | S fuel', String _ _ =>
      let n := Nat.max 1 (utf8_head s) in
      take_str n s :: code_points_from fuel' (drop_str n s)
  | _, _ => []
  end.

Definition code_points (s : string) : list string :=
  code_points_from (String.length s) s.

(** What a UTF-8 decoder expects: [(0, _, _)] a new sequence, [(n, lo,
    hi)] with [0 < n] another [n] bytes of the current sequence, the
    next of them between [lo] and [hi]. *)
Definition utf8_next (st : nat * nat * nat) (a : ascii)
    : option (nat * nat * nat) :=
  let '(n, lo, hi) := st in
  match n with
  | 0 =>
      if (byte_of a <? 128)%nat then Some (0, 0, 0)
      else if in_range 194 223 a then Some (1, 128, 191)
      else if in_range 224 224 a then Some (2, 160, 191)
      else if in_range 225 236 a then Some (2, 128, 191)
      else if in_range 237 237 a then Some (2, 128, 159)
      else if in_range 238 239 a then Some (2, 128, 191)
      else if in_range 240 240 a then Some (3, 144, 191)
      else if in_range 241 243 a then Some (3, 128, 191)
      else if in_range 244 244 a then Some (3, 128, 143)
      else None
  | S n' => if in_range lo hi a then Some (n', 128, 191) else None
  end.

Fixpoint utf8_run (st : nat * nat * nat) (s : string) : bool :=
  match s with
  | EmptyString => bool_decide (st.1.1 = 0)
  | String a s' =>
      match utf8_next st a with
      | Some st' => utf8_run st' s'
      | None => false
      end
  end.

(** [s.encode("utf-8")] succeeds: [s] is made of UTF-8 sequences, so no
    byte of it stands for itself. *)
Definition valid_utf8 (s : string) : bool := utf8_run (0, 0, 0) s.

(** [s.split(sep)] for a one-character separator. *)
Fixpoint split_on (sep : ascii → bool) (s : string) : list string :=
  match s with
  | EmptyString => [EmptyString]
  | String a s' =>
      if sep a then EmptyString :: split_on sep s'
      else match split_on sep s' with
           | w :: ws => String a w :: ws
           | [] => [String a EmptyString]
           end
  end.

(** [s.split(c, 1)]: [None] when [c] does not occur (the result then has
    one element only), otherwise the parts before and after the first [c]. *)
Fixpoint split_first (c : ascii) (s : string) : option (string * string) :=
  match s with
  | EmptyString => None
  | String a s' =>
      if Ascii.eqb a c then Some (EmptyString, s')
      else match split_first c s' with
           | Some (l, r) => Some (String a l, r)
           | None => None
           end
  end.

Fixpoint join_str (sep : string) (l : list string) : string :=
  match l with
  | [] => EmptyString
  | [x] => x
  | x :: l' => x +:+ sep +:+ join_str sep l'
  end.

(** ** Paths ([pathlib])

    A path is modelled by the list of its components below the root.  A
    relative path is read from the working directory, which is fixed for
    the whole run and identified with the root; [..] is not interpreted. *)

Abbreviation path := (list string).

(** [p / c], for [c] a file or category name (a single component). *)
Definition joinpath (p : path) (c : string) : path := p ++ [c].

(** [p.name] *)
Definition name (p : path) : string := List.last p EmptyString.

(** [p.parent] *)
Definition parent (p : path) : path := removelast p.

(** [p.suffix]: [name[i:]] where [i = name.rfind('.')], if
    [0 < i < len(name) - 1], and the empty string otherwise. *)
Definition suffix_of_name (n : string) : string :=
  match rfind "." n with
  | Some i =>
      if ((0 <? i) && (i <? String.length n - 1))%nat then drop_str i n
      else EmptyString
  | None => EmptyString
  end.

Definition suffix (p : path) : string := suffix_of_name (name p).

(** [str(p)] *)
Definition str_of_path (p : path) : string := "/" +:+ join_str "/" p.

(** [Path(s)]: empty components and [.] are dropped. *)
Definition Path_of_str (s : string) : path :=
  filter (λ c, c ≠ EmptyString ∧ c ≠ ".") (split_on (Ascii.eqb "/") s).

(** Order on paths used by [sorted]: component lists, lexicographically. *)
Fixpoint path_leb (p q : path) : bool :=
  match p, q with
  | [], _ => true
  | _ :: _, [] => false
  | a :: p', b :: q' =>
      match String.compare a b with
      | Lt => true
      | Gt => false
      | Eq => path_leb p' q'
      end
  end.

Fixpoint insert_sorted (p : path) (l : list path) : list path :=
  match l with
  | [] => [p]
  | q :: l' => if path_leb p q then p :: l else q :: insert_sorted p l'
  end.

Definition sorted (l : list path) : list path := foldr insert_sorted [] l.

(** ** Exceptions and the state-and-exception monad *)

Inductive exn :=
  | FileNotFoundError
  | FileExistsError
  | NotADirectoryError
  | IsADirectoryError
  | OSError            (* ENOTEMPTY, EINVAL *)
  | ShutilError        (* shutil.Error *)
  | JSONDecodeError
  | ValueError
  | TypeError
  | UnicodeEncodeError.

Inductive result (A : Type) :=
  | Ok (a : A)
  | Raise (e : exn).
Arguments Ok {A} a.
Arguments Raise {A} e.

(** A computation over a state [S]: it returns or raises, and in both
    cases leaves a state behind. *)
Definition M (S A : Type) : Type := S → result A * S.

Definition ret {S A} (a : A) : M S A := λ s, (Ok a, s).

Definition raise {S A} (e : exn) : M S A := λ s, (Raise e, s).

Definition bind {S A B} (m : M S A) (k : A → M S B) : M S B :=
  λ s, match m s with
       | (Ok a, s') => k a s'
       | (Raise e, s') => (Raise e, s')
       end.

(** [try: m except Exception as e: h e] *)
Definition try_except {S A} (m : M S A) (h : exn → M S A) : M S A :=
  λ s, match m s with
       | (Ok a, s') => (Ok a, s')
       | (Raise e, s') => h e s'
       end.

Definition get {S} : M S S := λ s, (Ok s, s).
Definition modify {S} (f : S → S) : M S unit := λ s, (Ok tt, f s).

Notation "'let*' x ':=' m 'in' k" := (bind m (λ x, k))
  (at level 10, x name, m at level 100, k at level 200,
   format "'[v' 'let*'  x  ':='  m  'in' '/' k ']'").
Notation "'do' m 'then' k" := (bind m (λ _, k))
  (at level 10, m at level 100, k at level 200,
   format "'[v' 'do'  m  'then' '/' k ']'").

(** [for x in l: body x] *)
Fixpoint for_each {S A} (l : list A) (body : A → M S unit) : M S unit :=
  match l with
  | [] => ret tt
  | x :: l' => do body x then for_each l' body
  end.

(** ** The file system

    A node is a regular file with its content or a directory; symbolic
    links and special files are not modelled.  [rename] follows POSIX
    [rename(2)], the platform of the repository's documentation: an
    existing regular file at the target is replaced silently.  A path that
    does not exist gives [FileNotFoundError], or [NotADirectoryError] when
    a component on the way to it is a regular file.  Errors that the tree
    does not determine (permissions, a full disk) are left out.

    Besides the tree, the world keeps the journal [ops] of the mutating
    calls that succeeded, oldest first. *)

Inductive node (C : Type) :=
  | File (c : C)
  | Dir.
Arguments File {C} c.
Arguments Dir {C}.

Inductive fsop (C : Type) :=
  | Mkdir (p : path)
  | Rename (src dst : path)
  | Write (p : path) (c : C).
Arguments Mkdir {C} p.
Arguments Rename {C} src dst.
Arguments Write {C} p c.

Record world (C : Type) := World {
  fs : gmap path (node C);
  ops : list (fsop C)
}.
Arguments World {C} fs ops.
Arguments fs {C} w.
Arguments ops {C} w.

Definition is_prefix_of (p q : path) : bool := bool_decide (p `prefix_of` q).

(** Moving the subtree rooted at [src] to [dst]. *)
Definition rebase (src dst k : path) : path :=
  if is_prefix_of src k then dst ++ drop (length src) k else k.

Definition move_tree {C} (src dst : path) (t : gmap path (node C))
  : gmap path (node C) :=
  list_to_map (map (λ kv, (rebase src dst kv.1, kv.2)) (map_to_list t)).

(** The entries of directory [d], in the order of the map. *)
Definition children {C} (t : gmap path (node C)) (d : path) : list path :=
  filter (λ k, k ≠ [] ∧ parent k = d) (map fst (map_to_list t)).

(** Whether a component on the way to [above ++ below] is a regular
    file. *)
Fixpoint below_file {C} (t : gmap path (node C)) (above : path)
    (below : list string) : bool :=
  match below with
  | [] => false
  | c :: below' =>
      match t !! above with
      | Some (File _) => true
      | _ => below_file t (above ++ [c]) below'
      end
  end.

(** The error of a system call on a path that cannot be reached:
    [ENOTDIR] when a component on the way is a regular file, [ENOENT]
    otherwise. *)
Definition missing {C} (t : gmap path (node C)) (p : path) : exn :=
  if below_file t [] p then NotADirectoryError else FileNotFoundError.

Section FileSystem.
Context {C : Type}.

(** The order in which the operating system lists a directory. *)
Variable ord : list path → list path.

Definition commit (t : gmap path (node C)) (o : fsop C) : M (world C) unit :=
  modify (λ w, World t (ops w ++ [o])).

(** [p.exists()] *)
Definition path_exists (p : path) : M (world C) bool :=
  λ w, (Ok (match fs w !! p with Some _ => true | None => false end), w).

(** [p.is_file()] *)
Definition is_file (p : path) : M (world C) bool :=
  λ w, (Ok (match fs w !! p with Some (File _) => true | _ => false end), w).

(** [p.is_dir()] *)
Definition is_dir (p : path) : M (world C) bool :=
  λ w, (Ok (match fs w !! p with Some Dir => true | _ => false end), w).

(** [p.iterdir()]: the listing is read in one go ([os.listdir]). *)
Definition iterdir (d : path) : M (world C) (list path) :=
  λ w, match fs w !! d with
       | Some Dir => (Ok (ord (children (fs w) d)), w)
       | Some (File _) => (Raise NotADirectoryError, w)
       | None => (Raise (missing (fs w) d), w)
       end.

(** [p.mkdir(exist_ok=True)] *)
Definition mkdir_exist_ok (p : path) : M (world C) unit :=
  λ w, match fs w !! p with
       | Some Dir => (Ok tt, w)
       | Some (File _) => (Raise FileExistsError, w)
       | None =>
           match fs w !! parent p with
           | Some Dir => commit (<[p := Dir]> (fs w)) (Mkdir p) w
           | Some (File _) => (Raise NotADirectoryError, w)
           | None => (Raise (missing (fs w) p), w)
           end
       end.

(** [p.mkdir(parents=True, exist_ok=True)], on the reversed components
    of [p]: a missing parent is created first, then [p] itself. *)
Fixpoint mkdir_parents_rev (rp : list string) : M (world C) unit :=
  λ w, match fs w !! rev rp with
       | Some Dir => (Ok tt, w)
       | Some (File _) => (Raise FileExistsError, w)
       | None =>
           match rp with
           | [] => (Raise FileNotFoundError, w)
           | _ :: rp' =>
               match fs w !! rev rp' with
               | Some Dir =>
                   commit (<[rev rp := Dir]> (fs w)) (Mkdir (rev rp)) w
               | Some (File _) => (Raise NotADirectoryError, w)
               | None =>
                   (do mkdir_parents_rev rp' then
                    λ w', commit (<[rev rp := Dir]> (fs w'))
                                 (Mkdir (rev rp)) w') w
               end
           end
       end.

Definition mkdir_parents (p : path) : M (world C) unit :=
  mkdir_parents_rev (rev p).

(** [os.rename(src, dst)] *)
Definition os_rename (src dst : path) : M (world C) unit :=
  λ w, match fs w !! src with
       | None => (Raise (missing (fs w) src), w)
       | Some n =>
           if decide (src = dst) then (Ok tt, w)
           else
             match fs w !! dst, n with
             | None, File c =>
                 match fs w !! parent dst with
                 | Some Dir =>
                     commit (<[dst := File c]> (delete src (fs w)))
                            (Rename src dst) w
                 | Some (File _) => (Raise NotADirectoryError, w)
                 | None => (Raise (missing (fs w) dst), w)
                 end
             | None, Dir =>
                 if is_prefix_of src dst then (Raise OSError, w)
                 else
                   match fs w !! parent dst with
                   | Some Dir =>
                       commit (move_tree src dst (fs w)) (Rename src dst) w
                   | Some (File _) => (Raise NotADirectoryError, w)
                   | None => (Raise (missing (fs w) dst), w)
                   end
             | Some (File _), File c =>
                 commit (<[dst := File c]> (delete src (fs w)))
                        (Rename src dst) w
             | Some (File _), Dir => (Raise NotADirectoryError, w)
             | Some Dir, File _ => (Raise IsADirectoryError, w)
             | Some Dir, Dir =>
                 if is_prefix_of src dst then (Raise OSError, w)
                 else
                   match children (fs w) dst with
                   | [] =>
                       commit (move_tree src dst (delete dst (fs w)))
                              (Rename src dst) w
                   | _ :: _ => (Raise OSError, w)
                   end
             end
       end.

(** [shutil.move(src, dst)].  A destination that is a directory receives
    the source inside it.  When [os.rename] fails the library falls back
    on copying: for a regular file the copy fails as the rename did; for
    a directory [copytree] creates the missing parents of the target. *)
Definition shutil_move (src dst : path) : M (world C) path :=
  let* dst_is_dir := is_dir dst in
  if dst_is_dir && bool_decide (src = dst) then
    do os_rename src dst then ret dst
  else
    let* real_dst :=
      (if dst_is_dir then
         let inside := joinpath dst (name src) in
         let* taken := path_exists inside in
         if taken then raise ShutilError else ret inside
       else ret dst) in
    do try_except (os_rename src real_dst)
         (λ e,
            let* src_is_dir := is_dir src in
            if src_is_dir then
              if is_prefix_of src dst then raise ShutilError
              else
                let* taken := path_exists real_dst in
                if taken then raise FileExistsError
                else
                  do mkdir_parents (parent real_dst) then
                  os_rename src real_dst
            else raise e)
    then ret real_dst.

(** [open(p, 'w')] followed by writing [c] and closing the file. *)
Definition write_file (p : path) (c : C) : M (world C) unit :=
  λ w, match fs w !! p with
       | Some Dir => (Raise IsADirectoryError, w)
       | Some (File _) => commit (<[p := File c]> (fs w)) (Write p c) w
       | None =>
           match fs w !! parent p with
           | Some Dir => commit (<[p := File c]> (fs w)) (Write p c) w
           | Some (File _) => (Raise NotADirectoryError, w)
           | None => (Raise (missing (fs w) p), w)
           end
       end.

(** [open(p, 'r')] followed by reading the whole file. *)
Definition read_file (p : path) : M (world C) C :=
  λ w, match fs w !! p with
       | Some (File c) => (Ok c, w)
       | Some Dir => (Raise IsADirectoryError, w)
       | None => (Raise (missing (fs w) p), w)
       end.

End FileSystem.

(** ** [.kiro/src/categorizer.py] *)

(** A category table: a [dict] from category name to its extensions, in
    insertion order. *)
Abbreviation table := (list (string * list string)).

Definition CATEGORY_MAPPINGS : table :=
  [ ("Images", [".jpg"; ".jpeg"; ".png"; ".gif"; ".bmp"; ".svg"; ".webp"]);
    ("Documents", [".pdf"; ".doc"; ".docx"; ".txt"; ".odt"; ".rtf"]);
    ("Videos", [".mp4"; ".avi"; ".mkv"; ".mov"; ".wmv"; ".flv"]);
    ("Audio", [".mp3"; ".wav"; ".flac"; ".aac"; ".ogg"; ".m4a"]);
    ("Archives", [".zip"; ".rar"; ".7z"; ".tar"; ".gz"; ".bz2"]);
    ("Code", [".py"; ".js"; ".java"; ".cpp"; ".c"; ".html"; ".css"; ".json"]);
    ("Spreadsheets", [".xlsx"; ".xls"; ".csv"; ".ods"]);
    ("Others", []) ].

(** The loop [for category, extensions in mappings.items(): if extension
    in extensions: return category], with [fallback] returned after it. *)
Fixpoint first_owner (mappings : table) (extension : string)
    (fallback : string) : string :=
  match mappings with
  | [] => fallback
  | (category, extensions) :: rest =>
      if bool_decide (extension ∈ extensions) then category
      else first_owner rest extension fallback
  end.

(** [FileCategorizer.__init__]: [custom_mappings or CATEGORY_MAPPINGS];
    [None] and the empty dict are both falsy. *)
Definition FileCategorizer (custom_mappings : option table) : table :=
  match custom_mappings with
  | Some (entry :: rest) => entry :: rest
  | Some [] | None => CATEGORY_MAPPINGS
  end.

(** [FileCategorizer.categorize] *)
Definition categorize (mappings : table) (file_path : path) : string :=
  let extension := lower (suffix file_path) in
  first_owner mappings extension "Others".

(** ** [.kiro/src/undo.py] *)

(** JSON values, as [json.load] returns them. *)
#[warnings="-register-all"]
Inductive json :=
  | JNull
  | JBool (b : bool)
  | JNum (literal : string)
  | JStr (s : string)
  | JArr (items : list json)
  | JObj (members : list (string * json)).

(** The content of a file of the package's world: a document that
    [json.load] parses to [j], or text that it rejects. *)
Inductive kcontent :=
  | Json (j : json)
  | Blob (text : string).

Inductive level := INFO | WARNING | ERROR.

Inductive kmsg :=
  | LoadedOperations (n : nat)
  | FailedToLoadHistory (e : exn)
  | FailedToSaveHistory (e : exn)
  | NoOperationsToUndo
  | Undone (destination source : path)
  | CannotUndo (destination : path)
  | OrganizingDirectory (directory : path)
  | WouldMove (file_name category : string)
  | Moved (file_name dir_name : string)
  | DirectoryDoesNotExist (directory : path).

(** The state of a process of the package: the world, the in-memory
    [UndoManager.history] and the records the loggers have emitted. *)
Record kstate := KState {
  kworld : world kcontent;
  history : list (path * path);
  klog : list (level * kmsg)
}.

Definition lift {A} (m : M (world kcontent) A) : M kstate A :=
  λ st, let '(r, w) := m (kworld st) in
        (r, KState w (history st) (klog st)).

Definition logger (l : level) (m : kmsg) : M kstate unit :=
  modify (λ st, KState (kworld st) (history st) (klog st ++ [(l, m)])).

Definition set_history (h : list (path * path)) : M kstate unit :=
  modify (λ st, KState (kworld st) h (klog st)).

Definition get_history : M kstate (list (path * path)) :=
  λ st, (Ok (history st), st).

Definition lift_result {S A} (r : result A) : M S A := λ s, (r, s).

(** [json.load(f)] *)
Definition json_load (c : kcontent) : result json :=
  match c with
  | Json j => Ok j
  | Blob _ => Raise JSONDecodeError
  end.

(** Iterating over a JSON value: a list yields its items, a string its
    characters, a dict its keys; anything else is not iterable. *)
Definition chars (s : string) : list json := map JStr (code_points s).

Definition iter_json (j : json) : result (list json) :=
  match j with
  | JArr items => Ok items
  | JStr s => Ok (chars s)
  | JObj members => Ok (map (λ kv, JStr kv.1) members)
  | JNull | JBool _ | JNum _ => Raise TypeError
  end.

(** [Path(x)]: only a string is accepted. *)
Definition to_Path (j : json) : result path :=
  match j with
  | JStr s => Ok (Path_of_str s)
  | _ => Raise TypeError
  end.

(** One round of [(Path(s), Path(d)) for s, d in data]: the item is
    unpacked into exactly two values. *)
Definition decode_item (item : json) : result (path * path) :=
  match iter_json item with
  | Raise e => Raise e
  | Ok [s; d] =>
      match to_Path s, to_Path d with
      | Ok ps, Ok pd => Ok (ps, pd)
      | Raise e, _ => Raise e
      | _, Raise e => Raise e
      end
  | Ok _ => Raise ValueError
  end.

Fixpoint decode_items (items : list json) : result (list (path * path)) :=
  match items with
  | [] => Ok []
  | item :: rest =>
      match decode_item item with
      | Raise e => Raise e
      | Ok r =>
          match decode_items rest with
          | Raise e => Raise e
          | Ok rs => Ok (r :: rs)
          end
      end
  end.

(** [[(Path(s), Path(d)) for s, d in data]] *)
Definition decode_history (data : json) : result (list (path * path)) :=
  match iter_json data with
  | Raise e => Raise e
  | Ok items => decode_items items
  end.

(** [[[str(s), str(d)] for s, d in self.history]] *)
Definition encode_history (h : list (path * path)) : json :=
  JArr (map (λ r, JArr [JStr (str_of_path r.1); JStr (str_of_path r.2)]) h).

Section UndoManager.
(** [self.history_file] *)
Variable history_file : path.

(** [UndoManager._load_history] *)
Definition _load_history : M kstate unit :=
  let* present := lift (path_exists history_file) in
  if present then
    try_except
      (let* f := lift (read_file history_file) in
       let* data := lift_result (json_load f) in
       let* h := lift_result (decode_history data) in
       do set_history h then
       logger INFO (LoadedOperations (length h)))
      (λ e, logger ERROR (FailedToLoadHistory e))
  else ret tt.

(** [UndoManager.__init__] *)
Definition UndoManager : M kstate unit :=
  do set_history [] then
  _load_history.

(** [UndoManager._save_history] *)
Definition _save_history : M kstate unit :=
  try_except
    (let* h := get_history in
     let data := encode_history h in
     lift (write_file history_file (Json data)))
    (λ e, logger ERROR (FailedToSaveHistory e)).

(** [UndoManager.record_move] *)
Definition record_move (source destination : path) : M kstate unit :=
  let* h := get_history in
  do set_history (h ++ [(source, destination)]) then
  _save_history.

(** [UndoManager.undo_last] *)
Definition undo_last : M kstate bool :=
  let* h := get_history in
  match last h with
  | None =>
      do logger WARNING NoOperationsToUndo then
      ret false
  | Some (source, destination) =>
      do set_history (removelast h) then
      let* present := lift (path_exists destination) in
      if present then
        do lift (os_rename destination source) then
        do logger INFO (Undone destination source) then
        do _save_history then
        ret true
      else
        do logger ERROR (CannotUndo destination) then
        do _save_history then
        ret false
  end.

(** [UndoManager.undo_all]: [while self.history: self.undo_last()].
    [None] stands for a loop that has not finished within [fuel]
    iterations. *)
Fixpoint undo_all_loop (fuel : nat) (st : kstate)
    : option (result unit * kstate) :=
  match history st with
  | [] => Some (Ok tt, st)
  | _ :: _ =>
      match fuel with
      | 0 => None
      | S fuel' =>
          match undo_last st with
          | (Ok _, st') => undo_all_loop fuel' st'
          | (Raise e, st') => Some (Raise e, st')
          end
      end
  end.

Definition undo_all (st : kstate) : option (result unit * kstate) :=
  undo_all_loop (length (history st)) st.

End UndoManager.

(** ** [.kiro/src/cleaner.py] and [.kiro/src/main.py] *)

Section FileCleaner.
Variable ord : list path → list path.
Variable history_file : path.

(** [self.directory] *)
Variable directory : path.

(** [self.categorizer = FileCategorizer()] *)
Definition categorizer : table := FileCategorizer None.

(** [FileCleaner.__init__]: building the [UndoManager] loads the
    persisted history. *)
Definition FileCleaner : M kstate unit := UndoManager history_file.

(** [FileCleaner._move_file] *)
Definition _move_file (file_path target_dir : path) : M kstate unit :=
  do lift (mkdir_exist_ok target_dir) then
  let destination := joinpath target_dir (name file_path) in
  do record_move history_file file_path destination then
  do lift (os_rename file_path destination) then
  logger INFO (Moved (name file_path) (name target_dir)).

(** The body of the loop of [FileCleaner.organize]. *)
Definition organize_entry (dry_run : bool) (file_path : path)
    : M kstate unit :=
  let* regular := lift (is_file file_path) in
  if regular then
    let category := categorize categorizer file_path in
    let target_dir := joinpath directory category in
    if dry_run then logger INFO (WouldMove (name file_path) category)
    else _move_file file_path target_dir
  else ret tt.

(** [FileCleaner.organize] *)
Definition organize (dry_run : bool) : M kstate unit :=
  do logger INFO (OrganizingDirectory directory) then
  let* listing := lift (iterdir ord directory) in
  for_each listing (organize_entry dry_run).

(** [main], with the parsed arguments [directory], [--dry-run] and
    [--undo]. *)
Definition kiro_main (dry_run undo : bool) (st : kstate)
    : option (result unit * kstate) :=
  match lift (path_exists directory) st with
  | (Ok false, st1) =>
      Some (logger ERROR (DirectoryDoesNotExist directory) st1)
  | (Ok true, st1) =>
      match FileCleaner st1 with
      | (Ok _, st2) =>
          if undo then undo_all history_file st2
          else Some (organize dry_run st2)
      | (Raise e, st2) => Some (Raise e, st2)
      end
  | (Raise e, st1) => Some (Raise e, st1)
  end.

End FileCleaner.

(** ** [desktop_cleaner.py] *)

Definition CATEGORIES : table :=
  [ ("Images", [".png"; ".jpg"; ".jpeg"; ".gif"; ".bmp"; ".svg"; ".webp"]);
    ("Documents",
     [".pdf"; ".doc"; ".docx"; ".xls"; ".xlsx"; ".ppt"; ".pptx"; ".txt";
      ".md"]);
    ("Code",
     [".py"; ".ipynb"; ".js"; ".ts"; ".java"; ".go"; ".c"; ".cpp"; ".rb";
      ".sh"; ".yaml"; ".yml"; ".json"; ".tf"]);
    ("Archives", [".zip"; ".tar"; ".gz"; ".tgz"; ".rar"; ".7z"]);
    ("Media", [".mp3"; ".wav"; ".m4a"; ".mp4"; ".mkv"; ".avi"; ".mov"]) ].

(** [classify_file] *)
Definition classify_file (p : path) : string :=
  let ext := lower (suffix p) in
  first_owner CATEGORIES ext "Other".

(** The lines the script prints. *)
Inductive dmsg :=
  | NothingToClean
  | DryRunWouldMove (file_name folder : string)
  | DryRunDone (n : nat)
  | MovedInto (file_name folder : string)
  | LogWrittenTo (log_path : path)
  | CleanDone (n : nat)
  | NoCleanupLogs
  | LogContainedNoMoves (log_path : path)
  | UndoingMovesFrom (log_path : path)
  | UndoLine (file_name : string) (to_dir : path)
  | SkipLine (dest : path)
  | UndoComplete (undone skipped : nat)
  | UsingDesktopFolder (desktop : path)
  | RunningInDryRunMode
  | CleaningDesktop.

(** The state of a run of the script: the world, whose files hold text,
    and the standard output. *)
Record dstate := DState {
  dworld : world string;
  stdout : list dmsg
}.

Definition dlift {A} (m : M (world string) A) : M dstate A :=
  λ st, let '(r, w) := m (dworld st) in (r, DState w (stdout st)).

(** [print]: the line joins what standard output has received.  The
    encoding of the terminal is not part of the state, and a line is
    taken to be printable. *)
Definition print (m : dmsg) : M dstate unit :=
  modify (λ st, DState (dworld st) (stdout st ++ [m])).

Definition newline : string := String "010"%char EmptyString.

Definition is_line_end (a : ascii) : bool :=
  Ascii.eqb a "010"%char || Ascii.eqb a "013"%char.

(** The lines of [write_log]: a header, then [src|dest] per move. *)
Definition log_text (desktop : path) (moves : list (path * path)) : string :=
  "DESKTOP=" +:+ str_of_path desktop +:+ newline +:+
  String.concat EmptyString
    (map (λ m, str_of_path m.1 +:+ "|" +:+
               str_of_path (joinpath m.2 (name m.1)) +:+ newline) moves).

(** The same text, one string per call of [f.write]. *)
Definition log_lines (desktop : path) (moves : list (path * path))
    : list string :=
  ("DESKTOP=" +:+ str_of_path desktop +:+ newline)
  :: map (λ m, str_of_path m.1 +:+ "|" +:+
               str_of_path (joinpath m.2 (name m.1)) +:+ newline) moves.

(** The log is opened with [encoding="utf-8"]: [f.write] encodes its
    argument before any of it reaches the file, and raises
    [UnicodeEncodeError] for a path that is not valid UTF-8.  What has
    been written before stays in the file when it is closed. *)
Fixpoint written_lines (lines : list string) : list string :=
  match lines with
  | [] => []
  | line :: rest =>
      if valid_utf8 line then line :: written_lines rest else []
  end.

(** The loop of [parse_log] over the lines of the file. *)
Fixpoint parse_lines (lines : list string) : result (list (path * path)) :=
  match lines with
  | [] => Ok []
  | raw :: rest =>
      let line := strip raw in
      if bool_decide (line = EmptyString) || startswith "DESKTOP=" line then
        parse_lines rest
      else
        match split_first "|" line with
        | None => Raise ValueError
        | Some (src_str, dest_str) =>
            match parse_lines rest with
            | Ok moves =>
                Ok ((Path_of_str src_str, Path_of_str dest_str) :: moves)
            | Raise e => Raise e
            end
        end
  end.

(** [fnmatch(n, "clean_*.log")] *)
Definition is_clean_log (n : string) : bool :=
  startswith "clean_" n && endswith ".log" n && (10 <=? String.length n)%nat.

Section Desktop.
Variable ord : list path → list path.

(** [Path.home()] *)
Variable home : path.

(** The loop of [iter_desktop_files] over the listing. *)
Fixpoint select_files (listing : list path) : M dstate (list path) :=
  match listing with
  | [] => ret []
  | item :: rest =>
      let* folder := dlift (is_dir item) in
      if folder then select_files rest
      else if startswith "." (name item) then select_files rest
      else
        let* more := select_files rest in
        ret (item :: more)
  end.

(** [iter_desktop_files] *)
Definition iter_desktop_files (desktop : path) : M dstate (list path) :=
  let* listing := dlift (iterdir ord desktop) in
  select_files listing.

(** [plan_moves] *)
Definition plan_moves (desktop : path) : M dstate (list (path * path)) :=
  let* files := iter_desktop_files desktop in
  ret (map (λ src, (src, joinpath desktop (classify_file src))) files).

(** [get_log_dir] *)
Definition get_log_dir : M dstate path :=
  let log_dir := joinpath (joinpath home ".desktop-cleaner") "logs" in
  do dlift (mkdir_parents log_dir) then
  ret log_dir.

(** [write_log]; [ts] is the formatted reading of the clock. *)
Definition write_log (desktop : path) (moves : list (path * path))
    (ts : string) : M dstate (option path) :=
  match moves with
  | [] => ret None
  | _ :: _ =>
      let* log_dir := get_log_dir in
      let log_path := joinpath log_dir ("clean_" +:+ ts +:+ ".log") in
      let lines := log_lines desktop moves in
      do dlift (write_file log_path
                  (String.concat EmptyString (written_lines lines))) then
      if forallb valid_utf8 lines then ret (Some log_path)
      else raise UnicodeEncodeError
  end.

(** [parse_log] *)
Definition parse_log (log_path : path) : M dstate (list (path * path)) :=
  let* text := dlift (read_file log_path) in
  lift_result (parse_lines (split_on is_line_end text)).

(** [log_dir.glob("clean_*.log")] *)
Definition glob_clean_logs (log_dir : path) : M dstate (list path) :=
  λ st, (Ok (filter (λ p, is_clean_log (name p) = true)
               (ord (children (fs (dworld st)) log_dir))), st).

(** The loop of [undo_last_run] over the parsed moves. *)
Fixpoint undo_moves (moves : list (path * path)) (undone skipped : nat)
    : M dstate (nat * nat) :=
  match moves with
  | [] => ret (undone, skipped)
  | (src, dest) :: rest =>
      let* present := dlift (path_exists dest) in
      if present then
        do dlift (mkdir_parents (parent src)) then
        do dlift (shutil_move dest src) then
        do print (UndoLine (name dest) (parent src)) then
        undo_moves rest (S undone) skipped
      else
        do print (SkipLine dest) then
        undo_moves rest undone (S skipped)
  end.

(** [undo_last_run] *)
Definition undo_last_run : M dstate unit :=
  let* log_dir := get_log_dir in
  let* found := glob_clean_logs log_dir in
  let logs := sorted found in
  match last logs with
  | None => print NoCleanupLogs
  | Some last_log =>
      let* moves := parse_log last_log in
      match moves with
      | [] => print (LogContainedNoMoves last_log)
      | _ :: _ =>
          do print (UndoingMovesFrom last_log) then
          let* counts := undo_moves moves 0 0 in
          print (UndoComplete counts.1 counts.2)
      end
  end.

(** The loop of the real move in [clean_desktop]. *)
Definition move_entry (m : path * path) : M dstate unit :=
  let '(src, target_dir) := m in
  do dlift (mkdir_exist_ok target_dir) then
  let dest := joinpath target_dir (name src) in
  do dlift (shutil_move src dest) then
  print (MovedInto (name src) (name target_dir)).

(** [clean_desktop] *)
Definition clean_desktop (desktop : path) (dry_run : bool) (ts : string)
    : M dstate nat :=
  let* moves := plan_moves desktop in
  match moves with
  | [] =>
      do print NothingToClean then
      ret 0
  | _ :: _ =>
      if dry_run then
        do for_each moves
             (λ m, print (DryRunWouldMove (name m.1) (name m.2))) then
        do print (DryRunDone (length moves)) then
        ret (length moves)
      else
        do for_each moves move_entry then
        let* log_path := write_log desktop moves ts in
        do match log_path with
           | Some lp => print (LogWrittenTo lp)
           | None => ret tt
           end then
        do print (CleanDone (length moves)) then
        ret (length moves)
  end.

(** [main], after [find_desktop] has resolved the folder. *)
Definition desktop_main (undo dry_run : bool) (desktop : path)
    (ts : string) : M dstate unit :=
  if undo then undo_last_run
  else
    do print (UsingDesktopFolder desktop) then
    do (if dry_run then print RunningInDryRunMode
        else print CleaningDesktop) then
    do clean_desktop desktop dry_run ts then
    ret tt.

End Desktop.

(** ** Finding the desktop folder *)

(** What the script reads from its process: the names of the environment
    variables that are set, and what [platform.release()] returns or
    raises. *)
Record environment := Environment {
  environ : list string;
  platform_release : result string
}.

(** [sub in s] *)
Fixpoint contains (sub s : string) : bool :=
  String.prefix sub s
  || match s with
     | EmptyString => false
     | String _ s' => contains sub s'
     end.

(** [is_wsl] *)
Definition is_wsl (e : environment) : bool :=
  if bool_decide ("WSL_DISTRO_NAME" ∈ environ e) then true
  else match platform_release e with
       | Ok release => contains "microsoft" (lower release)
       | Raise _ => false
       end.

(** The names of the system and public desktops [find_desktop] skips. *)
Definition blocked : list string :=
  ["All Users"; "Default"; "Default User"; "Public"].

(** [any(b.lower() in str(c).lower() for b in blocked)] *)
Definition is_blocked (c : path) : bool :=
  existsb (λ b, contains (lower b) (lower (str_of_path c))) blocked.

(** The ways [find_desktop] ends the process with [SystemExit]. *)
Inductive system_exit :=
  | PathDoesNotExist (p : path)
  | NotADirectory (p : path)
  | DesktopNotFound.

(** [candidates.sort(key=lambda t: t[1], reverse=True)].  The sort is
    stable, also when reversed: among candidates with the same count the
    one that was appended first stays first. *)
Fixpoint insert_by_count (x : path * nat) (l : list (path * nat))
    : list (path * nat) :=
  match l with
  | [] => [x]
  | y :: l' =>
      if (y.2 <=? x.2)%nat then x :: l else y :: insert_by_count x l'
  end.

Definition sort_by_count (l : list (path * nat)) : list (path * nat) :=
  foldr insert_by_count [] l.

Section FindDesktop.
Variable ord : list path → list path.

(** [Path.home()] *)
Variable home : path.

Variable e : environment.

(** [Path("/mnt/c/Users")] *)
Definition users_root : path := ["mnt"; "c"; "Users"].

(** The loop of [candidate_desktops] over the Windows users. *)
Fixpoint windows_desktops (user_dirs : list path) : M dstate (list path) :=
  match user_dirs with
  | [] => ret []
  | user_dir :: rest =>
      let* folder := dlift (is_dir user_dir) in
      if folder then
        let candidate := joinpath user_dir "Desktop" in
        let* present := dlift (path_exists candidate) in
        let* more := windows_desktops rest in
        ret (if present then candidate :: more else more)
      else windows_desktops rest
  end.

(** [candidate_desktops]: the generator is read to its end by its only
    caller, which changes nothing in between. *)
Definition candidate_desktops : M dstate (list path) :=
  let unix :=
    [ joinpath home "Desktop"; joinpath home "desktop" ]
    ++ map (joinpath home) [ "Escritorio"; "Bureau"; "Schreibtisch" ] in
  if is_wsl e then
    let* present := dlift (path_exists users_root) in
    if present then
      let* user_dirs := dlift (iterdir ord users_root) in
      let* windows := windows_desktops user_dirs in
      ret (unix ++ windows)
    else ret unix
  else ret unix.

(** [sum(1 for x in c.iterdir() if x.is_file())] *)
Fixpoint count_files (entries : list path) : M dstate nat :=
  match entries with
  | [] => ret 0
  | x :: rest =>
      let* regular := dlift (is_file x) in
      let* n := count_files rest in
      ret (if regular then S n else n)
  end.

(** The loop of [find_desktop] over the candidates.  The tree has no
    permissions, so the handler of [PermissionError] is never entered. *)
Fixpoint scan_candidates (cs : list path)
    : M dstate (list (path * nat)) :=
  match cs with
  | [] => ret []
  | c :: rest =>
      if is_blocked c then scan_candidates rest
      else
        let* present := dlift (path_exists c) in
        let* folder :=
          (if present then dlift (is_dir c) else ret false) in
        if folder then
          let* entries := dlift (iterdir ord c) in
          let* file_count := count_files entries in
          let* more := scan_candidates rest in
          ret ((c, file_count) :: more)
        else scan_candidates rest
  end.

(** [find_desktop].  [custom_path] is [None] when the option is absent
    or empty; otherwise it holds the path that
    [Path(custom_path).expanduser().resolve()] yields. *)
Definition find_desktop (custom_path : option path)
    : M dstate (system_exit + path) :=
  match custom_path with
  | Some p =>
      let* present := dlift (path_exists p) in
      if negb present then ret (inl (PathDoesNotExist p))
      else
        let* folder := dlift (is_dir p) in
        if negb folder then ret (inl (NotADirectory p))
        else ret (inr p)
  | None =>
      let* cs := candidate_desktops in
      let* candidates := scan_candidates cs in
      match sort_by_count candidates with
      | [] => ret (inl DesktopNotFound)
      | best :: _ => ret (inr best.1)
      end
  end.

End FindDesktop.

(** * Vocabulary of the properties *)







Ltac unfold_monad :=
  unfold bind, ret, raise, try_except, modify, get, lift, dlift, logger,
    print, set_history, get_history, lift_result.

(** The state [_save_history] leaves: the history file rewritten, or the
    failure logged. *)
Definition saved (history_file : path) (st : kstate) : kstate :=
  match write_file history_file (Json (encode_history (history st)))
          (kworld st) with
  | (Ok _, w) => KState w (history st) (klog st)
  | (Raise e, w) =>
      KState w (history st) (klog st ++ [(ERROR, FailedToSaveHistory e)])
  end.

(** The history file can be written: it is not a directory and the
    directory it lies in exists. *)
Definition writable (t : gmap path (node kcontent)) (p : path) : Prop :=
  t !! p ≠ Some Dir ∧ t !! parent p = Some Dir.

(** What [undo_last] does with the record it has popped. *)
Definition attempt (hf : path) (r : path * path) : M kstate bool :=
  let* present := lift (path_exists r.2) in
  if present then
    do lift (os_rename r.2 r.1) then
    do logger INFO (Undone r.2 r.1) then
    do _save_history hf then
    ret true
  else
    do logger ERROR (CannotUndo r.2) then
    do _save_history hf then
    ret false.

(** The undo loop read as the specification words it: the records are
    attempted one by one in the order of [todo], most recent first, each
    with the ledger cut down to the records still to come. *)
Fixpoint attempt_in_order (hf : path) (todo : list (path * path))
    (st : kstate) : result unit * kstate :=
  match todo with
  | [] => (Ok tt, KState (kworld st) [] (klog st))
  | r :: rest =>
      match attempt hf r (KState (kworld st) (rev rest) (klog st)) with
      | (Ok _, st') => attempt_in_order hf rest st'
      | (Raise e, st') => (Raise e, st')
      end
  end.

Definition tree_of {C} (l : list (path * node C)) : gmap path (node C) :=
  list_to_map l.

Definition example_dir : path := ["home"; "u"; "Desktop"].
Definition example_home : path := ["home"; "u"].
Definition example_history_file : path :=
  ["home"; "u"; ".file_organizer_history.json"].

(** A home directory with an empty desktop folder. *)
Definition base_tree {C} : list (path * node C) :=
  [ ([], Dir); (["home"], Dir); (example_home, Dir); (example_dir, Dir) ].

Definition kstate_of (l : list (path * node kcontent))
    (h : list (path * path)) : kstate :=
  KState (World (tree_of (base_tree ++ l)) []) h [].

Definition dstate_of (l : list (path * node string)) : dstate :=
  DState (World (tree_of (base_tree ++ l)) []) [].

(** What [(Path(s), Path(d)) for s, d in data] accepts: a value that can
    be iterated, each item of which unpacks into exactly two strings.  A
    list of two strings is such an item, and so is a string of two
    characters. *)
Definition unpacks_to (item : json) (r : path * path) : Prop :=
  ∃ s d, iter_json item = Ok [JStr s; JStr d]
         ∧ r = (Path_of_str s, Path_of_str d).

(** An entry the script organizes: not a directory, not a dot file. *)
Definition eligible {C} (t : gmap path (node C)) (item : path) : bool :=
  negb (match t !! item with Some Dir => true | _ => false end)
  && negb (startswith "." (name item)).

(** The plan as a function of the tree. *)
Definition pure_plan (ord : list path → list path)
    (t : gmap path (node string)) (desktop : path)
    : result (list (path * path)) :=
  match t !! desktop with
  | Some Dir =>
      Ok (map (λ src, (src, joinpath desktop (classify_file src)))
            (filter (λ item, eligible t item = true)
               (ord (children t desktop))))
  | Some (File _) => Raise NotADirectoryError
  | None => Raise (missing t desktop)
  end.

(** The result and the printed lines of a dry run. *)
Definition dry_report (ord : list path → list path)
    (t : gmap path (node string)) (desktop : path)
    : result nat * list dmsg :=
  match pure_plan ord t desktop with
  | Raise e => (Raise e, [])
  | Ok [] => (Ok 0, [NothingToClean])
  | Ok moves =>
      (Ok (length moves),
       map (λ m, DryRunWouldMove (name m.1) (name m.2)) moves
       ++ [DryRunDone (length moves)])
  end.

Definition is_regular {C} (t : gmap path (node C)) (p : path) : bool :=
  match t !! p with Some (File _) => true | _ => false end.

(** The entries [organize] acts on: the regular files of the listing. *)
Definition kiro_plan (ord : list path → list path)
    (t : gmap path (node kcontent)) (directory : path) : list path :=
  filter (λ p, is_regular t p = true) (ord (children t directory)).

(** The result and the log records of a dry run. *)
Definition kiro_dry_report (ord : list path → list path)
    (t : gmap path (node kcontent)) (directory : path)
    : result unit * list (level * kmsg) :=
  match t !! directory with
  | Some Dir =>
      (Ok tt,
       (INFO, OrganizingDirectory directory)
       :: map (λ p, (INFO, WouldMove (name p) (categorize categorizer p)))
            (kiro_plan ord t directory))
  | Some (File _) =>
      (Raise NotADirectoryError, [(INFO, OrganizingDirectory directory)])
  | None =>
      (Raise (missing t directory), [(INFO, OrganizingDirectory directory)])
  end.

(** Running the dry run [n] times in a row. *)
Fixpoint repeat_clean_dry (ord : list path → list path) (home desktop : path)
    (ts : string) (n : nat) (st : dstate) : dstate :=
  match n with
  | 0 => st
  | S n' =>
      repeat_clean_dry ord home desktop ts n'
        (clean_desktop ord home desktop true ts st).2
  end.

Fixpoint repeat_organize_dry (ord : list path → list path)
    (hf directory : path) (n : nat) (st : kstate) : kstate :=
  match n with
  | 0 => st
  | S n' =>
      repeat_organize_dry ord hf directory n'
        (organize ord hf directory true st).2
  end.

Definition log_dir_of (home : path) : path :=
  joinpath (joinpath home ".desktop-cleaner") "logs".

(** The log file [undo_last_run] reads: the last of the sorted matches. *)
Definition last_log (ord : list path → list path) (home : path)
    (t : gmap path (node string)) : option path :=
  last (sorted (filter (λ p, is_clean_log (name p) = true)
                  (ord (children t (log_dir_of home))))).

(** The records of a log file, as [parse_log] reads them. *)
Definition records_of (text : string) : result (list (path * path)) :=
  parse_lines (split_on is_line_end text).

(** The line [undo_last_run] prints for a record. *)
Definition undo_line (m : path * path) (line : dmsg) : Prop :=
  line = UndoLine (name m.2) (parent m.1) ∨ line = SkipLine m.2.

(** The state the script leaves after moving [src] over an existing file. *)
Definition moved_over (src target_dir : path) (c : string) (st : dstate)
    : dstate :=
  let dest := joinpath target_dir (name src) in
  DState (World (<[dest := File c]> (delete src (fs (dworld st))))
            (ops (dworld st) ++ [Rename src dest]))
    (stdout st ++ [MovedInto (name src) (name target_dir)]).

(** The state the package leaves after moving [src] over an existing
    file. *)
Definition renamed_over (hf src target_dir : path) (c : kcontent)
    (st : kstate) : kstate :=
  let dest := joinpath target_dir (name src) in
  let st1 := saved hf (KState (kworld st) (history st ++ [(src, dest)])
                         (klog st)) in
  KState (World (<[dest := File c]> (delete src (fs (kworld st1))))
            (ops (kworld st1) ++ [Rename src dest]))
    (history st ++ [(src, dest)])
    (klog st1 ++ [(INFO, Moved (name src) (name target_dir))]).









(** A journal without a write. *)
Definition no_write {C} (l : list (fsop C)) : Prop :=
  Forall (λ o, match o with Write _ _ => False | _ => True end) l.




(** The folder and the destination [organize] chooses for an entry, and
    the record it appends. *)
Definition target_of (directory p : path) : path :=
  joinpath directory (categorize categorizer p).

Definition dest_of (directory p : path) : path :=
  joinpath (target_of directory p) (name p).

Definition record_of (directory p : path) : path * path :=
  (p, dest_of directory p).

(** An entry of the listing that can be moved without a collision: when
    it is a regular file, no regular file has the name of its folder and
    its destination is free. *)
Definition entry_ok (directory : path) (t : gmap path (node kcontent))
    (p : path) : Prop :=
  p ≠ [] ∧ parent p = directory
  ∧ (is_regular t p = true →
     is_regular t (target_of directory p) = false
     ∧ t !! dest_of directory p = None).


(** The history file cannot be written: it is a directory, or it does
    not exist and the directory it would lie in does not either. *)
Definition unwritable (t : gmap path (node kcontent)) (p : path) : Prop :=
  t !! p = Some Dir ∨ (t !! p = None ∧ t !! parent p ≠ Some Dir).

(** Some character of [s] satisfies [f]. *)
Fixpoint has_char (f : ascii → bool) (s : string) : bool :=
  match s with
  | EmptyString => false
  | String a s' => f a || has_char f s'
  end.

(** A component as a file system has them: not empty, not [.], without
    a slash. *)
Definition plain_component (c : string) : bool :=
  negb (String.eqb c EmptyString) && negb (String.eqb c ".")
  && negb (has_char (Ascii.eqb "/") c).

Definition plain_path (p : path) : bool := forallb plain_component p.

(** Both paths of every record are paths of the file system. *)
Definition plain_history (h : list (path * path)) : bool :=
  forallb (λ r, plain_path r.1 && plain_path r.2) h.

(** [s] ends with a character that [strip] removes. *)
Definition ends_with_space (s : string) : bool :=
  match strip_one (map rev_str whitespace) (rev_str s) with
  | Some _ => true
  | None => false
  end.

(** A component that can stand in a line of the log: no line end in it. *)
Definition one_line (c : string) : bool := negb (has_char is_line_end c).

(** A move the log can hold: source and destination are paths of the
    file system, every component is valid UTF-8 and holds no line end,
    no component of the source holds a bar, and the name does not end
    with a character that [strip] removes. *)
Definition log_safe (m : path * path) : bool :=
  plain_path m.1 && plain_path (joinpath m.2 (name m.1))
  && forallb one_line m.1 && forallb one_line m.2
  && forallb (λ c, negb (has_char (Ascii.eqb "|") c)) m.1
  && negb (ends_with_space (name m.1))
  && forallb valid_utf8 m.1 && forallb valid_utf8 m.2.

(** The line of the log for a move, without its line end. *)
Definition log_line (m : path * path) : string :=
  str_of_path m.1 +:+ "|" +:+ str_of_path (joinpath m.2 (name m.1)).

(** The records the undo of the script works on for a plan: the source
    of each move and the place it was moved to. *)
Definition records_of_plan (moves : list (path * path))
    : list (path * path) :=
  map (λ m, (m.1, joinpath m.2 (name m.1))) moves.

(** The folder has nothing the script would move. *)
Definition nothing_eligible (ord : list path → list path)
    (t : gmap path (node string)) (desktop : path) : Prop :=
  t !! desktop = Some Dir
  ∧ Forall (λ item, eligible t item = false) (ord (children t desktop)).

(** A component on the way to [p] is a regular file. *)
Definition under_file {C} (t : gmap path (node C)) (p : path) : Prop :=
  ∃ k, k < length p ∧ is_regular t (take k p) = true.

(** The folder and the destination [clean_desktop] chooses for a file. *)
Definition folder_of (desktop p : path) : path :=
  joinpath desktop (classify_file p).

Definition moved_to (desktop p : path) : path :=
  joinpath (folder_of desktop p) (name p).

Definition move_of (desktop p : path) : path * path :=
  (p, folder_of desktop p).

(** A file of the plan that can be moved without a collision: a regular
    file of the folder, no regular file has the name of its category
    folder and its destination is free. *)
Definition file_ok (desktop : path) (t : gmap path (node string))
    (p : path) : Prop :=
  p ≠ [] ∧ parent p = desktop ∧ is_regular t p = true
  ∧ is_regular t (folder_of desktop p) = false
  ∧ t !! moved_to desktop p = None.

(** The line [clean_desktop] prints for a moved file. *)
Definition moved_line (desktop p : path) : dmsg :=
  MovedInto (name p) (classify_file p).

Definition log_path_of (home : path) (ts : string) : path :=
  joinpath (log_dir_of home) ("clean_" +:+ ts +:+ ".log").

(** The files of the plan, in the order of the listing. *)
Definition plan_files (ord : list path → list path)
    (t : gmap path (node string)) (desktop : path) : list path :=
  filter (λ p, eligible t p = true) (ord (children t desktop)).

(** A folder whose eligible files can all be moved without a collision. *)
Definition collision_free (t : gmap path (node string)) (desktop : path)
    : Prop :=
  ∀ p, p ∈ children t desktop → eligible t p = true →
       is_regular t (folder_of desktop p) = false
       ∧ t !! moved_to desktop p = None.

(** A home whose log directory exists or can be created, and does not
    lie inside the folder that is cleaned. *)
Definition log_dir_ready (t : gmap path (node string))
    (home desktop : path) (ts : string) : Prop :=
  t !! home = Some Dir
  ∧ is_regular t (joinpath home ".desktop-cleaner") = false
  ∧ is_regular t (log_dir_of home) = false
  ∧ t !! log_path_of home ts ≠ Some Dir
  ∧ is_prefix_of desktop (log_dir_of home) = false.

(** Paths the script can print and write to its log: every component of
    the home directory, of the folder and of the names of its eligible
    files is valid UTF-8. *)
Definition encodable (t : gmap path (node string)) (home desktop : path)
    : Prop :=
  forallb valid_utf8 home = true
  ∧ forallb valid_utf8 desktop = true
  ∧ ∀ p, p ∈ children t desktop → eligible t p = true →
         valid_utf8 (name p) = true.

(** Records that [undo_last_run] can restore one by one: sources and
    destinations are pairwise distinct, every destination is a regular
    file, every source is free and its directory exists. *)
Definition present (t : gmap path (node string))
    (recs : list (path * path)) : Prop :=
  NoDup recs.*1 ∧ NoDup recs.*2
  ∧ Forall (λ r, t !! r.1 = None ∧ is_regular t r.2 = true
               ∧ t !! parent r.1 = Some Dir) recs.

(** The line [undo_last_run] prints for a restored file. *)
Definition undone_line (r : path * path) : dmsg :=
  UndoLine (name r.2) (parent r.1).

(** The records the log of a run holds. *)
Definition records_of_files (desktop : path) (files : list path)
    : list (path * path) :=
  map (λ p, (p, moved_to desktop p)) files.

(** A folder whose eligible files the log can hold line by line, and a
    log directory in which the log of the run sorts last. *)
Definition log_faithful (ord : list path → list path)
    (t : gmap path (node string)) (home desktop : path) (ts : string)
    : Prop :=
  forallb one_line desktop = true
  ∧ (∀ p, p ∈ children t desktop → eligible t p = true →
          log_safe (move_of desktop p) = true)
  ∧ (∀ q, q ∈ children t (log_dir_of home) →
          is_clean_log (name q) = true → q ≠ log_path_of home ts →
          path_leb (log_path_of home ts) q = false).

(** The number of regular files directly in a folder. *)
Definition file_count (t : gmap path (node string)) (c : path) : nat :=
  length (filter (λ x, is_regular t x = true) (children t c)).

(** An existing directory. *)
Definition is_folder (t : gmap path (node string)) (p : path) : bool :=
  match t !! p with Some Dir => true | _ => false end.

(** A candidate [find_desktop] keeps: its name is not blocked and it is
    an existing directory. *)
Definition usable (t : gmap path (node string)) (c : path) : bool :=
  negb (is_blocked c) && is_folder t c.

(** The Windows desktops [candidate_desktops] finds under WSL. *)
Definition windows_of (t : gmap path (node string))
    (user_dirs : list path) : list path :=
  map (λ u, joinpath u "Desktop")
    (filter (λ u, is_folder t u = true
                  ∧ is_Some (t !! joinpath u "Desktop")) user_dirs).

(** The candidates outside WSL. *)
Definition unix_desktops (home : path) : list path :=
  [ joinpath home "Desktop"; joinpath home "desktop";
    joinpath home "Escritorio"; joinpath home "Bureau";
    joinpath home "Schreibtisch" ].

(** A journal without a rename. *)
Definition no_rename {C} (l : list (fsop C)) : Prop :=
  ∀ s d, Rename s d ∉ l.

(** * Properties *)

(** ** The categorizers *)













(** ** The undo manager of the package *)

Lemma save_history_eq hf st : _save_history hf st = (Ok tt, saved hf st).
Proof.
  unfold _save_history, saved. unfold_monad.
  destruct (write_file _ _ _) as [[[]|e] w]; reflexivity.
Qed.

Lemma write_file_writable (t : gmap path (node kcontent)) o p c :
  writable t p →
  write_file p c (World t o) = (Ok tt, World (<[p := File c]> t) (o ++ [Write p c])).
Proof.
  intros [Hnd Hpar]. unfold write_file. simpl.
  destruct (t !! p) as [[c'|]|] eqn:E; [done|done|].
  by rewrite Hpar.
Qed.

Lemma saved_history hf st : history (saved hf st) = history st.
Proof. unfold saved. by destruct (write_file _ _ _) as [[[]|e] w]. Qed.

Lemma saved_writable hf st :
  writable (fs (kworld st)) hf →
  saved hf st =
    KState (World (<[hf := File (Json (encode_history (history st)))]>
                     (fs (kworld st)))
                  (ops (kworld st) ++
                   [Write hf (Json (encode_history (history st)))]))
           (history st) (klog st).
Proof.
  intros Hw. unfold saved. destruct st as [[t o] h l]. simpl in *.
  by rewrite write_file_writable.
Qed.

Lemma last_snoc_pair {A} (h : list A) (r : A) : last (h ++ [r]) = Some r.
Proof. apply last_snoc. Qed.

Lemma removelast_snoc {A} (h : list A) (r : A) : removelast (h ++ [r]) = h.
Proof. apply removelast_last. Qed.

Lemma undo_last_snoc hf st h r :
  history st = h ++ [r] →
  undo_last hf st = attempt hf r (KState (kworld st) h (klog st)).
Proof.
  intros Hh. unfold undo_last, attempt. unfold_monad. simpl.
  rewrite Hh, last_snoc, removelast_snoc. destruct r as [s d]. reflexivity.
Qed.

Lemma undo_last_empty hf st :
  history st = [] →
  undo_last hf st =
    (Ok false,
     KState (kworld st) [] (klog st ++ [(WARNING, NoOperationsToUndo)])).
Proof.
  intros Hh. destruct st as [w h l]. simpl in Hh. subst h. reflexivity.
Qed.

(** A stale record: the destination is gone. *)
Lemma attempt_stale hf r w h l :
  fs w !! r.2 = None →
  attempt hf r (KState w h l) =
    (Ok false, saved hf (KState w h (l ++ [(ERROR, CannotUndo r.2)]))).
Proof.
  intros Hd. unfold attempt, path_exists. unfold_monad. simpl.
  rewrite Hd. simpl. by rewrite save_history_eq.
Qed.

(** Whatever happens, [attempt] leaves the in-memory ledger alone. *)
Lemma attempt_history hf r st :
  history (attempt hf r st).2 = history st.
Proof.
  unfold attempt, path_exists. unfold_monad. simpl.
  destruct (fs (kworld st) !! r.2) as [n|]; simpl.
  - destruct (os_rename r.2 r.1 (kworld st)) as [[[]|e] w]; simpl; [|done].
    rewrite save_history_eq. simpl. by rewrite saved_history.
  - rewrite save_history_eq. simpl. by rewrite saved_history.
Qed.


Lemma undo_all_loop_in_order hf todo : ∀ fuel st,
  history st = rev todo → length todo ≤ fuel →
  undo_all_loop hf fuel st = Some (attempt_in_order hf todo st).
Proof.
  induction todo as [|r rest IH]; intros fuel st Hh Hfuel.
  - simpl in Hh. destruct st as [w h l]. simpl in Hh. subst h.
    by destruct fuel.
  - simpl in Hh, Hfuel. destruct fuel as [|fuel]; [lia|].
    simpl. destruct (history st) as [|x xs] eqn:E.
    { by destruct (rev rest). }
    rewrite <- E in Hh. clear E x xs.
    rewrite (undo_last_snoc hf st (rev rest) r Hh).
    pose proof (attempt_history hf r
                  (KState (kworld st) (rev rest) (klog st))) as Hah.
    destruct (attempt hf r _) as [[b|e] st'] eqn:Ha; [|done].
    simpl in Hah. apply IH; [done|lia].
Qed.

Lemma undo_all_in_order hf st :
  undo_all hf st = Some (attempt_in_order hf (rev (history st)) st).
Proof.
  unfold undo_all. apply undo_all_loop_in_order.
  - by rewrite rev_involutive.
  - by rewrite length_rev.
Qed.


(** ** Loading the history *)

Lemma UndoManager_missing hf st :
  fs (kworld st) !! hf = None →
  UndoManager hf st = (Ok tt, KState (kworld st) [] (klog st)).
Proof.
  intros Hm. unfold UndoManager, _load_history, path_exists. unfold_monad.
  simpl. by rewrite Hm.
Qed.

Lemma UndoManager_unparseable hf st text :
  fs (kworld st) !! hf = Some (File (Blob text)) →
  UndoManager hf st =
    (Ok tt, KState (kworld st) []
              (klog st ++ [(ERROR, FailedToLoadHistory JSONDecodeError)])).
Proof.
  intros Hm.
  unfold UndoManager, _load_history, path_exists, read_file. unfold_monad.
  simpl. rewrite Hm. simpl. by rewrite Hm.
Qed.

Lemma UndoManager_directory hf st :
  fs (kworld st) !! hf = Some Dir →
  UndoManager hf st =
    (Ok tt, KState (kworld st) []
              (klog st ++ [(ERROR, FailedToLoadHistory IsADirectoryError)])).
Proof.
  intros Hm.
  unfold UndoManager, _load_history, path_exists, read_file. unfold_monad.
  simpl. rewrite Hm. simpl. by rewrite Hm.
Qed.

Lemma UndoManager_document hf st j :
  fs (kworld st) !! hf = Some (File (Json j)) →
  UndoManager hf st =
    match decode_history j with
    | Ok h =>
        (Ok tt, KState (kworld st) h
                  (klog st ++ [(INFO, LoadedOperations (length h))]))
    | Raise e =>
        (Ok tt, KState (kworld st) []
                  (klog st ++ [(ERROR, FailedToLoadHistory e)]))
    end.
Proof.
  intros Hm.
  unfold UndoManager, _load_history, path_exists, read_file. unfold_monad.
  simpl. rewrite Hm. simpl. rewrite Hm. simpl. by destruct (decode_history j).
Qed.

Lemma UndoManager_never_raises hf st :
  ∃ h l, UndoManager hf st = (Ok tt, KState (kworld st) h (klog st ++ l)).
Proof.
  destruct (fs (kworld st) !! hf) as [[[j|text]|]|] eqn:E.
  - rewrite (UndoManager_document _ _ _ E).
    destruct (decode_history j); eauto.
  - rewrite (UndoManager_unparseable _ _ _ E). eauto.
  - rewrite (UndoManager_directory _ _ E). eauto.
  - rewrite (UndoManager_missing _ _ E). exists [], []. by rewrite app_nil_r.
Qed.

(** ** Example worlds *)

(** ** C9: loading the history *)

Lemma decode_item_ok item r : decode_item item = Ok r ↔ unpacks_to item r.
Proof.
  unfold decode_item, unpacks_to. split.
  - destruct (iter_json item) as [[|s [|d [|x l]]]|e]; try discriminate.
    destruct s, d; cbn; try discriminate. intros [= <-]. eauto.
  - intros (s & d & -> & ->). reflexivity.
Qed.

Lemma decode_items_ok items : ∀ h,
  decode_items items = Ok h ↔ Forall2 unpacks_to items h.
Proof.
  induction items as [|item rest IH]; intros h; cbn [decode_items].
  - split; [intros [= <-]; constructor|by intros ->%Forall2_nil_inv_l].
  - split.
    + destruct (decode_item item) as [r|e] eqn:Hi; [|discriminate].
      destruct (decode_items rest) as [rs|e] eqn:Hr; [|discriminate].
      intros [= <-]. constructor; [by apply decode_item_ok|by apply IH].
    + intros (r & rs & Hi & Hr & ->)%Forall2_cons_inv_l.
      apply decode_item_ok in Hi. apply IH in Hr. by rewrite Hi, Hr.
Qed.

Lemma decode_history_ok j h :
  decode_history j = Ok h
  ↔ ∃ items, iter_json j = Ok items ∧ Forall2 unpacks_to items h.
Proof.
  unfold decode_history. split.
  - destruct (iter_json j) as [items|e]; [|discriminate].
    intros H%decode_items_ok. eauto.
  - intros (items & -> & H). by apply decode_items_ok.
Qed.

(** C9 (as amended).  Building the undo manager never raises and never
    touches the file system, and what it does is decided by the history
    file alone.  When the file is missing the ledger is empty and nothing
    at all is logged.  When the path is a directory, when the text is not
    JSON, or when the comprehension over the document raises, the ledger
    is empty and the failure is logged at level ERROR.  When the
    comprehension accepts the document (it can be iterated and every item
    unpacks into exactly two strings) the ledger holds the pairs and their
    number is logged at level INFO.  In no case is a warning logged. *)
Theorem load_history_recovers (hf : path) (st : kstate) :
  (∃ h l, UndoManager hf st = (Ok tt, KState (kworld st) h (klog st ++ l))
          ∧ ∀ m, (WARNING, m) ∉ l)
  ∧ (fs (kworld st) !! hf = None →
     UndoManager hf st = (Ok tt, KState (kworld st) [] (klog st)))
  ∧ (fs (kworld st) !! hf = Some Dir →
     UndoManager hf st =
       (Ok tt, KState (kworld st) []
          (klog st ++ [(ERROR, FailedToLoadHistory IsADirectoryError)])))
  ∧ (∀ text, fs (kworld st) !! hf = Some (File (Blob text)) →
     UndoManager hf st =
       (Ok tt, KState (kworld st) []
          (klog st ++ [(ERROR, FailedToLoadHistory JSONDecodeError)])))
  ∧ (∀ j e, fs (kworld st) !! hf = Some (File (Json j)) →
     decode_history j = Raise e →
     UndoManager hf st =
       (Ok tt, KState (kworld st) []
          (klog st ++ [(ERROR, FailedToLoadHistory e)])))
  ∧ (∀ j h, fs (kworld st) !! hf = Some (File (Json j)) →
     decode_history j = Ok h →
     UndoManager hf st =
       (Ok tt, KState (kworld st) h
          (klog st ++ [(INFO, LoadedOperations (length h))])))
  ∧ (∀ j h, decode_history j = Ok h
            ↔ ∃ items, iter_json j = Ok items
                       ∧ Forall2 unpacks_to items h).
Proof.
  split.
  { destruct (fs (kworld st) !! hf) as [[[j|text]|]|] eqn:E.
    - rewrite (UndoManager_document _ _ _ E).
      destruct (decode_history j); do 2 eexists; (split; [done|]);
        intros m Hm; apply list_elem_of_singleton in Hm; discriminate.
    - rewrite (UndoManager_unparseable _ _ _ E).
      do 2 eexists; (split; [done|]).
      intros m Hm; apply list_elem_of_singleton in Hm; discriminate.
    - rewrite (UndoManager_directory _ _ E).
      do 2 eexists; (split; [done|]).
      intros m Hm; apply list_elem_of_singleton in Hm; discriminate.
    - rewrite (UndoManager_missing _ _ E). exists [], [].
      rewrite app_nil_r. split; [done|]. intros m Hm.
      by apply elem_of_nil in Hm. }
  split; [apply UndoManager_missing|].
  split; [apply UndoManager_directory|].
  split; [apply UndoManager_unparseable|].
  split.
  { intros j e Hf Hd. by rewrite (UndoManager_document _ _ _ Hf), Hd. }
  split.
  { intros j h Hf Hd. by rewrite (UndoManager_document _ _ _ Hf), Hd. }
  apply decode_history_ok.
Qed.

Lemma load_history_recovers_witness :
  let load doc :=
    (UndoManager example_history_file
       (kstate_of [(example_history_file, File doc)] [])).2 in
  UndoManager example_history_file (kstate_of [] []) =
    (Ok tt, kstate_of [] [])
  ∧ klog (load (Blob "{oops"))
    = [(ERROR, FailedToLoadHistory JSONDecodeError)]
  ∧ (history (load (Json (JArr [JStr "a"]))) = []
     ∧ klog (load (Json (JArr [JStr "a"])))
       = [(ERROR, FailedToLoadHistory ValueError)])
  ∧ (history (load (Json (JNum "7"))) = []
     ∧ klog (load (Json (JNum "7")))
       = [(ERROR, FailedToLoadHistory TypeError)])
  ∧ (history (load (Json (JArr [JStr "ab"]))) = [(["a"], ["b"])]
     ∧ klog (load (Json (JArr [JStr "ab"])))
       = [(INFO, LoadedOperations 1)])
  ∧ history (load (Json (JArr [JStr (bytes [195; 169] +:+ "x")])))
    = [([bytes [195; 169]], ["x"])]
  ∧ history (load (Json (JArr [JArr [JStr "/d/a.txt"; JStr "/d/Docs/a.txt"]])))
    = [(["d"; "a.txt"], ["d"; "Docs"; "a.txt"])].
Proof.
  intros load.
  assert (Hdoc : ∀ doc,
            fs (kworld (kstate_of [(example_history_file, File doc)] []))
              !! example_history_file = Some (File doc))
    by (intros doc; by vm_compute).
  split; [|split; [|split; [|split; [|split; [|split]]]]].
  - destruct (load_history_recovers example_history_file (kstate_of [] []))
      as (_ & Hmissing & _).
    apply Hmissing. by vm_compute.
  - destruct (load_history_recovers example_history_file
                (kstate_of [(example_history_file, File (Blob "{oops"))] []))
      as (_ & _ & _ & Hblob & _).
    unfold load. rewrite (Hblob "{oops" (Hdoc _)). done.
  - destruct (load_history_recovers example_history_file
                (kstate_of [(example_history_file,
                             File (Json (JArr [JStr "a"])))] []))
      as (_ & _ & _ & _ & Hbad & _).
    unfold load. rewrite (Hbad _ ValueError (Hdoc _)); [done|by vm_compute].
  - destruct (load_history_recovers example_history_file
                (kstate_of [(example_history_file,
                             File (Json (JNum "7")))] []))
      as (_ & _ & _ & _ & Hbad & _).
    unfold load. rewrite (Hbad _ TypeError (Hdoc _)); [done|by vm_compute].
  - destruct (load_history_recovers example_history_file
                (kstate_of [(example_history_file,
                             File (Json (JArr [JStr "ab"])))] []))
      as (_ & _ & _ & _ & _ & Hgood & _).
    unfold load.
    rewrite (Hgood _ [(["a"], ["b"])] (Hdoc _)); [done|by vm_compute].
  - destruct (load_history_recovers example_history_file
                (kstate_of [(example_history_file,
                             File (Json (JArr [JStr (bytes [195; 169]
                                                     +:+ "x")])))] []))
      as (_ & _ & _ & _ & _ & Hgood & _).
    unfold load.
    rewrite (Hgood _ [([bytes [195; 169]], ["x"])] (Hdoc _));
      [done|by vm_compute].
  - destruct (load_history_recovers example_history_file
                (kstate_of [(example_history_file,
                             File (Json (JArr [JArr [JStr "/d/a.txt";
                                                     JStr "/d/Docs/a.txt"]])))]
                   []))
      as (_ & _ & _ & _ & _ & Hgood & _).
    unfold load.
    rewrite (Hgood _ [(["d"; "a.txt"], ["d"; "Docs"; "a.txt"])] (Hdoc _));
      [done|by vm_compute].
Defined.

(** C9, as stated, fails: with the history file missing the manager
    starts with an empty ledger but logs nothing, and for an unparseable
    file the only record logged has level ERROR, not WARNING. *)
Lemma load_history_logs_no_warning :
  let missing := (UndoManager example_history_file (kstate_of [] [])).2 in
  let corrupt :=
    (UndoManager example_history_file
       (kstate_of [(example_history_file, File (Blob "{oops"))] [])).2 in
  history missing = [] ∧ klog missing = []
  ∧ history corrupt = []
  ∧ klog corrupt = [(ERROR, FailedToLoadHistory JSONDecodeError)]
  ∧ ¬ (∃ m, (WARNING, m) ∈ klog missing)
  ∧ ¬ (∃ m, (WARNING, m) ∈ klog corrupt).
Proof.
  vm_compute. repeat split; try reflexivity.
  - intros [m Hm]. by apply elem_of_nil in Hm.
  - intros [m Hm]. apply elem_of_cons in Hm as [Hm|Hm]; [discriminate|].
    by apply elem_of_nil in Hm.
Qed.

(** ** C10: termination of the undo loop *)






(** ** Paths and listings *)

Lemma parent_joinpath p c : parent (joinpath p c) = p.
Proof. apply removelast_last. Qed.

Lemma name_joinpath p c : name (joinpath p c) = c.
Proof. apply last_last. Qed.

Lemma joinpath_parent_name p : p ≠ [] → joinpath (parent p) (name p) = p.
Proof. intros Hp. symmetry. by apply app_removelast_last. Qed.

Lemma joinpath_inj p q c e : joinpath p c = joinpath q e → p = q ∧ c = e.
Proof. intros H. by apply app_inj_tail in H. Qed.

Lemma joinpath_ne_self p c : joinpath p c ≠ p.
Proof.
  intros H. apply (f_equal length) in H.
  unfold joinpath in H. rewrite length_app in H. simpl in H. lia.
Qed.

Lemma joinpath2_ne p c e f : joinpath (joinpath p c) e ≠ joinpath p f.
Proof.
  intros H. apply joinpath_inj in H as [H _]. by apply joinpath_ne_self in H.
Qed.

Lemma elem_of_children {C} (t : gmap path (node C)) d p :
  p ∈ children t d ↔ p ≠ [] ∧ parent p = d ∧ is_Some (t !! p).
Proof.
  unfold children. rewrite list_elem_of_filter, list_elem_of_fmap. split.
  - intros [[Hne Hpar] ([k v] & -> & Hkv)]. simpl in *.
    apply elem_of_map_to_list in Hkv. eauto.
  - intros (Hne & Hpar & [v Hv]). split; [done|].
    exists (p, v). split; [done|]. by apply elem_of_map_to_list.
Qed.

Lemma NoDup_children {C} (t : gmap path (node C)) d : NoDup (children t d).
Proof. apply NoDup_filter, NoDup_fst_map_to_list. Qed.

Lemma child_joinpath {C} (t : gmap path (node C)) d p :
  p ∈ children t d → p = joinpath d (name p).
Proof.
  intros (Hne & <- & _)%elem_of_children. symmetry.
  by apply joinpath_parent_name.
Qed.

(** ** The planner of the script *)

Lemma for_each_print {A} (f : A → dmsg) (l : list A) st :
  for_each l (λ x, print (f x)) st =
    (Ok tt, DState (dworld st) (stdout st ++ map f l)).
Proof.
  revert st. induction l as [|x l IH]; intros st; simpl.
  - unfold ret. rewrite app_nil_r. by destruct st.
  - unfold bind. unfold print at 1. unfold modify. rewrite IH. simpl.
    by rewrite <- app_assoc.
Qed.

Section DesktopFacts.
Variable ord : list path → list path.
Variable home : path.

Lemma select_files_eq listing st :
  select_files listing st =
    (Ok (filter (λ item, eligible (fs (dworld st)) item = true) listing),
     st).
Proof.
  induction listing as [|item rest IH]; simpl; [done|].
  unfold bind, dlift, is_dir, eligible. simpl.
  destruct st as [w out]. simpl in *.
  destruct (fs w !! item) as [[c|]|] eqn:E; simpl.
  - destruct (startswith "." (name item)) eqn:Hs; simpl.
    + rewrite IH. rewrite filter_cons_False; [done|].
      rewrite E, Hs. simpl. discriminate.
    + rewrite IH. unfold ret. rewrite filter_cons_True; [done|].
      by rewrite E, Hs.
  - rewrite IH. rewrite filter_cons_False; [done|].
    rewrite E. simpl. discriminate.
  - destruct (startswith "." (name item)) eqn:Hs; simpl.
    + rewrite IH. rewrite filter_cons_False; [done|].
      rewrite E, Hs. simpl. discriminate.
    + rewrite IH. unfold ret. rewrite filter_cons_True; [done|].
      by rewrite E, Hs.
Qed.

Lemma plan_moves_eq desktop st :
  plan_moves ord desktop st = (pure_plan ord (fs (dworld st)) desktop, st).
Proof.
  unfold plan_moves, iter_desktop_files, pure_plan, iterdir.
  unfold bind, dlift, ret. destruct st as [w out]. simpl.
  destruct (fs w !! desktop) as [[c|]|]; try done.
  by rewrite select_files_eq.
Qed.

Lemma clean_desktop_dry desktop ts st :
  clean_desktop ord home desktop true ts st =
    ((dry_report ord (fs (dworld st)) desktop).1,
     DState (dworld st)
       (stdout st ++ (dry_report ord (fs (dworld st)) desktop).2)).
Proof.
  unfold clean_desktop, dry_report. unfold bind at 1.
  rewrite plan_moves_eq.
  destruct (pure_plan ord (fs (dworld st)) desktop) as [[|m moves]|e].
  - simpl. by destruct st.
  - remember (m :: moves) as l eqn:Hl. rewrite Hl at 1. rewrite Hl at 3.
    cbv beta iota. unfold bind.
    rewrite (for_each_print (λ m, DryRunWouldMove (name m.1) (name m.2))).
    unfold print, modify, ret. cbn [fst snd dworld stdout].
    subst l. by rewrite <- app_assoc.
  - simpl. rewrite app_nil_r. by destruct st.
Qed.

End DesktopFacts.

(** ** The dry run of the package *)

Lemma for_each_organize_dry hf directory listing st :
  for_each listing (organize_entry hf directory true) st =
    (Ok tt,
     KState (kworld st) (history st)
       (klog st ++
        map (λ p, (INFO, WouldMove (name p) (categorize categorizer p)))
          (filter (λ p, is_regular (fs (kworld st)) p = true) listing))).
Proof.
  revert st. induction listing as [|p rest IH]; intros st; simpl.
  - unfold ret. rewrite app_nil_r. by destruct st.
  - unfold bind at 1. unfold organize_entry at 1.
    unfold bind, lift, is_file, logger, modify, ret. simpl.
    unfold is_regular at 1.
    destruct (fs (kworld st) !! p) as [[c|]|] eqn:E; simpl.
    + rewrite IH. simpl. rewrite filter_cons_True by (unfold is_regular; by rewrite E).
      simpl. by rewrite <- app_assoc.
    + rewrite IH. simpl. rewrite filter_cons_False; [by destruct st|].
      unfold is_regular. by rewrite E.
    + rewrite IH. simpl. rewrite filter_cons_False; [by destruct st|].
      unfold is_regular. by rewrite E.
Qed.

Lemma organize_dry ord hf directory st :
  organize ord hf directory true st =
    ((kiro_dry_report ord (fs (kworld st)) directory).1,
     KState (kworld st) (history st)
       (klog st ++ (kiro_dry_report ord (fs (kworld st)) directory).2)).
Proof.
  unfold organize, kiro_dry_report, kiro_plan.
  unfold bind, logger, modify, lift, iterdir. simpl.
  destruct (fs (kworld st) !! directory) as [[c|]|]; simpl; try done.
  rewrite for_each_organize_dry. simpl. by rewrite <- app_assoc.
Qed.

Lemma repeat_clean_dry_eq ord home desktop ts n : ∀ st,
  repeat_clean_dry ord home desktop ts n st =
    DState (dworld st)
      (stdout st ++
       concat (replicate n (dry_report ord (fs (dworld st)) desktop).2)).
Proof.
  induction n as [|n IH]; intros st; simpl.
  - rewrite app_nil_r. by destruct st.
  - rewrite clean_desktop_dry. simpl. rewrite IH. simpl.
    by rewrite <- app_assoc.
Qed.

Lemma repeat_organize_dry_eq ord hf directory n : ∀ st,
  repeat_organize_dry ord hf directory n st =
    KState (kworld st) (history st)
      (klog st ++
       concat (replicate n
                 (kiro_dry_report ord (fs (kworld st)) directory).2)).
Proof.
  induction n as [|n IH]; intros st; simpl.
  - rewrite app_nil_r. by destruct st.
  - rewrite organize_dry. simpl. rewrite IH. simpl.
    by rewrite <- app_assoc.
Qed.

(** C6.  A dry run of either implementation leaves the world as it
    found it: the tree (no directory created, no file moved, no history
    or log file written) and the journal of mutating calls are unchanged,
    and so is the in-memory ledger of the package.  Its result and the
    lines it reports are a function of the tree alone, so [n] runs in a
    row report the same plan [n] times. *)
Theorem dry_run_changes_nothing
    (ord : list path → list path) (home hf desktop : path) (ts : string) :
  (∀ st : dstate,
     clean_desktop ord home desktop true ts st =
       ((dry_report ord (fs (dworld st)) desktop).1,
        DState (dworld st)
          (stdout st ++ (dry_report ord (fs (dworld st)) desktop).2)))
  ∧ (∀ st : kstate,
     organize ord hf desktop true st =
       ((kiro_dry_report ord (fs (kworld st)) desktop).1,
        KState (kworld st) (history st)
          (klog st ++ (kiro_dry_report ord (fs (kworld st)) desktop).2)))
  ∧ (∀ n (st : dstate),
     repeat_clean_dry ord home desktop ts n st =
       DState (dworld st)
         (stdout st ++
          concat (replicate n (dry_report ord (fs (dworld st)) desktop).2)))
  ∧ (∀ n (st : kstate),
     repeat_organize_dry ord hf desktop n st =
       KState (kworld st) (history st)
         (klog st ++
          concat (replicate n
                    (kiro_dry_report ord (fs (kworld st)) desktop).2))).
Proof.
  split; [intros st; apply clean_desktop_dry|].
  split; [intros st; apply organize_dry|].
  split; [intros n st; apply repeat_clean_dry_eq|].
  intros n st; apply repeat_organize_dry_eq.
Qed.

(** ** C5: what the planners leave out *)

Lemma pure_plan_entry ord t desktop plan src td :
  (∀ l, ord l ≡ₚ l) →
  pure_plan ord t desktop = Ok plan → (src, td) ∈ plan →
  src ∈ children t desktop
  ∧ t !! src ≠ Some Dir
  ∧ startswith "." (name src) = false
  ∧ td = joinpath desktop (classify_file src).
Proof.
  intros Hord. unfold pure_plan.
  destruct (t !! desktop) as [[c|]|]; try discriminate.
  intros [= <-] Hin. apply list_elem_of_fmap in Hin as (p & [= -> ->] & Hp).
  apply list_elem_of_filter in Hp as [Hel Hp]. rewrite Hord in Hp.
  unfold eligible in Hel. apply andb_true_iff in Hel as [Hd Hdot].
  repeat split; [done| |by apply negb_true_iff in Hdot].
  intros Hsrc. by rewrite Hsrc in Hd.
Qed.

Lemma kiro_plan_entry ord t directory p :
  (∀ l, ord l ≡ₚ l) →
  p ∈ kiro_plan ord t directory ↔
  p ∈ children t directory ∧ ∃ c, t !! p = Some (File c).
Proof.
  intros Hord. unfold kiro_plan. rewrite list_elem_of_filter, Hord.
  unfold is_regular. split.
  - intros [Hreg Hp]. split; [done|].
    destruct (t !! p) as [[c|]|]; try discriminate. by exists c.
  - intros [Hp [c Hc]]. by rewrite Hc.
Qed.

(** ** The undo of the script *)

Lemma mkdir_parents_rev_existing {C} rp (w : world C) :
  fs w !! rev rp = Some Dir → mkdir_parents_rev rp w = (Ok tt, w).
Proof. intros H. destruct rp; simpl in *; by rewrite H. Qed.

Lemma mkdir_parents_existing {C} p (w : world C) :
  fs w !! p = Some Dir → mkdir_parents p w = (Ok tt, w).
Proof.
  intros H. apply mkdir_parents_rev_existing. by rewrite rev_involutive.
Qed.

Lemma get_log_dir_existing home st :
  fs (dworld st) !! log_dir_of home = Some Dir →
  get_log_dir home st = (Ok (log_dir_of home), st).
Proof.
  intros H. unfold get_log_dir, bind, dlift, ret.
  fold (log_dir_of home). rewrite (mkdir_parents_existing _ _ H).
  by destruct st.
Qed.

Lemma dlift_stdout {A} (m : M (world string) A) st :
  stdout (dlift m st).2 = stdout st.
Proof. unfold dlift. by destruct (m (dworld st)). Qed.

Lemma undo_moves_stale moves : ∀ undone skipped st,
  Forall (λ m, fs (dworld st) !! m.2 = None) moves →
  undo_moves moves undone skipped st =
    (Ok (undone, skipped + length moves),
     DState (dworld st) (stdout st ++ map (λ m, SkipLine m.2) moves)).
Proof.
  induction moves as [|[src dest] rest IH]; intros u s st Hst; simpl.
  - unfold ret. rewrite app_nil_r, Nat.add_0_r. by destruct st.
  - apply Forall_cons in Hst as [Hd Hrest]. simpl in Hd.
    unfold bind at 1. unfold dlift at 1. unfold path_exists. rewrite Hd.
    unfold bind at 1. unfold print at 1. unfold modify.
    rewrite IH by done. simpl.
    rewrite <- app_assoc. do 3 f_equal. lia.
Qed.

Lemma undo_moves_in_order moves : ∀ undone skipped st r st',
  undo_moves moves undone skipped st = (r, st') →
  ∃ k lines,
    stdout st' = stdout st ++ lines
    ∧ Forall2 undo_line (take k moves) lines
    ∧ (∀ c, r = Ok c → k = length moves).
Proof.
  induction moves as [|[src dest] rest IH]; intros u s st r st' Hrun.
  - simpl in Hrun. unfold ret in Hrun. injection Hrun as <- <-.
    exists 0, []. rewrite app_nil_r.
    split; [reflexivity|]. split; [constructor|reflexivity].
  - simpl in Hrun. unfold bind at 1 in Hrun. unfold dlift at 1 in Hrun.
    unfold path_exists in Hrun.
    destruct (fs (dworld st) !! dest) as [n|] eqn:Hd.
    + unfold bind at 1 in Hrun.
      pose proof (dlift_stdout (mkdir_parents (parent src))
                    (DState (dworld st) (stdout st))) as Hs.
      destruct (dlift (mkdir_parents (parent src)) _) as [[[]|e] st1].
      2:{ injection Hrun as <- <-. simpl in Hs.
          exists 0, []. rewrite app_nil_r.
          split; [done|]. split; [constructor|done]. }
      unfold bind at 1 in Hrun.
      pose proof (dlift_stdout (shutil_move dest src) st1) as Hs2.
      destruct (dlift (shutil_move dest src) st1) as [[p|e] st2].
      2:{ injection Hrun as <- <-. simpl in Hs, Hs2.
          exists 0, []. rewrite app_nil_r.
          split; [congruence|]. split; [constructor|done]. }
      unfold bind at 1 in Hrun. unfold print at 1 in Hrun.
      unfold modify in Hrun. simpl in Hs, Hs2.
      destruct (IH _ _ _ _ _ Hrun) as (k & lines & Hout & Hlines & Hok).
      exists (S k), (UndoLine (name dest) (parent src) :: lines).
      split; [|split].
      * rewrite Hout. simpl. rewrite Hs2, Hs. by rewrite <- app_assoc.
      * simpl. constructor; [by left|done].
      * intros c Hc. simpl. f_equal. by apply (Hok c).
    + unfold bind at 1 in Hrun. unfold print at 1 in Hrun.
      unfold modify in Hrun.
      destruct (IH _ _ _ _ _ Hrun) as (k & lines & Hout & Hlines & Hok).
      exists (S k), (SkipLine dest :: lines).
      split; [|split].
      * rewrite Hout. simpl. by rewrite <- app_assoc.
      * simpl. constructor; [by right|done].
      * intros c Hc. simpl. f_equal. by apply (Hok c).
Qed.

Section UndoLastRun.
Variable ord : list path → list path.
Variable home : path.

Lemma undo_last_run_unfold st lg text m moves :
  fs (dworld st) !! log_dir_of home = Some Dir →
  last_log ord home (fs (dworld st)) = Some lg →
  fs (dworld st) !! lg = Some (File text) →
  records_of text = Ok (m :: moves) →
  undo_last_run ord home st =
    match undo_moves (m :: moves) 0 0
            (DState (dworld st) (stdout st ++ [UndoingMovesFrom lg])) with
    | (Ok counts, st') =>
        (Ok tt,
         DState (dworld st')
           (stdout st' ++ [UndoComplete counts.1 counts.2]))
    | (Raise e, st') => (Raise e, st')
    end.
Proof.
  intros Hdir Hlast Hlg Hrec. unfold undo_last_run.
  unfold bind at 1. rewrite (get_log_dir_existing _ _ Hdir).
  unfold bind at 1. unfold glob_clean_logs.
  unfold last_log in Hlast. rewrite Hlast.
  unfold bind at 1. unfold parse_log.
  unfold bind at 1. unfold dlift at 1. unfold read_file. rewrite Hlg.
  unfold lift_result. unfold records_of in Hrec. rewrite Hrec.
  unfold bind at 1. unfold print at 1. unfold modify.
  unfold bind at 1. cbn [dworld stdout].
  destruct (undo_moves (m :: moves) 0 0 _) as [[c|e] st']; [|done].
  unfold print, modify. by destruct st.
Qed.

(** A log whose records are all stale. *)
Lemma undo_last_run_stale st lg text m moves :
  fs (dworld st) !! log_dir_of home = Some Dir →
  last_log ord home (fs (dworld st)) = Some lg →
  fs (dworld st) !! lg = Some (File text) →
  records_of text = Ok (m :: moves) →
  Forall (λ r, fs (dworld st) !! r.2 = None) (m :: moves) →
  undo_last_run ord home st =
    (Ok tt,
     DState (dworld st)
       (stdout st ++ [UndoingMovesFrom lg]
        ++ map (λ r, SkipLine r.2) (m :: moves)
        ++ [UndoComplete 0 (length (m :: moves))])).
Proof.
  intros Hdir Hlast Hlg Hrec Hstale.
  rewrite (undo_last_run_unfold _ _ _ _ _ Hdir Hlast Hlg Hrec).
  rewrite undo_moves_stale by done. simpl.
  by rewrite <- !app_assoc.
Qed.

End UndoLastRun.

(** ** C7: a stale record *)

Lemma saved_fs_other hf st p :
  p ≠ hf → fs (kworld (saved hf st)) !! p = fs (kworld st) !! p.
Proof.
  intros Hp. unfold saved, write_file, commit, modify.
  destruct (fs (kworld st) !! hf) as [[c|]|]; simpl; try done.
  - by rewrite lookup_insert_ne.
  - destruct (fs (kworld st) !! parent hf) as [[c|]|]; simpl; try done.
    by rewrite lookup_insert_ne.
Qed.

Lemma saved_klog_prefix hf st : ∃ l, klog (saved hf st) = klog st ++ l.
Proof.
  unfold saved. destruct (write_file _ _ _) as [[[]|e] w]; simpl.
  - exists []. by rewrite app_nil_r.
  - by eexists.
Qed.

(** C7 (as amended).  [undo_last] of the package on a ledger whose most
    recent record has lost its destination returns [False] without
    raising, drops that record from the ledger, logs the failure and
    rewrites the history file with the shortened ledger when that file can
    be written; no other path of the tree changes.  [undo_last_run] of the
    script, on a log whose records have all lost their destinations,
    returns without raising and prints one skip line per record, but
    leaves the world, and so the log file and its records, exactly as
    they were. *)
Theorem stale_undo (hf : path) (ord : list path → list path) (home : path) :
  (∀ st h s d,
     history st = h ++ [(s, d)] → fs (kworld st) !! d = None →
     ∃ st', undo_last hf st = (Ok false, st')
       ∧ history st' = h
       ∧ (ERROR, CannotUndo d) ∈ klog st'
       ∧ (writable (fs (kworld st)) hf →
          fs (kworld st') !! hf = Some (File (Json (encode_history h))))
       ∧ (∀ p, p ≠ hf → fs (kworld st') !! p = fs (kworld st) !! p))
  ∧ (∀ st lg text m moves,
     fs (dworld st) !! log_dir_of home = Some Dir →
     last_log ord home (fs (dworld st)) = Some lg →
     fs (dworld st) !! lg = Some (File text) →
     records_of text = Ok (m :: moves) →
     Forall (λ r, fs (dworld st) !! r.2 = None) (m :: moves) →
     undo_last_run ord home st =
       (Ok tt,
        DState (dworld st)
          (stdout st ++ [UndoingMovesFrom lg]
           ++ map (λ r, SkipLine r.2) (m :: moves)
           ++ [UndoComplete 0 (length (m :: moves))]))).
Proof.
  split.
  - intros st h s d Hh Hd.
    rewrite (undo_last_snoc hf st h (s, d) Hh).
    rewrite attempt_stale by done. simpl.
    eexists. split; [reflexivity|]. split; [by rewrite saved_history|].
    split; [|split].
    + destruct (saved_klog_prefix hf
                  (KState (kworld st) h (klog st ++ [(ERROR, CannotUndo d)])))
        as [l ->]. simpl. rewrite !elem_of_app, list_elem_of_singleton.
      by left; right.
    + intros Hw. rewrite saved_writable by done. simpl.
      by rewrite lookup_insert_eq.
    + intros p Hp. by rewrite saved_fs_other.
  - intros st lg text m moves. apply undo_last_run_stale.
Qed.

Lemma stale_undo_witness :
  let r := (example_dir ++ ["a.txt"], example_dir ++ ["Documents"; "a.txt"]) in
  let st := kstate_of [] [r] in
  history st = [] ++ [r]
  ∧ fs (kworld st) !! r.2 = None
  ∧ ∃ st', undo_last example_history_file st = (Ok false, st')
      ∧ history st' = []
      ∧ fs (kworld st') !! example_history_file
        = Some (File (Json (JArr []))).
Proof.
  intros r st.
  assert (Hh : history st = [] ++ [r]) by reflexivity.
  assert (Hd : fs (kworld st) !! r.2 = None) by (by vm_compute).
  split; [exact Hh|]. split; [exact Hd|].
  destruct (stale_undo example_history_file id example_home) as [Hk _].
  destruct (Hk st [] r.1 r.2 Hh Hd) as (st' & Hrun & Hhist & _ & Hfile & _).
  exists st'. split; [exact Hrun|]. split; [exact Hhist|].
  apply Hfile. split; by vm_compute.
Defined.

(** C7, as stated, fails for the script.  The latest log holds one record
    whose destination has been deleted.  [undo_last_run] reports it as
    skipped and returns, but the log file is neither rewritten nor
    removed: the record is still there, and a second run finds it
    again. *)
Lemma undo_last_run_keeps_stale_record :
  let lg := log_dir_of example_home ++ ["clean_20250101-120000.log"] in
  let text :=
    log_text example_dir [(example_dir ++ ["a.txt"],
                           example_dir ++ ["Documents"])] in
  let st := dstate_of [ (example_home ++ [".desktop-cleaner"], Dir);
                        (log_dir_of example_home, Dir);
                        (lg, File text) ] in
  let st' := (undo_last_run id example_home st).2 in
  records_of text
    = Ok [(example_dir ++ ["a.txt"], example_dir ++ ["Documents"; "a.txt"])]
  ∧ fs (dworld st) !! (example_dir ++ ["Documents"; "a.txt"]) = None
  ∧ (undo_last_run id example_home st).1 = Ok tt
  ∧ stdout st'
    = [ UndoingMovesFrom lg;
        SkipLine (example_dir ++ ["Documents"; "a.txt"]);
        UndoComplete 0 1 ]
  ∧ dworld st' = dworld st
  ∧ fs (dworld st') !! lg = Some (File text)
  ∧ stdout (undo_last_run id example_home st').2
    = stdout st' ++ [ UndoingMovesFrom lg;
                      SkipLine (example_dir ++ ["Documents"; "a.txt"]);
                      UndoComplete 0 1 ].
Proof. repeat split; by vm_compute. Qed.

(** ** C3: the order of undo *)

Lemma undo_all_snoc hf st h r :
  history st = h ++ [r] →
  undo_all hf st =
    Some (match attempt hf r (KState (kworld st) h (klog st)) with
          | (Ok _, st') => attempt_in_order hf (rev h) st'
          | (Raise e, st') => (Raise e, st')
          end).
Proof.
  intros Hh. rewrite undo_all_in_order, Hh, rev_app_distr. simpl.
  by rewrite rev_involutive.
Qed.

Lemma undo_last_run_in_order ord home st lg text m moves r st' :
  fs (dworld st) !! log_dir_of home = Some Dir →
  last_log ord home (fs (dworld st)) = Some lg →
  fs (dworld st) !! lg = Some (File text) →
  records_of text = Ok (m :: moves) →
  undo_last_run ord home st = (r, st') →
  ∃ k lines rest,
    stdout st' = stdout st ++ [UndoingMovesFrom lg] ++ lines ++ rest
    ∧ Forall2 undo_line (take k (m :: moves)) lines
    ∧ (r = Ok tt → k = length (m :: moves) ∧ length rest = 1).
Proof.
  intros Hdir Hlast Hlg Hrec Hrun.
  rewrite (undo_last_run_unfold _ _ _ _ _ _ _ Hdir Hlast Hlg Hrec) in Hrun.
  destruct (undo_moves (m :: moves) 0 0 _) as [r1 st1] eqn:Hmoves.
  destruct (undo_moves_in_order _ _ _ _ _ _ Hmoves)
    as (k & lines & Hout & Hlines & Hok).
  simpl in Hout. destruct r1 as [c|e].
  - injection Hrun as <- <-. simpl.
    exists k, lines, [UndoComplete c.1 c.2].
    split; [by rewrite Hout, <- !app_assoc|]. split; [done|].
    intros _. split; [by apply (Hok c)|done].
  - injection Hrun as <- <-.
    exists k, lines, []. rewrite app_nil_r.
    split; [by rewrite Hout, <- !app_assoc|]. split; [done|]. done.
Qed.

(** C3 (as amended).  [undo_all] of the package attempts the record
    appended last first and then the remaining records from the most
    recent to the oldest, stopping only if a rename raises.  [undo_last_run]
    of the script attempts the records of the latest log in the order in
    which they were written, the oldest first: the lines it prints after
    the heading are, one for one, the undo or skip lines of an initial
    segment of the records, of all of them when it returns. *)
Theorem undo_order (hf : path) (ord : list path → list path) (home : path) :
  (∀ st h r,
     history st = h ++ [r] →
     undo_all hf st =
       Some (match attempt hf r (KState (kworld st) h (klog st)) with
             | (Ok _, st') => attempt_in_order hf (rev h) st'
             | (Raise e, st') => (Raise e, st')
             end))
  ∧ (∀ st lg text m moves r st',
     fs (dworld st) !! log_dir_of home = Some Dir →
     last_log ord home (fs (dworld st)) = Some lg →
     fs (dworld st) !! lg = Some (File text) →
     records_of text = Ok (m :: moves) →
     undo_last_run ord home st = (r, st') →
     ∃ k lines rest,
       stdout st' = stdout st ++ [UndoingMovesFrom lg] ++ lines ++ rest
       ∧ Forall2 undo_line (take k (m :: moves)) lines
       ∧ (r = Ok tt → k = length (m :: moves) ∧ length rest = 1)).
Proof.
  split.
  - intros st h r. apply undo_all_snoc.
  - intros st lg text m moves r st'. apply undo_last_run_in_order.
Qed.

Lemma undo_order_witness :
  let r1 := (example_dir ++ ["a.txt"], example_dir ++ ["Documents"; "a.txt"]) in
  let r2 := (example_dir ++ ["b.png"], example_dir ++ ["Images"; "b.png"]) in
  let st := kstate_of [ (example_dir ++ ["Documents"], Dir);
                        (example_dir ++ ["Documents"; "a.txt"],
                         File (Blob "A")) ] [r1; r2] in
  history st = [r1] ++ [r2]
  ∧ undo_all example_history_file st =
      Some (match attempt example_history_file r2
                    (KState (kworld st) [r1] (klog st)) with
            | (Ok _, st') => attempt_in_order example_history_file (rev [r1]) st'
            | (Raise e, st') => (Raise e, st')
            end)
  ∧ option_map (λ x, klog x.2)
      (undo_all example_history_file st)
    = Some [ (ERROR, CannotUndo r2.2); (INFO, Undone r1.2 r1.1) ].
Proof.
  intros r1 r2 st.
  assert (Hh : history st = [r1] ++ [r2]) by reflexivity.
  split; [exact Hh|]. split.
  - exact (proj1 (undo_order example_history_file id example_home) st [r1] r2 Hh).
  - by vm_compute.
Defined.

(** C3, as stated, fails for the script.  Two files are moved by one run
    (the listing gives [b.txt] before [a.txt]), so the record of [a.txt]
    is the one written last.  The undo of that run moves [b.txt] back
    first and [a.txt] last. *)
Lemma undo_last_run_oldest_first :
  let st0 := dstate_of [ (example_dir ++ ["a.txt"], File "A");
                         (example_dir ++ ["b.txt"], File "B") ] in
  let st1 := (clean_desktop id example_home example_dir false
                "20250101-120000" st0).2 in
  let lg := log_dir_of example_home ++ ["clean_20250101-120000.log"] in
  let ra := (example_dir ++ ["a.txt"], example_dir ++ ["Documents"; "a.txt"]) in
  let rb := (example_dir ++ ["b.txt"], example_dir ++ ["Documents"; "b.txt"]) in
  let run := undo_last_run id example_home (DState (dworld st1) []) in
  (∃ text, fs (dworld st1) !! lg = Some (File text)
           ∧ records_of text = Ok [rb; ra])
  ∧ run.1 = Ok tt
  ∧ stdout run.2
    = [ UndoingMovesFrom lg;
        UndoLine "b.txt" example_dir;
        UndoLine "a.txt" example_dir;
        UndoComplete 2 0 ]
  ∧ drop (length (ops (dworld st1))) (ops (dworld run.2))
    = [ Rename rb.2 rb.1; Rename ra.2 ra.1 ].
Proof.
  split; [|repeat split; by vm_compute].
  eexists. split; by vm_compute.
Qed.

(** ** Moving one entry *)

(** [_move_file], step by step: the folder, the record and its save, the
    rename, the log line. *)
Lemma move_file_unfold hf file_path target_dir st :
  _move_file hf file_path target_dir st =
    match mkdir_exist_ok target_dir (kworld st) with
    | (Ok _, w1) =>
        let destination := joinpath target_dir (name file_path) in
        let st1 :=
          saved hf (KState w1 (history st ++ [(file_path, destination)])
                      (klog st)) in
        match os_rename file_path destination (kworld st1) with
        | (Ok _, w2) =>
            (Ok tt,
             KState w2 (history st1)
               (klog st1 ++ [(INFO, Moved (name file_path) (name target_dir))]))
        | (Raise e, w2) => (Raise e, KState w2 (history st1) (klog st1))
        end
    | (Raise e, w1) => (Raise e, KState w1 (history st) (klog st))
    end.
Proof.
  unfold _move_file. unfold bind at 1. unfold lift at 1.
  destruct (mkdir_exist_ok target_dir (kworld st)) as [[[]|e] w1]; [|done].
  unfold bind at 1. unfold record_move. unfold bind at 1.
  unfold get_history at 1. unfold bind at 1. unfold set_history, modify.
  cbn [kworld history klog]. rewrite save_history_eq.
  unfold bind at 1. unfold lift at 1.
  destruct (os_rename _ _ _) as [[[]|e] w2]; [|done].
  reflexivity.
Qed.

Lemma mkdir_exist_ok_existing {C} p (w : world C) :
  fs w !! p = Some Dir → mkdir_exist_ok p w = (Ok tt, w).
Proof. intros H. unfold mkdir_exist_ok. by rewrite H. Qed.

(** Renaming a regular file onto a regular file. *)
Lemma os_rename_over {C} src dst (w : world C) c c' :
  src ≠ dst →
  fs w !! src = Some (File c) → fs w !! dst = Some (File c') →
  os_rename src dst w =
    (Ok tt, World (<[dst := File c]> (delete src (fs w)))
              (ops w ++ [Rename src dst])).
Proof.
  intros Hne Hs Hd. unfold os_rename. rewrite Hs, Hd.
  by destruct (decide (src = dst)).
Qed.

Lemma shutil_move_over {C} src dst (w : world C) c c' :
  src ≠ dst →
  fs w !! src = Some (File c) → fs w !! dst = Some (File c') →
  shutil_move src dst w =
    (Ok dst, World (<[dst := File c]> (delete src (fs w)))
               (ops w ++ [Rename src dst])).
Proof.
  intros Hne Hs Hd. unfold shutil_move.
  unfold bind at 1. unfold is_dir at 1. rewrite Hd. simpl.
  unfold bind at 1. unfold ret at 1.
  unfold bind at 1. unfold try_except.
  by rewrite (os_rename_over _ _ _ _ _ Hne Hs Hd).
Qed.

Lemma child_ne_grandchild (p : path) a b : p ≠ joinpath (joinpath (parent p) a) b.
Proof.
  unfold joinpath, parent. intros E. apply (f_equal length) in E.
  rewrite !length_app in E. simpl in E.
  destruct p as [|x p] using rev_ind; simpl in *; [lia|].
  rewrite removelast_last, length_app in E. simpl in E. lia.
Qed.

(** ** C8: an occupied destination *)

Lemma move_entry_over src target_dir c c' st :
  src ≠ joinpath target_dir (name src) →
  fs (dworld st) !! src = Some (File c) →
  fs (dworld st) !! target_dir = Some Dir →
  fs (dworld st) !! joinpath target_dir (name src) = Some (File c') →
  move_entry (src, target_dir) st = (Ok tt, moved_over src target_dir c st).
Proof.
  intros Hne Hs Ht Hd. unfold move_entry.
  unfold bind at 1. unfold dlift at 1.
  rewrite (mkdir_exist_ok_existing _ _ Ht).
  unfold bind at 1. unfold dlift at 1. cbn [dworld stdout].
  rewrite (shutil_move_over _ _ _ _ _ Hne Hs Hd).
  reflexivity.
Qed.

Lemma move_file_over hf src target_dir c c' st :
  src ≠ joinpath target_dir (name src) →
  src ≠ hf → joinpath target_dir (name src) ≠ hf →
  fs (kworld st) !! src = Some (File c) →
  fs (kworld st) !! target_dir = Some Dir →
  fs (kworld st) !! joinpath target_dir (name src) = Some (File c') →
  _move_file hf src target_dir st = (Ok tt, renamed_over hf src target_dir c st).
Proof.
  intros Hne Hsh Hdh Hs Ht Hd. rewrite move_file_unfold.
  rewrite (mkdir_exist_ok_existing _ _ Ht). cbv zeta.
  set (st1 := saved hf _).
  assert (Hs1 : fs (kworld st1) !! src = Some (File c))
    by (unfold st1; by rewrite saved_fs_other).
  assert (Hd1 : fs (kworld st1) !! joinpath target_dir (name src)
                = Some (File c'))
    by (unfold st1; by rewrite saved_fs_other).
  rewrite (os_rename_over _ _ _ _ _ Hne Hs1 Hd1).
  unfold renamed_over. fold st1. unfold st1 at 3. by rewrite saved_history.
Qed.

(** C8 (as amended).  Neither implementation has a collision error.  An
    entry whose destination is already a regular file is moved over it:
    the move returns normally, the file that was at the destination is
    replaced by the moved one, the only line written is the ordinary one
    for a move, and the loop goes on with the remaining entries.  The
    package records the move in its ledger like any other. *)
Theorem occupied_destination_is_overwritten (hf directory : path) :
  (∀ src target_dir c c' rest (st : dstate),
     src ≠ joinpath target_dir (name src) →
     fs (dworld st) !! src = Some (File c) →
     fs (dworld st) !! target_dir = Some Dir →
     fs (dworld st) !! joinpath target_dir (name src) = Some (File c') →
     let st' := moved_over src target_dir c st in
     move_entry (src, target_dir) st = (Ok tt, st')
     ∧ fs (dworld st') !! joinpath target_dir (name src) = Some (File c)
     ∧ fs (dworld st') !! src = None
     ∧ for_each ((src, target_dir) :: rest) move_entry st
       = for_each rest move_entry st')
  ∧ (∀ src c c' rest (st : kstate),
     let target_dir := joinpath directory (categorize categorizer src) in
     src ≠ joinpath target_dir (name src) →
     src ≠ hf → joinpath target_dir (name src) ≠ hf →
     fs (kworld st) !! src = Some (File c) →
     fs (kworld st) !! target_dir = Some Dir →
     fs (kworld st) !! joinpath target_dir (name src) = Some (File c') →
     let st' := renamed_over hf src target_dir c st in
     _move_file hf src target_dir st = (Ok tt, st')
     ∧ fs (kworld st') !! joinpath target_dir (name src) = Some (File c)
     ∧ fs (kworld st') !! src = None
     ∧ history st' = history st ++ [(src, joinpath target_dir (name src))]
     ∧ for_each (src :: rest) (organize_entry hf directory false) st
       = for_each rest (organize_entry hf directory false) st').
Proof.
  split.
  - intros src td c c' rest st Hne Hs Ht Hd st'.
    pose proof (move_entry_over _ _ _ _ _ Hne Hs Ht Hd) as Hm.
    split; [exact Hm|]. split; [|split].
    + unfold st', moved_over. simpl. by rewrite lookup_insert_eq.
    + unfold st', moved_over. simpl.
      rewrite lookup_insert_ne by done. by rewrite lookup_delete_eq.
    + cbn [for_each]. unfold bind at 1. by rewrite Hm.
  - intros src c c' rest st td Hne Hsh Hdh Hs Ht Hd st'.
    pose proof (move_file_over _ _ _ _ _ _ Hne Hsh Hdh Hs Ht Hd) as Hm.
    split; [exact Hm|]. split; [|split; [|split]].
    + unfold st', renamed_over. simpl. by rewrite lookup_insert_eq.
    + unfold st', renamed_over. simpl.
      rewrite lookup_insert_ne by done. by rewrite lookup_delete_eq.
    + reflexivity.
    + cbn [for_each]. unfold bind at 1. unfold organize_entry at 1.
      unfold bind at 1. unfold lift at 1. unfold is_file. rewrite Hs.
      fold td. destruct st as [w h l]. simpl in *. by rewrite Hm.
Qed.

Lemma occupied_destination_is_overwritten_witness :
  let src := example_dir ++ ["a.txt"] in
  let target_dir := example_dir ++ ["Documents"] in
  let st := dstate_of [ (src, File "new"); (target_dir, Dir);
                        (target_dir ++ ["a.txt"], File "old") ] in
  move_entry (src, target_dir) st = (Ok tt, moved_over src target_dir "new" st)
  ∧ fs (dworld (moved_over src target_dir "new" st))
      !! joinpath target_dir (name src) = Some (File "new").
Proof.
  intros src target_dir st.
  destruct (occupied_destination_is_overwritten
              example_history_file example_dir) as [Hd _].
  destruct (Hd src target_dir "new" "old" [] st) as (H1 & H2 & _).
  - by vm_compute.
  - by vm_compute.
  - by vm_compute.
  - by vm_compute.
  - split; [exact H1|exact H2].
Defined.

(** C8, as stated, fails for both implementations.  [a.txt] is on the
    desktop and an older [Documents/a.txt] exists.  The script and the
    package both finish normally, report an ordinary move, and the older
    file's content is gone; nothing is skipped and no error is logged. *)
Lemma collision_overwrites_silently :
  let src := example_dir ++ ["a.txt"] in
  let dest := example_dir ++ ["Documents"; "a.txt"] in
  let dst := dstate_of [ (src, File "new");
                         (example_dir ++ ["Documents"], Dir);
                         (dest, File "old") ] in
  let kst := kstate_of [ (src, File (Blob "new"));
                         (example_dir ++ ["Documents"], Dir);
                         (dest, File (Blob "old")) ] [] in
  let drun := clean_desktop id example_home example_dir false
                "20250101-120000" dst in
  let krun := organize id example_history_file example_dir false kst in
  fs (dworld dst) !! dest = Some (File "old")
  ∧ drun.1 = Ok 1
  ∧ fs (dworld drun.2) !! dest = Some (File "new")
  ∧ fs (dworld drun.2) !! src = None
  ∧ stdout drun.2
    = [ MovedInto "a.txt" "Documents";
        LogWrittenTo (log_dir_of example_home
                        ++ ["clean_20250101-120000.log"]);
        CleanDone 1 ]
  ∧ fs (kworld kst) !! dest = Some (File (Blob "old"))
  ∧ krun.1 = Ok tt
  ∧ fs (kworld krun.2) !! dest = Some (File (Blob "new"))
  ∧ fs (kworld krun.2) !! src = None
  ∧ history krun.2 = [(src, dest)]
  ∧ klog krun.2
    = [ (INFO, OrganizingDirectory example_dir);
        (INFO, Moved "a.txt" "Documents") ].
Proof. repeat split; by vm_compute. Qed.

(** ** C2: the record and the move *)



(** What [os.rename] of a regular file can do to the world. *)
Lemma os_rename_file {C} src dst (w : world C) c r w' :
  fs w !! src = Some (File c) →
  os_rename src dst w = (r, w') →
  w' = w
  ∨ (r = Ok tt
     ∧ w' = World (<[dst := File c]> (delete src (fs w)))
              (ops w ++ [Rename src dst])
     ∧ fs w !! dst ≠ Some Dir).
Proof.
  intros Hs. unfold os_rename, commit, modify. rewrite Hs.
  destruct (decide (src = dst)); [intros [= <- <-]; by left|].
  destruct (fs w !! dst) as [[c'|]|] eqn:Hd.
  - intros [= <- <-]. by right.
  - intros [= <- <-]. by left.
  - destruct (fs w !! parent dst) as [[c'|]|].
    + intros [= <- <-]. by left.
    + intros [= <- <-]. by right.
    + intros [= <- <-]. by left.
Qed.

(** What [mkdir(exist_ok=True)] can do to the world. *)
Lemma mkdir_exist_ok_cases {C} p (w : world C) r w' :
  mkdir_exist_ok p w = (r, w') →
  w' = w
  ∨ (r = Ok tt ∧ fs w !! p = None
     ∧ w' = World (<[p := Dir]> (fs w)) (ops w ++ [Mkdir p])).
Proof.
  unfold mkdir_exist_ok, commit, modify.
  destruct (fs w !! p) as [[c|]|] eqn:Hp.
  - intros [= <- <-]. by left.
  - intros [= <- <-]. by left.
  - destruct (fs w !! parent p) as [[c|]|].
    + intros [= <- <-]. by left.
    + intros [= <- <-]. by right.
    + intros [= <- <-]. by left.
Qed.




(** *** The file system along the journal *)







(** *** The script: the log is written last *)

Lemma no_write_nil {C} : @no_write C [].
Proof. constructor. Qed.
























Lemma write_file_cases {C} p (c : C) (w : world C) r w' :
  write_file p c w = (r, w') →
  (w' = w ∧ ∃ e, r = Raise e)
  ∨ (r = Ok tt
     ∧ w' = World (<[p := File c]> (fs w)) (ops w ++ [Write p c])).
Proof.
  unfold write_file, commit, modify.
  destruct (fs w !! p) as [[c'|]|].
  - intros [= <- <-]. by right.
  - intros [= <- <-]. left. split; [done|by eexists].
  - destruct (fs w !! parent p) as [[c'|]|].
    + intros [= <- <-]. left. split; [done|by eexists].
    + intros [= <- <-]. by right.
    + intros [= <- <-]. left. split; [done|by eexists].
Qed.







(** ** C1: organize, then undo *)

Lemma outside_ne directory hf x :
  is_prefix_of directory hf = false → directory ++ x ≠ hf.
Proof.
  unfold is_prefix_of. intros H <-.
  apply bool_decide_eq_false in H. apply H. by exists x.
Qed.

Lemma child_eq directory p :
  p ≠ [] → parent p = directory → p = directory ++ [name p].
Proof. intros Hne <-. symmetry. by apply joinpath_parent_name. Qed.

Lemma child_outside directory hf p :
  is_prefix_of directory hf = false → p ≠ [] → parent p = directory → p ≠ hf.
Proof.
  intros Hout Hne Hp. rewrite (child_eq _ _ Hne Hp). by apply outside_ne.
Qed.

Lemma target_outside directory hf p :
  is_prefix_of directory hf = false → target_of directory p ≠ hf.
Proof. intros Hout. by apply outside_ne. Qed.

Lemma dest_outside directory hf p :
  is_prefix_of directory hf = false → dest_of directory p ≠ hf.
Proof.
  intros Hout. unfold dest_of, target_of, joinpath. rewrite <- app_assoc.
  by apply outside_ne.
Qed.

Lemma child_ne_dest directory p q :
  p ≠ [] → parent p = directory → p ≠ dest_of directory q.
Proof.
  intros Hne Hp. rewrite (child_eq _ _ Hne Hp) at 1.
  unfold dest_of, target_of, joinpath. intros E.
  apply (f_equal length) in E. rewrite !length_app in E. simpl in E. lia.
Qed.

Lemma target_ne_dest directory p q :
  target_of directory p ≠ dest_of directory q.
Proof.
  unfold dest_of, target_of, joinpath. intros E.
  apply (f_equal length) in E. rewrite !length_app in E. simpl in E. lia.
Qed.

Lemma dest_of_inj directory p q :
  p ≠ [] → parent p = directory → q ≠ [] → parent q = directory →
  dest_of directory p = dest_of directory q → p = q.
Proof.
  intros Hp1 Hp2 Hq1 Hq2 E. unfold dest_of in E.
  apply joinpath_inj in E as [_ En].
  rewrite (child_eq _ _ Hp1 Hp2), (child_eq _ _ Hq1 Hq2). by rewrite En.
Qed.

Lemma saved_fs_dir hf st q :
  fs (kworld st) !! q = Some Dir → fs (kworld (saved hf st)) !! q = Some Dir.
Proof.
  intros Hq. destruct (decide (q = hf)) as [->|Hne];
    [|by rewrite saved_fs_other].
  unfold saved, write_file. by rewrite Hq.
Qed.

(** Renaming a regular file to a free name in an existing directory. *)
Lemma os_rename_free {C} src dst (w : world C) c :
  src ≠ dst →
  fs w !! src = Some (File c) → fs w !! dst = None →
  fs w !! parent dst = Some Dir →
  os_rename src dst w =
    (Ok tt, World (<[dst := File c]> (delete src (fs w)))
              (ops w ++ [Rename src dst])).
Proof.
  intros Hne Hs Hd Hp. unfold os_rename. rewrite Hs, Hd, Hp.
  by destruct (decide (src = dst)).
Qed.

Lemma is_regular_true {C} (t : gmap path (node C)) p :
  is_regular t p = true ↔ ∃ c, t !! p = Some (File c).
Proof.
  unfold is_regular. destruct (t !! p) as [[c|]|]; split;
    try done; try (intros [c' [=]]). by exists c.
Qed.

Lemma organize_entry_skip hf directory p st :
  is_regular (fs (kworld st)) p = false →
  organize_entry hf directory false p st = (Ok tt, st).
Proof.
  intros Hr. unfold organize_entry, bind, lift, is_file, ret.
  unfold is_regular in Hr. destruct st as [w h l]. simpl in *.
  by destruct (fs w !! p) as [[c|]|].
Qed.

(** One regular entry without a collision is moved to its destination
    and recorded; nothing else changes but the history file and,
    possibly, the new folder. *)
Lemma organize_entry_moves hf directory p c st :
  fs (kworld st) !! directory = Some Dir →
  is_prefix_of directory hf = false →
  entry_ok directory (fs (kworld st)) p →
  fs (kworld st) !! p = Some (File c) →
  ∃ st',
    organize_entry hf directory false p st = (Ok tt, st')
    ∧ history st' = history st ++ [record_of directory p]
    ∧ fs (kworld st') !! p = None
    ∧ fs (kworld st') !! dest_of directory p = Some (File c)
    ∧ fs (kworld st') !! target_of directory p = Some Dir
    ∧ (∀ q, q ≠ hf → q ≠ p → q ≠ dest_of directory p →
            q ≠ target_of directory p →
            fs (kworld st') !! q = fs (kworld st) !! q)
    ∧ (∀ q, fs (kworld st) !! q = Some Dir →
            fs (kworld st') !! q = Some Dir).
Proof.
  intros Hdir Hout (Hne & Hpar & Hok) Hp.
  destruct Hok as [Htd Hdest]; [apply is_regular_true; by exists c|].
  pose proof (child_outside _ _ _ Hout Hne Hpar) as Hph.
  pose proof (target_outside directory hf p Hout) as Hth.
  pose proof (dest_outside directory hf p Hout) as Hdh.
  pose proof (child_ne_dest directory p p Hne Hpar) as Hpd.
  pose proof (target_ne_dest directory p p) as Htdd.
  assert (Hpt : p ≠ target_of directory p).
  { intros E. rewrite <- E in Htd. unfold is_regular in Htd.
    by rewrite Hp in Htd. }
  unfold organize_entry. unfold bind at 1. unfold lift at 1. unfold is_file.
  rewrite Hp.
  assert (Hst : KState (kworld st) (history st) (klog st) = st)
    by by destruct st.
  rewrite Hst, move_file_unfold. fold (target_of directory p).
  fold (dest_of directory p).
  set (td := target_of directory p) in *.
  set (dest := dest_of directory p) in *.
  set (t := fs (kworld st)) in *.
  assert (∃ w1, mkdir_exist_ok td (kworld st) = (Ok tt, w1)
                ∧ fs w1 !! td = Some Dir
                ∧ (∀ q, q ≠ td → fs w1 !! q = t !! q)
                ∧ (∀ q, t !! q = Some Dir → fs w1 !! q = Some Dir))
    as (w1 & -> & Htd1 & Hfr1 & Hd1).
  { unfold mkdir_exist_ok, commit, modify. fold t.
    unfold is_regular in Htd.
    destruct (t !! td) as [[c'|]|] eqn:E; [done| |].
    - exists (kworld st). by repeat split.
    - assert (Hptd : parent td = directory)
        by (unfold td, target_of; apply parent_joinpath).
      rewrite Hptd, Hdir.
      eexists. split; [reflexivity|]. simpl. split; [|split].
      + by rewrite lookup_insert_eq.
      + intros q Hq. by rewrite lookup_insert_ne.
      + intros q Hq. rewrite lookup_insert_ne; [done|].
        intros <-. congruence. }
  cbv zeta.
  set (st0 := KState w1 (history st ++ [(p, dest)]) (klog st)).
  set (st1 := saved hf st0).
  assert (Hfr2 : ∀ q, q ≠ hf → fs (kworld st1) !! q = fs w1 !! q)
    by (intros q Hq; unfold st1; by rewrite saved_fs_other).
  assert (Hd2 : ∀ q, fs w1 !! q = Some Dir → fs (kworld st1) !! q = Some Dir)
    by (intros q Hq; unfold st1; by apply saved_fs_dir).
  rewrite (os_rename_free p dest (kworld st1) c).
  - eexists. split; [reflexivity|]. simpl.
    split; [unfold st1; by rewrite saved_history|].
    split; [|split; [|split; [|split]]].
    + rewrite lookup_insert_ne by done. by rewrite lookup_delete_eq.
    + by rewrite lookup_insert_eq.
    + rewrite lookup_insert_ne by done. rewrite lookup_delete_ne by done.
      by apply Hd2.
    + intros q Hqh Hqp Hqd Hqt. rewrite lookup_insert_ne by done.
      rewrite lookup_delete_ne by done. rewrite Hfr2 by done. by apply Hfr1.
    + intros q Hq. rewrite lookup_insert_ne.
      * rewrite lookup_delete_ne; [by apply Hd2, Hd1|]. intros <-.
        congruence.
      * intros <-. congruence.
  - done.
  - rewrite Hfr2 by done. rewrite Hfr1 by done. exact Hp.
  - rewrite Hfr2 by done. rewrite Hfr1 by done. exact Hdest.
  - assert (Hpd' : parent dest = td)
      by (unfold dest, dest_of; apply parent_joinpath).
    rewrite Hpd'. by apply Hd2.
Qed.

Lemma filter_ext_elem {A} (P Q : A → Prop)
    `{!∀ x, Decision (P x)} `{!∀ x, Decision (Q x)} (l : list A) :
  (∀ x, x ∈ l → P x ↔ Q x) → filter P l = filter Q l.
Proof.
  induction l as [|x l IH]; intros Hext; [done|].
  rewrite !filter_cons.
  assert (Hx : P x ↔ Q x) by (apply Hext; by left).
  assert (Hl : filter P l = filter Q l)
    by (apply IH; intros y Hy; apply Hext; by right).
  destruct (decide (P x)), (decide (Q x)); try tauto; by rewrite Hl.
Qed.

(** After a regular entry has been moved, the other entries of the
    directory are what they were. *)
Section AfterOneMove.
Variables (hf directory p : path) (c : kcontent).
Variables (t t' : gmap path (node kcontent)).
Hypothesis Hout : is_prefix_of directory hf = false.
Hypothesis Hp : t !! p = Some (File c).
Hypothesis Hok : entry_ok directory t p.
Hypothesis Hsrc : t' !! p = None.
Hypothesis Hdest : t' !! dest_of directory p = Some (File c).
Hypothesis Htd : t' !! target_of directory p = Some Dir.
Hypothesis Hframe :
  ∀ q, q ≠ hf → q ≠ p → q ≠ dest_of directory p →
       q ≠ target_of directory p → t' !! q = t !! q.

Lemma target_not_regular : is_regular t (target_of directory p) = false.
Proof.
  destruct Hok as (_ & _ & H). apply H. apply is_regular_true. by exists c.
Qed.

Lemma other_entry_regular p' :
  p' ≠ [] → parent p' = directory → p' ≠ p →
  is_regular t' p' = is_regular t p'.
Proof.
  intros Hne Hpar Hpp.
  destruct (decide (p' = target_of directory p)) as [->|Hpt].
  - rewrite target_not_regular. unfold is_regular. by rewrite Htd.
  - unfold is_regular. rewrite Hframe; [done| |done| |done].
    + by apply (child_outside directory).
    + by apply child_ne_dest.
Qed.

Lemma other_entry_ok p' :
  entry_ok directory t p' → p' ≠ p → entry_ok directory t' p'.
Proof.
  intros (Hne & Hpar & H) Hpp. split; [done|]. split; [done|].
  rewrite other_entry_regular by done. intros Hr.
  destruct (H Hr) as [Ht Hd]. split.
  - destruct (decide (target_of directory p' = target_of directory p))
      as [E|E].
    + rewrite E. unfold is_regular. by rewrite Htd.
    + unfold is_regular. rewrite Hframe; [exact Ht| | | |done].
      * by apply target_outside.
      * intros E'. rewrite E' in Ht. unfold is_regular in Ht.
        by rewrite Hp in Ht.
      * apply target_ne_dest.
  - rewrite Hframe; [done| | | |].
    + by apply dest_outside.
    + intros E. destruct Hok as (Hne0 & Hpar0 & _).
      by apply (child_ne_dest directory p p').
    + intros E. destruct Hok as (Hne0 & Hpar0 & _).
      apply Hpp. by apply (dest_of_inj directory).
    + intros E. by apply (target_ne_dest directory p p').
Qed.

End AfterOneMove.

(** The loop of [organize] over a listing without collisions. *)
Lemma organize_entries_move hf directory l : ∀ st,
  NoDup l →
  fs (kworld st) !! directory = Some Dir →
  is_prefix_of directory hf = false →
  Forall (entry_ok directory (fs (kworld st))) l →
  ∃ st1,
    for_each l (organize_entry hf directory false) st = (Ok tt, st1)
    ∧ history st1
      = history st
        ++ map (record_of directory)
             (filter (λ p, is_regular (fs (kworld st)) p = true) l)
    ∧ (∀ p, p ∈ l → is_regular (fs (kworld st)) p = true →
            fs (kworld st1) !! p = None
            ∧ fs (kworld st1) !! dest_of directory p = fs (kworld st) !! p)
    ∧ (∀ q, q ≠ hf →
            (∀ p, p ∈ l → is_regular (fs (kworld st)) p = true →
                  q ≠ p ∧ q ≠ dest_of directory p
                  ∧ q ≠ target_of directory p) →
            fs (kworld st1) !! q = fs (kworld st) !! q)
    ∧ (∀ q, fs (kworld st) !! q = Some Dir →
            fs (kworld st1) !! q = Some Dir).
Proof.
  induction l as [|p l IH]; intros st Hnd Hdir Hout Hall.
  { exists st. split; [done|]. simpl. rewrite app_nil_r.
    split; [done|]. split; [intros p Hp; by apply elem_of_nil in Hp|].
    by split. }
  apply NoDup_cons in Hnd as [Hpl Hnd].
  apply Forall_cons in Hall as [Hokp Hall].
  set (t := fs (kworld st)) in *.
  destruct (is_regular t p) eqn:Hreg.
  - (* a regular file: it is moved *)
    apply is_regular_true in Hreg as [c Hp].
    destruct (organize_entry_moves hf directory p c st Hdir Hout Hokp Hp)
      as (st' & Hrun & Hh' & Hsrc & Hdest & Htd & Hframe & Hdirs).
    fold t in Hframe, Hdirs.
    set (t' := fs (kworld st')) in *.
    assert (HR : ∀ p', p' ∈ l → is_regular t' p' = is_regular t p').
    { intros p' Hin. pose proof (proj1 (Forall_forall _ _) Hall p' Hin)
        as (Hne & Hpar & _).
      apply (other_entry_regular hf directory p c t t'); try done.
      intros ->. done. }
    assert (Hall' : Forall (entry_ok directory t') l).
    { apply Forall_forall. intros p' Hin.
      apply (other_entry_ok hf directory p c t t'); try done.
      - by apply (proj1 (Forall_forall _ _) Hall).
      - intros ->. done. }
    destruct (IH st' Hnd (Hdirs _ Hdir) Hout Hall')
      as (st1 & Hrun1 & Hh1 & Hmoved1 & Hframe1 & Hdirs1).
    fold t' in Hh1, Hmoved1, Hframe1, Hdirs1.
    assert (Hfilter : filter (λ p0, is_regular t' p0 = true) l
                      = filter (λ p0, is_regular t p0 = true) l).
    { apply filter_ext_elem. intros x Hx. by rewrite HR. }
    destruct Hokp as (Hne & Hpar & Hcoll).
    destruct Hcoll as [Htreg Hdfree]; [apply is_regular_true; by exists c|].
    (* the moved entry stays put during the rest of the loop *)
    assert (Hkeep : ∀ q, q ≠ hf →
              (∀ p', p' ∈ l → is_regular t p' = true →
                     q ≠ p' ∧ q ≠ dest_of directory p'
                     ∧ q ≠ target_of directory p') →
              fs (kworld st1) !! q = t' !! q).
    { intros q Hq Hav. apply Hframe1; [done|].
      intros p' Hin Hr. rewrite HR in Hr by done. by apply Hav. }
    exists st1. split; [|split; [|split; [|split]]].
    + cbn [for_each]. unfold bind at 1. by rewrite Hrun.
    + rewrite Hh1, Hh', Hfilter. rewrite filter_cons_True
        by (apply is_regular_true; by exists c).
      simpl. by rewrite <- app_assoc.
    + intros p' Hin Hr. apply elem_of_cons in Hin as [->|Hin].
      * split.
        -- rewrite Hkeep; [done|by apply (child_outside directory)|].
           intros p' Hin' Hr'.
           pose proof (proj1 (Forall_forall _ _) Hall p' Hin')
             as (Hne' & Hpar' & Hc').
           destruct (Hc' Hr') as [Htr' _].
           split; [intros ->; done|]. split.
           ++ by apply child_ne_dest.
           ++ intros E. rewrite <- E in Htr'. unfold is_regular in Htr'.
              by rewrite Hp in Htr'.
        -- rewrite Hkeep; [by rewrite Hdest, Hp|by apply dest_outside|].
           intros p' Hin' Hr'.
           pose proof (proj1 (Forall_forall _ _) Hall p' Hin')
             as (Hne' & Hpar' & Hc').
           split; [|split].
           ++ intros E. by apply (child_ne_dest directory p' p).
           ++ intros E. apply (dest_of_inj directory) in E; try done.
              subst p'. done.
           ++ intros E. by apply (target_ne_dest directory p' p).
      * rewrite <- HR in Hr by done.
        destruct (Hmoved1 p' Hin Hr) as [H1 H2]. split; [done|].
        rewrite H2.
        pose proof (proj1 (Forall_forall _ _) Hall p' Hin)
          as (Hne' & Hpar' & _).
        rewrite HR in Hr by done.
        apply Hframe.
        -- by apply (child_outside directory).
        -- intros ->. done.
        -- by apply child_ne_dest.
        -- intros E. rewrite E in Hr. by rewrite Htreg in Hr.
    + intros q Hq Hav. rewrite Hkeep; [|done|].
      * destruct (Hav p) as (H1 & H2 & H3);
          [by left|apply is_regular_true; by exists c|].
        by apply Hframe.
      * intros p' Hin Hr. apply Hav; [by right|done].
    + intros q Hqd. by apply Hdirs1, Hdirs.
  - (* not a regular file: skipped *)
    destruct (IH st Hnd Hdir Hout Hall)
      as (st1 & Hrun1 & Hh1 & Hmoved1 & Hframe1 & Hdirs1).
    fold t in Hh1, Hmoved1, Hframe1, Hdirs1.
    exists st1. split; [|split; [|split; [|split]]].
    + cbn [for_each]. unfold bind at 1.
      by rewrite (organize_entry_skip hf directory p st Hreg).
    + rewrite Hh1. rewrite filter_cons_False; [done|].
      by rewrite Hreg.
    + intros p' Hin Hr. apply elem_of_cons in Hin as [->|Hin].
      * by rewrite Hreg in Hr.
      * by apply Hmoved1.
    + intros q Hq Hav. apply Hframe1; [done|].
      intros p' Hin Hr. apply Hav; [by right|done].
    + done.
Qed.














(** ** Further properties of the categorizers *)

Lemma first_owner_first pre c exts post ext fallback :
  ext ∈ exts →
  Forall (λ e, ext ∉ e.2) pre →
  first_owner (pre ++ (c, exts) :: post) ext fallback = c.
Proof.
  intros Hin. induction pre as [|[c' exts'] pre IH]; intros Hpre; simpl.
  - by rewrite bool_decide_eq_true_2.
  - apply Forall_cons in Hpre as [Hc' Hpre]. simpl in Hc'.
    rewrite bool_decide_eq_false_2 by done. by apply IH.
Qed.

Lemma first_owner_range m ext fallback :
  first_owner m ext fallback ∈ fallback :: m.*1.
Proof.
  induction m as [|[c exts] m IH]; simpl.
  - by left.
  - case_bool_decide.
    + right. by left.
    + apply elem_of_cons in IH as [->|IH]; [by left|]. right. by right.
Qed.

(** X1.  When an extension is listed under several categories of a custom
    table, [categorize] returns the first of them in the order of the
    table: the category whose list holds the lower-cased suffix and that
    is preceded by no category holding it. *)
Theorem categorize_first_match (pre post : table) (c : string)
    (exts : list string) (p : path) :
  lower (suffix p) ∈ exts →
  Forall (λ e, lower (suffix p) ∉ e.2) pre →
  categorize (FileCategorizer (Some (pre ++ (c, exts) :: post))) p = c.
Proof.
  intros Hin Hpre.
  assert (Hm : FileCategorizer (Some (pre ++ (c, exts) :: post))
               = pre ++ (c, exts) :: post) by by destruct pre.
  rewrite Hm. unfold categorize. by apply first_owner_first.
Qed.

Lemma categorize_first_match_witness :
  categorize
    (FileCategorizer
       (Some ([("Text", [".md"])]
              ++ ("Notes", [".txt"; ".md"]) :: [("Plain", [".txt"])])))
    ["home"; "u"; "Desktop"; "todo.TXT"] = "Notes".
Proof.
  apply (categorize_first_match [("Text", [".md"])] [("Plain", [".txt"])]
           "Notes" [".txt"; ".md"]).
  - apply (bool_decide_unpack _). by vm_compute.
  - apply Forall_cons. split; [|by apply Forall_nil].
    apply (bool_decide_unpack _). by vm_compute.
Defined.

(** X2.  The name of the folder a file is sent to is always a category of
    the table in use or the fallback: for the package a key of the table
    or the literal [Others], which a custom table need not contain; for
    the script one of its five categories or [Other]. *)
Theorem category_is_key_or_fallback (custom : option table) (p : path) :
  categorize (FileCategorizer custom) p
    ∈ "Others" :: (FileCategorizer custom).*1
  ∧ classify_file p
    ∈ ["Other"; "Images"; "Documents"; "Code"; "Archives"; "Media"].
Proof.
  split.
  - apply first_owner_range.
  - apply (first_owner_range CATEGORIES).
Qed.

(** ** Further properties of the undo manager *)

Lemma record_move_eq hf s d st :
  record_move hf s d st =
    (Ok tt, saved hf (KState (kworld st) (history st ++ [(s, d)]) (klog st))).
Proof.
  unfold record_move. unfold bind at 1. unfold get_history at 1.
  unfold bind at 1. unfold set_history, modify. cbn [kworld history klog].
  by rewrite save_history_eq.
Qed.

Lemma saved_unwritable hf st :
  unwritable (fs (kworld st)) hf →
  ∃ e, saved hf st
       = KState (kworld st) (history st)
           (klog st ++ [(ERROR, FailedToSaveHistory e)]).
Proof.
  intros Hu. unfold saved, write_file.
  destruct Hu as [Hd|[Hn Hp]].
  - rewrite Hd. by eexists.
  - rewrite Hn. destruct (fs (kworld st) !! parent hf) as [[c|]|];
      [by eexists|done|by eexists].
Qed.

(** X3.  [record_move] never raises and always appends the record to the
    in-memory ledger.  When the history file can be written it then holds
    the whole new ledger and nothing is logged; when it cannot, the file
    system is left as it was and the failure is only logged at level
    ERROR, so the ledger in memory and the one on disk differ. *)
Theorem record_move_appends (hf s d : path) (st : kstate) :
  ∃ st',
    record_move hf s d st = (Ok tt, st')
    ∧ history st' = history st ++ [(s, d)]
    ∧ (writable (fs (kworld st)) hf →
       fs (kworld st') !! hf
         = Some (File (Json (encode_history (history st ++ [(s, d)]))))
       ∧ klog st' = klog st)
    ∧ (unwritable (fs (kworld st)) hf →
       kworld st' = kworld st
       ∧ ∃ e, klog st' = klog st ++ [(ERROR, FailedToSaveHistory e)]).
Proof.
  rewrite record_move_eq. eexists. split; [reflexivity|].
  split; [by rewrite saved_history|]. split.
  - intros Hw. rewrite saved_writable by done. simpl.
    by rewrite lookup_insert_eq.
  - intros Hu.
    destruct (saved_unwritable hf
                (KState (kworld st) (history st ++ [(s, d)]) (klog st)) Hu)
      as [e ->]. simpl. split; [done|by exists e].
Qed.

Lemma record_move_appends_witness :
  let s := example_dir ++ ["a.txt"] in
  let d := example_dir ++ ["Documents"; "a.txt"] in
  let st := kstate_of [] [] in
  let hf_bad := ["srv"; "state"; ".file_organizer_history.json"] in
  (∃ st', record_move example_history_file s d st = (Ok tt, st')
          ∧ fs (kworld st') !! example_history_file
            = Some (File (Json (encode_history [(s, d)]))))
  ∧ (∃ st', record_move hf_bad s d st = (Ok tt, st')
            ∧ history st' = [(s, d)]
            ∧ kworld st' = kworld st).
Proof.
  intros s d st hf_bad. split.
  - destruct (record_move_appends example_history_file s d st)
      as (st' & Hrun & _ & Hw & _).
    exists st'. split; [exact Hrun|]. apply Hw. split; by vm_compute.
  - destruct (record_move_appends hf_bad s d st)
      as (st' & Hrun & Hh & _ & Hu).
    exists st'. split; [exact Hrun|]. split; [exact Hh|].
    apply Hu. right. split; by vm_compute.
Defined.

Lemma undo_all_empty hf st :
  history st = [] → undo_all hf st = Some (Ok tt, st).
Proof. intros Hh. unfold undo_all. rewrite Hh. simpl. by rewrite Hh. Qed.

(** X4.  On an empty ledger [undo_last] returns [False] and logs a
    warning, and [undo_all] returns at once without logging anything;
    neither touches the file system nor writes the history file. *)
Theorem undo_on_empty_ledger (hf : path) (st : kstate) :
  history st = [] →
  undo_last hf st
    = (Ok false,
       KState (kworld st) [] (klog st ++ [(WARNING, NoOperationsToUndo)]))
  ∧ undo_all hf st = Some (Ok tt, st).
Proof.
  intros Hh. split; [by apply undo_last_empty|by apply undo_all_empty].
Qed.

Lemma undo_on_empty_ledger_witness :
  let st := kstate_of [] [] in
  undo_last example_history_file st
    = (Ok false, KState (kworld st) [] [(WARNING, NoOperationsToUndo)])
  ∧ undo_all example_history_file st = Some (Ok tt, st).
Proof.
  intros st. apply (undo_on_empty_ledger example_history_file st).
  reflexivity.
Defined.

(** ** Further properties of the entry point of the package *)

Lemma kiro_main_existing ord hf directory dry_run undo st n :
  fs (kworld st) !! directory = Some n →
  kiro_main ord hf directory dry_run undo st =
    match UndoManager hf st with
    | (Ok _, st2) =>
        if undo then undo_all hf st2
        else Some (organize ord hf directory dry_run st2)
    | (Raise e, st2) => Some (Raise e, st2)
    end.
Proof.
  intros Hd. unfold kiro_main, lift, path_exists. rewrite Hd.
  unfold FileCleaner. by destruct st.
Qed.

(** X5.  [main] only tests that the directory argument exists.  When it
    names a regular file, the ledger is loaded and [organize] then raises
    [NotADirectoryError] from the listing; the exception leaves [main]
    and nothing in the file system has changed. *)
Theorem main_on_regular_file (ord : list path → list path)
    (hf directory : path) (dry_run : bool) (st : kstate) (c : kcontent) :
  fs (kworld st) !! directory = Some (File c) →
  ∃ st', kiro_main ord hf directory dry_run false st
         = Some (Raise NotADirectoryError, st')
         ∧ kworld st' = kworld st.
Proof.
  intros Hd. rewrite (kiro_main_existing _ _ _ _ _ _ _ Hd).
  destruct (UndoManager_never_raises hf st) as (h & l & ->).
  unfold organize. unfold bind at 1. unfold logger at 1. unfold modify.
  unfold bind at 1. unfold lift at 1. cbn [kworld history klog].
  unfold iterdir. rewrite Hd. by eexists.
Qed.

Lemma main_on_regular_file_witness :
  let st := kstate_of [ (example_dir ++ ["a.txt"], File (Blob "A")) ] [] in
  ∃ st', kiro_main id example_history_file (example_dir ++ ["a.txt"])
           false false st
         = Some (Raise NotADirectoryError, st')
         ∧ kworld st' = kworld st.
Proof.
  intros st.
  apply (main_on_regular_file id example_history_file
           (example_dir ++ ["a.txt"]) false st (Blob "A")).
  by vm_compute.
Defined.

(** X6.  With [--undo], [main] still requires the directory argument to
    exist: when it does not, only an error is logged and the ledger is
    not even loaded.  When it exists, the outcome is that of loading the
    ledger and running [undo_all]; it depends neither on which existing
    directory was named nor on the dry-run flag. *)
Theorem main_undo (ord ord' : list path → list path)
    (hf directory directory' : path) (dry_run dry_run' : bool)
    (st : kstate) :
  (fs (kworld st) !! directory = None →
   kiro_main ord hf directory dry_run true st
     = Some (Ok tt,
             KState (kworld st) (history st)
               (klog st ++ [(ERROR, DirectoryDoesNotExist directory)])))
  ∧ (is_Some (fs (kworld st) !! directory) →
     is_Some (fs (kworld st) !! directory') →
     kiro_main ord hf directory dry_run true st
       = kiro_main ord' hf directory' dry_run' true st
     ∧ ∃ h l,
         kiro_main ord hf directory dry_run true st
           = undo_all hf (KState (kworld st) h (klog st ++ l))).
Proof.
  split.
  - intros Hd. unfold kiro_main, lift, path_exists. rewrite Hd.
    reflexivity.
  - intros [n Hd] [n' Hd'].
    rewrite (kiro_main_existing _ _ _ _ _ _ _ Hd).
    rewrite (kiro_main_existing _ _ _ _ _ _ _ Hd').
    split; [done|].
    destruct (UndoManager_never_raises hf st) as (h & l & ->).
    by exists h, l.
Qed.

Lemma main_undo_witness :
  let st := kstate_of [] [] in
  kiro_main id example_history_file ["nowhere"] false true st
    = Some (Ok tt,
            KState (kworld st) []
              [(ERROR, DirectoryDoesNotExist ["nowhere"])])
  ∧ kiro_main id example_history_file example_dir false true st
    = kiro_main id example_history_file example_home true true st.
Proof.
  intros st.
  destruct (main_undo id id example_history_file ["nowhere"] example_dir
              false false st) as [Hmissing _].
  destruct (main_undo id id example_history_file example_dir example_home
              false true st) as [_ Hsame].
  split.
  - apply Hmissing. by vm_compute.
  - destruct Hsame as [Heq _]; [by exists Dir..|exact Heq].
Defined.

(** ** Paths as text *)

Lemma split_on_none sep s :
  has_char sep s = false → split_on sep s = [s].
Proof.
  induction s as [|a s IH]; simpl; [done|].
  intros [Ha Hs]%orb_false_iff. rewrite Ha, (IH Hs). done.
Qed.

Lemma split_on_cons sep x c rest :
  has_char sep x = false → sep c = true →
  split_on sep (x +:+ String c rest) = x :: split_on sep rest.
Proof.
  intros Hx Hc. induction x as [|a x IH]; simpl.
  - by rewrite Hc.
  - simpl in Hx. apply orb_false_iff in Hx as [Ha Hx].
    rewrite Ha, (IH Hx). done.
Qed.

Lemma split_on_join sep c p :
  sep c = true → p ≠ [] →
  Forall (λ x, has_char sep x = false) p →
  split_on sep (join_str (String c EmptyString) p) = p.
Proof.
  intros Hc. induction p as [|x p IH]; intros Hne Hall; [done|].
  apply Forall_cons in Hall as [Hx Hall].
  destruct p as [|y p].
  - simpl. by apply split_on_none.
  - change (join_str (String c EmptyString) (x :: y :: p))
      with (x +:+ String c (join_str (String c EmptyString) (y :: p))).
    rewrite split_on_cons by done. f_equal. by apply IH.
Qed.

Lemma plain_component_spec c :
  plain_component c = true →
  c ≠ EmptyString ∧ c ≠ "." ∧ has_char (Ascii.eqb "/") c = false.
Proof.
  unfold plain_component. intros H.
  apply andb_true_iff in H as [H H3]. apply andb_true_iff in H as [H1 H2].
  apply negb_true_iff in H1, H2, H3.
  apply String.eqb_neq in H1, H2. done.
Qed.

Lemma filter_plain p :
  Forall (λ c, c ≠ EmptyString ∧ c ≠ ".") p →
  filter (λ c, c ≠ EmptyString ∧ c ≠ ".") p = p.
Proof.
  induction 1 as [|c p Hc Hp IH]; [done|].
  rewrite filter_cons_True by done. by rewrite IH.
Qed.

Lemma Path_of_str_of_path p :
  plain_path p = true → Path_of_str (str_of_path p) = p.
Proof.
  intros Hp. unfold plain_path in Hp.
  assert (Hall : Forall (λ c, plain_component c = true) p).
  { apply Forall_forall. intros c Hc.
    by apply (proj1 (forallb_forall _ _) Hp), list_elem_of_In. }
  unfold Path_of_str, str_of_path.
  change ("/" +:+ join_str "/" p) with (String "/" (join_str "/" p)).
  cbn [split_on]. rewrite Ascii.eqb_refl.
  destruct p as [|x p].
  - simpl. rewrite filter_cons_False by (intros [H _]; done). done.
  - rewrite split_on_join; [|done|done|].
    + rewrite filter_cons_False by (intros [H _]; done).
      apply filter_plain. eapply Forall_impl; [exact Hall|].
      intros c Hc. by destruct (plain_component_spec c Hc) as (? & ? & _).
    + eapply Forall_impl; [exact Hall|].
      intros c Hc. by destruct (plain_component_spec c Hc) as (_ & _ & ?).
Qed.

(** ** The ledger on disk *)

Lemma decode_encode_items h :
  plain_history h = true →
  decode_items
    (map (λ r, JArr [JStr (str_of_path r.1); JStr (str_of_path r.2)]) h)
  = Ok h.
Proof.
  induction h as [|[s d] h IH]; intros Hp; [done|].
  simpl in Hp. apply andb_true_iff in Hp as [Hr Hp].
  apply andb_true_iff in Hr as [Hs Hd].
  cbn [map decode_items]. unfold decode_item. cbn [iter_json to_Path fst snd].
  rewrite (Path_of_str_of_path s Hs), (Path_of_str_of_path d Hd).
  by rewrite (IH Hp).
Qed.

Lemma decode_encode_history h :
  plain_history h = true → decode_history (encode_history h) = Ok h.
Proof. intros Hp. unfold decode_history, encode_history. simpl.
  by apply decode_encode_items. Qed.

(** X7.  What [_save_history] writes, [_load_history] reads back: for a
    ledger whose paths are paths of the file system (no empty component,
    no [.], no slash inside a component), decoding the encoded ledger
    gives the ledger back, record for record and in order. *)
Theorem history_round_trip (h : list (path * path)) :
  plain_history h = true → decode_history (encode_history h) = Ok h.
Proof. apply decode_encode_history. Qed.

Lemma history_round_trip_witness :
  decode_history
    (encode_history
       [ (example_dir ++ ["a.txt"], example_dir ++ ["Documents"; "a.txt"]);
         (example_dir ++ ["b c.png"], example_dir ++ ["Images"; "b c.png"]) ])
  = Ok [ (example_dir ++ ["a.txt"], example_dir ++ ["Documents"; "a.txt"]);
         (example_dir ++ ["b c.png"], example_dir ++ ["Images"; "b c.png"]) ].
Proof. apply history_round_trip. by vm_compute. Defined.

(** X8.  The ledger survives a restart.  After a [record_move] whose save
    succeeded, a new process that builds its [UndoManager] on the same
    history file starts with exactly the ledger the first one had in
    memory, whatever its own state was, and logs the number of records
    loaded; it changes nothing in the file system. *)
Theorem ledger_survives_restart (hf s d : path) (st : kstate)
    (h0 : list (path * path)) (l0 : list (level * kmsg)) :
  writable (fs (kworld st)) hf →
  plain_history (history st ++ [(s, d)]) = true →
  ∃ st',
    record_move hf s d st = (Ok tt, st')
    ∧ UndoManager hf (KState (kworld st') h0 l0)
      = (Ok tt,
         KState (kworld st') (history st ++ [(s, d)])
           (l0 ++ [(INFO, LoadedOperations (length (history st ++ [(s, d)])))])).
Proof.
  intros Hw Hp. rewrite record_move_eq. eexists. split; [reflexivity|].
  rewrite saved_writable by done. cbn [kworld history klog].
  erewrite UndoManager_document;
    [|cbn [kworld fs]; by rewrite lookup_insert_eq].
  cbn [kworld history klog]. by rewrite (decode_encode_history _ Hp).
Qed.

Lemma ledger_survives_restart_witness :
  let s := example_dir ++ ["a.txt"] in
  let d := example_dir ++ ["Documents"; "a.txt"] in
  let st := kstate_of [] [] in
  ∃ st',
    record_move example_history_file s d st = (Ok tt, st')
    ∧ UndoManager example_history_file (KState (kworld st') [] [])
      = (Ok tt, KState (kworld st') [(s, d)] [(INFO, LoadedOperations 1)]).
Proof.
  intros s d st.
  apply (ledger_survives_restart example_history_file s d st [] []).
  - split; by vm_compute.
  - by vm_compute.
Defined.

(** ** The log of the script as text *)

Lemma append_cons x (a b : string) : String x a +:+ b = String x (a +:+ b).
Proof. reflexivity. Qed.

Lemma append_nil_l (b : string) : EmptyString +:+ b = b.
Proof. reflexivity. Qed.

Lemma append_assoc' (a b c : string) : (a +:+ b) +:+ c = a +:+ (b +:+ c).
Proof.
  induction a as [|x a IH]; [done|]. rewrite !append_cons. by rewrite IH.
Qed.

Lemma append_nil_r' (a : string) : a +:+ EmptyString = a.
Proof.
  induction a as [|x a IH]; [done|]. rewrite append_cons. by rewrite IH.
Qed.

Lemma has_char_app f a b :
  has_char f (a +:+ b) = has_char f a || has_char f b.
Proof.
  induction a as [|x a IH]; [done|].
  rewrite append_cons. simpl. by rewrite IH, orb_assoc.
Qed.

Lemma has_char_join f sep p :
  has_char f sep = false →
  Forall (λ c, has_char f c = false) p →
  has_char f (join_str sep p) = false.
Proof.
  intros Hsep. induction 1 as [|c p Hc Hp IH]; [done|].
  destruct p as [|y p]; [done|].
  change (join_str sep (c :: y :: p))
    with (c +:+ sep +:+ join_str sep (y :: p)).
  by rewrite !has_char_app, Hc, Hsep, IH.
Qed.

Lemma has_char_str_of_path f p :
  f "/"%char = false →
  Forall (λ c, has_char f c = false) p →
  has_char f (str_of_path p) = false.
Proof.
  intros Hf Hp. unfold str_of_path. rewrite has_char_app. simpl.
  rewrite Hf. simpl. apply has_char_join; [|done]. simpl. by rewrite Hf.
Qed.

Lemma forallb_Forall {A} (f : A → bool) (l : list A) :
  forallb f l = true → Forall (λ x, f x = true) l.
Proof.
  intros H. apply Forall_forall. intros x Hx.
  by apply (proj1 (forallb_forall _ _) H), list_elem_of_In.
Qed.

Lemma rev_str_app a b : rev_str (a +:+ b) = rev_str b +:+ rev_str a.
Proof.
  induction a as [|x a IH]; simpl; [by rewrite append_nil_r'|].
  by rewrite IH, append_assoc'.
Qed.

Lemma rev_str_involutive s : rev_str (rev_str s) = s.
Proof.
  induction s as [|x s IH]; simpl; [done|].
  rewrite rev_str_app. simpl. by rewrite IH.
Qed.

Lemma prefix_append a b : String.prefix a (a +:+ b) = true.
Proof.
  induction a as [|x a IH]; [by destruct b|].
  rewrite append_cons. cbn [String.prefix].
  by destruct (ascii_dec x x).
Qed.

Lemma prefix_app_r_str sub : ∀ s x,
  String.prefix sub s = true → String.prefix sub (s +:+ x) = true.
Proof.
  induction sub as [|a sub IH]; intros s x H.
  - by destruct (s +:+ x).
  - destruct s as [|b s]; [done|]. rewrite append_cons.
    cbn [String.prefix] in *. destruct (ascii_dec a b); [|done].
    by apply IH.
Qed.

Lemma prefix_nil_l s : String.prefix EmptyString s = true.
Proof. by destruct s. Qed.

(** A prefix without the character [c] does not reach beyond it. *)
Lemma prefix_cut w : ∀ a c b,
  has_char (Ascii.eqb c) w = false →
  String.prefix w (a +:+ String c b) = true → String.prefix w a = true.
Proof.
  induction w as [|x w IH]; intros a c b Hc Hp; [apply prefix_nil_l|].
  cbn [has_char] in Hc. apply orb_false_iff in Hc as [Hx Hc].
  destruct a as [|y a].
  - rewrite append_nil_l in Hp. cbn [String.prefix] in Hp.
    destruct (ascii_dec x c) as [->|]; [|done].
    by rewrite Ascii.eqb_refl in Hx.
  - rewrite append_cons in Hp. cbn [String.prefix] in *.
    destruct (ascii_dec x y); [|done]. by apply (IH a c b).
Qed.

Lemma prefix_drop w : ∀ a b,
  String.prefix w a = true →
  drop_str (String.length w) (a +:+ b)
  = drop_str (String.length w) a +:+ b.
Proof.
  induction w as [|x w IH]; intros a b Hp; [done|].
  destruct a as [|y a]; [done|].
  cbn [String.prefix] in Hp. destruct (ascii_dec x y); [|done].
  rewrite append_cons. cbn [String.length drop_str]. by apply IH.
Qed.

Lemma strip_one_cut ws a c b :
  Forall (λ w, has_char (Ascii.eqb c) w = false) ws →
  strip_one ws (a +:+ String c b)
  = match strip_one ws a with
    | Some a' => Some (a' +:+ String c b)
    | None => None
    end.
Proof.
  induction 1 as [|w ws Hw Hws IH]; [done|]. cbn [strip_one].
  destruct (String.prefix w a) eqn:Hp.
  - assert (Hp' : String.prefix w (a +:+ String c b) = true)
      by (by apply prefix_app_r_str).
    rewrite Hp'. f_equal. by apply prefix_drop.
  - destruct (String.prefix w (a +:+ String c b)) eqn:Hp'; [|exact IH].
    apply (prefix_cut w a c b Hw) in Hp'. congruence.
Qed.

Lemma strip_leading_none ws n s :
  strip_one ws s = None → strip_leading ws n s = s.
Proof. intros H. destruct n; [done|]. cbn [strip_leading]. by rewrite H. Qed.

(** Stripping does not go beyond a character that no white space holds. *)
Lemma strip_leading_cut ws c b :
  Forall (λ w, has_char (Ascii.eqb c) w = false) ws →
  ∀ n a, ∃ a', strip_leading ws n (a +:+ String c b) = a' +:+ String c b.
Proof.
  intros Hws. induction n as [|n IH]; intros a; [by exists a|].
  cbn [strip_leading]. rewrite (strip_one_cut ws a c b Hws).
  destruct (strip_one ws a) as [a'|]; [apply IH|by exists a].
Qed.

Lemma whitespace_no_slash :
  Forall (λ w, has_char (Ascii.eqb "/") w = false) (map rev_str whitespace).
Proof. apply (bool_decide_unpack _). by vm_compute. Qed.

Lemma whitespace_no_equals :
  Forall (λ w, has_char (Ascii.eqb "=") w = false) (map rev_str whitespace).
Proof. apply (bool_decide_unpack _). by vm_compute. Qed.

(** A text that starts with a slash and does not end with white space is
    left as it is by [strip]. *)
Lemma strip_id x n :
  ends_with_space n = false →
  strip (String "/" x +:+ String "/" n) = String "/" x +:+ String "/" n.
Proof.
  intros Hn. unfold strip.
  assert (Hl : lstrip (String "/" x +:+ String "/" n)
               = String "/" x +:+ String "/" n).
  { unfold lstrip. by apply strip_leading_none. }
  rewrite Hl. unfold rstrip.
  rewrite strip_leading_none; [apply rev_str_involutive|].
  rewrite rev_str_app.
  change (rev_str (String "/" n)) with (rev_str n +:+ String "/" EmptyString).
  rewrite append_assoc'.
  change (String "/" EmptyString +:+ ?r) with (String "/" r).
  rewrite (strip_one_cut _ _ _ _ whitespace_no_slash).
  unfold ends_with_space in Hn.
  by destruct (strip_one (map rev_str whitespace) (rev_str n)).
Qed.

Lemma join_str_snoc sep p c :
  p ≠ [] → join_str sep (p ++ [c]) = join_str sep p +:+ sep +:+ c.
Proof.
  induction p as [|x p IH]; intros Hne; [done|].
  destruct p as [|y p]; [done|].
  change (join_str sep ((x :: y :: p) ++ [c]))
    with (x +:+ sep +:+ join_str sep ((y :: p) ++ [c])).
  rewrite IH by done.
  change (join_str sep (x :: y :: p))
    with (x +:+ sep +:+ join_str sep (y :: p)).
  by rewrite !append_assoc'.
Qed.

Lemma split_first_app c x y :
  has_char (Ascii.eqb c) x = false →
  split_first c (x +:+ String c y) = Some (x, y).
Proof.
  induction x as [|a x IH]; simpl.
  - intros _. by rewrite Ascii.eqb_refl.
  - intros [Ha Hx]%orb_false_iff. rewrite Ascii.eqb_sym in Ha.
    rewrite Ha, (IH Hx). done.
Qed.

(** Stripping a header line leaves its [DESKTOP=] in front. *)
Lemma strip_header x :
  startswith "DESKTOP=" (strip ("DESKTOP=" +:+ x)) = true.
Proof.
  unfold strip.
  assert (Hl : lstrip ("DESKTOP=" +:+ x) = "DESKTOP=" +:+ x).
  { unfold lstrip. by apply strip_leading_none. }
  rewrite Hl. unfold rstrip. rewrite rev_str_app.
  change (rev_str "DESKTOP=") with (String "=" "POTKSED").
  destruct (strip_leading_cut (map rev_str whitespace) "=" "POTKSED"
              whitespace_no_equals
              (String.length ("DESKTOP=" +:+ x)) (rev_str x)) as [a' ->].
  rewrite rev_str_app.
  change (rev_str (String "=" "POTKSED")) with "DESKTOP=".
  unfold startswith. apply prefix_append.
Qed.

Lemma log_safe_spec m :
  log_safe m = true →
  plain_path m.1 = true
  ∧ plain_path (joinpath m.2 (name m.1)) = true
  ∧ Forall (λ c, has_char is_line_end c = false) m.1
  ∧ Forall (λ c, has_char is_line_end c = false) m.2
  ∧ Forall (λ c, has_char (Ascii.eqb "|") c = false) m.1
  ∧ ends_with_space (name m.1) = false
  ∧ name m.1 ≠ EmptyString
  ∧ has_char is_line_end (name m.1) = false.
Proof.
  unfold log_safe. intros H.
  apply andb_true_iff in H as [H _]. apply andb_true_iff in H as [H _].
  apply andb_true_iff in H as [H HF]. apply andb_true_iff in H as [H HE].
  apply andb_true_iff in H as [H HD]. apply andb_true_iff in H as [H HC].
  apply andb_true_iff in H as [HA HB].
  apply negb_true_iff in HF.
  assert (Hn : plain_component (name m.1) = true).
  { unfold plain_path, joinpath in HB. rewrite forallb_app in HB.
    apply andb_true_iff in HB as [_ HB]. simpl in HB.
    by apply andb_true_iff in HB as [HB _]. }
  destruct (plain_component_spec _ Hn) as (Hne & _ & _).
  assert (Hl1 : Forall (λ c, has_char is_line_end c = false) m.1).
  { eapply Forall_impl; [exact (forallb_Forall _ _ HC)|].
    intros c Hc. by apply negb_true_iff in Hc. }
  assert (Hl2 : Forall (λ c, has_char is_line_end c = false) m.2).
  { eapply Forall_impl; [exact (forallb_Forall _ _ HD)|].
    intros c Hc. by apply negb_true_iff in Hc. }
  assert (Hbar : Forall (λ c, has_char (Ascii.eqb "|") c = false) m.1).
  { eapply Forall_impl; [exact (forallb_Forall _ _ HE)|].
    intros c Hc. by apply negb_true_iff in Hc. }
  repeat (split; [done|]).
  (* the name is the last component of the source *)
  destruct m as [src td]. simpl in *.
  destruct src as [|x src _] using rev_ind; [done|].
  unfold name in *. rewrite last_last in *.
  apply Forall_app in Hl1 as [_ Hl1]. by apply Forall_cons in Hl1 as [? _].
Qed.

(** The text of a path that ends with the component [c]. *)
Lemma str_of_path_last p c :
  ∃ x, str_of_path (joinpath p c) = x +:+ String "/" c.
Proof.
  unfold str_of_path, joinpath. destruct p as [|y p].
  - by exists EmptyString.
  - exists (String "/" (join_str "/" (y :: p))).
    rewrite join_str_snoc by done. reflexivity.
Qed.

Lemma log_line_one_line m :
  log_safe m = true → has_char is_line_end (log_line m) = false.
Proof.
  intros (_ & _ & Hs & Ht & _ & _ & _ & Hn)%log_safe_spec.
  unfold log_line. rewrite !has_char_app.
  rewrite has_char_str_of_path by done.
  rewrite has_char_str_of_path; [reflexivity|done|].
  unfold joinpath. apply Forall_app. split; [done|].
  by apply Forall_cons.
Qed.

Lemma parse_log_line m rest :
  log_safe m = true →
  parse_lines (log_line m :: rest) =
    match parse_lines rest with
    | Ok moves => Ok ((m.1, joinpath m.2 (name m.1)) :: moves)
    | Raise e => Raise e
    end.
Proof.
  intros Hm.
  pose proof (log_safe_spec m Hm)
    as (Hp1 & Hp2 & Hs & Ht & Hbar & Hsp & Hne & Hn).
  cbn [parse_lines].
  assert (Hline : log_line m
                  = String "/" (join_str "/" m.1 +:+ "|"
                                +:+ str_of_path (joinpath m.2 (name m.1))))
    by reflexivity.
  assert (Hstrip : strip (log_line m) = log_line m).
  { destruct (str_of_path_last m.2 (name m.1)) as [x Hx].
    assert (Hshape : log_line m
              = String "/" (join_str "/" m.1 +:+ "|" +:+ x)
                +:+ String "/" (name m.1)).
    { rewrite Hline, Hx.
      change (String "/" ?a +:+ ?b) with (String "/" (a +:+ b)).
      f_equal. by rewrite !append_assoc'. }
    rewrite Hshape. by apply strip_id. }
  rewrite Hstrip.
  assert (Hskip : bool_decide (log_line m = EmptyString)
                  || startswith "DESKTOP=" (log_line m) = false).
  { rewrite Hline. rewrite bool_decide_eq_false_2 by done. reflexivity. }
  rewrite Hskip.
  unfold log_line.
  change (str_of_path m.1 +:+ "|" +:+ str_of_path (joinpath m.2 (name m.1)))
    with (str_of_path m.1
          +:+ String "|" (str_of_path (joinpath m.2 (name m.1)))).
  rewrite split_first_app by (by apply has_char_str_of_path).
  rewrite (Path_of_str_of_path _ Hp1), (Path_of_str_of_path _ Hp2).
  reflexivity.
Qed.

Lemma split_log_lines moves :
  forallb log_safe moves = true →
  split_on is_line_end
    (String.concat EmptyString (map (λ m, log_line m +:+ newline) moves))
  = map log_line moves ++ [EmptyString].
Proof.
  induction moves as [|m moves IH]; intros Hall; [done|].
  simpl in Hall. apply andb_true_iff in Hall as [Hm Hall].
  assert (Hcat : ∀ (x : string) l,
            String.concat EmptyString (x :: l)
            = x +:+ String.concat EmptyString l).
  { intros x [|y l]; simpl; [by rewrite append_nil_r'|done]. }
  cbn [map]. rewrite Hcat. unfold newline at 1.
  rewrite append_assoc'.
  change (String "010" EmptyString +:+ ?r) with (String "010" r).
  rewrite split_on_cons; [|by apply log_line_one_line|done].
  by rewrite (IH Hall).
Qed.

Lemma parse_log_lines moves :
  forallb log_safe moves = true →
  parse_lines (map log_line moves ++ [EmptyString])
  = Ok (map (λ m, (m.1, joinpath m.2 (name m.1))) moves).
Proof.
  induction moves as [|m moves IH]; intros Hall; [done|].
  simpl in Hall. apply andb_true_iff in Hall as [Hm Hall].
  cbn [map app]. rewrite (parse_log_line m _ Hm). by rewrite (IH Hall).
Qed.

Lemma log_text_eq desktop moves :
  log_text desktop moves
  = ("DESKTOP=" +:+ str_of_path desktop)
    +:+ String "010"
          (String.concat EmptyString
             (map (λ m, log_line m +:+ newline) moves)).
Proof.
  unfold log_text, log_line, newline.
  rewrite !append_assoc'. do 2 f_equal.
  change (String "010" EmptyString +:+ ?r) with (String "010" r).
  f_equal. f_equal. apply map_ext. intros m. by rewrite !append_assoc'.
Qed.

Lemma records_of_log_text desktop moves :
  forallb one_line desktop = true →
  forallb log_safe moves = true →
  records_of (log_text desktop moves)
  = Ok (map (λ m, (m.1, joinpath m.2 (name m.1))) moves).
Proof.
  intros Hd Hall. unfold records_of. rewrite log_text_eq.
  rewrite split_on_cons; [| |done].
  - rewrite (split_log_lines _ Hall). cbn [parse_lines].
    rewrite strip_header, orb_true_r. by apply parse_log_lines.
  - rewrite has_char_app, has_char_str_of_path; [reflexivity|done|].
    eapply Forall_impl; [exact (forallb_Forall _ _ Hd)|].
    intros c Hc. by apply negb_true_iff in Hc.
Qed.

(** *** What [write_log] can encode *)

Lemma utf8_run_start st b :
  st.1.1 = 0 → utf8_run st b = utf8_run (0, 0, 0) b.
Proof.
  destruct st as [[n lo] hi]. cbn [fst]. intros ->.
  by destruct b.
Qed.

Lemma utf8_run_app a : ∀ st b,
  utf8_run st a = true → valid_utf8 b = true →
  utf8_run st (a +:+ b) = true.
Proof.
  induction a as [|x a IH]; intros st b Ha Hb.
  - rewrite append_nil_l. cbn [utf8_run] in Ha.
    apply bool_decide_eq_true in Ha. by rewrite utf8_run_start.
  - rewrite append_cons. cbn [utf8_run] in *.
    destruct (utf8_next st x) as [st'|]; [|done]. by apply IH.
Qed.

Lemma valid_utf8_app a b :
  valid_utf8 a = true → valid_utf8 b = true → valid_utf8 (a +:+ b) = true.
Proof. apply utf8_run_app. Qed.

Lemma valid_utf8_join sep p :
  valid_utf8 sep = true → forallb valid_utf8 p = true →
  valid_utf8 (join_str sep p) = true.
Proof.
  intros Hs. induction p as [|c p IH]; intros Hp; [done|].
  cbn [forallb] in Hp. apply andb_true_iff in Hp as [Hc Hp].
  destruct p as [|y p]; [done|].
  change (join_str sep (c :: y :: p))
    with (c +:+ sep +:+ join_str sep (y :: p)).
  apply valid_utf8_app; [done|]. apply valid_utf8_app; [done|]. by apply IH.
Qed.

Lemma valid_utf8_str_of_path p :
  forallb valid_utf8 p = true → valid_utf8 (str_of_path p) = true.
Proof.
  intros Hp. unfold str_of_path. apply valid_utf8_app; [done|].
  by apply valid_utf8_join.
Qed.

Lemma log_safe_valid m :
  log_safe m = true →
  valid_utf8 (log_line m +:+ newline) = true.
Proof.
  unfold log_safe. intros H.
  apply andb_true_iff in H as [H H2]. apply andb_true_iff in H as [H H1].
  assert (Hn : valid_utf8 (name m.1) = true).
  { destruct m as [src td]. cbn [fst] in *.
    destruct src as [|x src _] using rev_ind; [done|].
    unfold name. rewrite last_last. rewrite forallb_app in H1.
    apply andb_true_iff in H1 as [_ H1]. cbn [forallb] in H1.
    by apply andb_true_iff in H1 as [H1 _]. }
  unfold log_line.
  apply valid_utf8_app; [|done].
  apply valid_utf8_app; [by apply valid_utf8_str_of_path|].
  apply valid_utf8_app; [done|]. apply valid_utf8_str_of_path.
  unfold joinpath. rewrite forallb_app, H2. cbn [forallb]. by rewrite Hn.
Qed.

Lemma written_lines_all lines :
  forallb valid_utf8 lines = true → written_lines lines = lines.
Proof.
  induction lines as [|l lines IH]; [done|]. cbn [forallb written_lines].
  intros [Hl Hr]%andb_true_iff. by rewrite Hl, IH.
Qed.

(** When every path is valid UTF-8 the lines [write_log] writes make up
    [log_text]. *)
Lemma log_lines_valid desktop moves :
  forallb valid_utf8 desktop = true →
  forallb log_safe moves = true →
  forallb valid_utf8 (log_lines desktop moves) = true.
Proof.
  intros Hd Hm. unfold log_lines. cbn [forallb]. apply andb_true_iff. split.
  - apply valid_utf8_app; [done|].
    apply valid_utf8_app; [by apply valid_utf8_str_of_path|done].
  - apply forallb_forall. intros l Hl.
    apply in_map_iff in Hl as (m & <- & Hin).
    pose proof (proj1 (forallb_forall _ _) Hm m Hin) as Hs.
    apply log_safe_valid in Hs. unfold log_line in Hs.
    by rewrite !append_assoc' in Hs.
Qed.

Lemma concat_log_lines desktop moves :
  String.concat EmptyString (log_lines desktop moves)
  = log_text desktop moves.
Proof.
  unfold log_lines, log_text.
  assert (Hcat : ∀ (x : string) l,
            String.concat EmptyString (x :: l)
            = x +:+ String.concat EmptyString l).
  { intros x [|y l]; simpl; [by rewrite append_nil_r'|done]. }
  rewrite Hcat. by rewrite !append_assoc'.
Qed.

Lemma written_log_text desktop moves :
  forallb valid_utf8 desktop = true →
  forallb log_safe moves = true →
  String.concat EmptyString (written_lines (log_lines desktop moves))
  = log_text desktop moves
  ∧ forallb valid_utf8 (log_lines desktop moves) = true.
Proof.
  intros Hd Hm. pose proof (log_lines_valid desktop moves Hd Hm) as Hv.
  split; [|done]. rewrite written_lines_all by done.
  apply concat_log_lines.
Qed.

(** ** Further properties of the log of the script *)

Lemma parse_log_eq log_path text st :
  fs (dworld st) !! log_path = Some (File text) →
  parse_log log_path st = (records_of text, st).
Proof.
  intros Hf. unfold parse_log, bind, dlift, read_file, lift_result.
  rewrite Hf. unfold records_of. destruct st as [w out]. simpl.
  by destruct (parse_lines _).
Qed.

Lemma write_log_existing home desktop m moves ts st :
  fs (dworld st) !! log_dir_of home = Some Dir →
  fs (dworld st)
    !! joinpath (log_dir_of home) ("clean_" +:+ ts +:+ ".log") ≠ Some Dir →
  forallb valid_utf8 (log_lines desktop (m :: moves)) = true →
  let lp := joinpath (log_dir_of home) ("clean_" +:+ ts +:+ ".log") in
  write_log home desktop (m :: moves) ts st
  = (Ok (Some lp),
     DState (World (<[lp := File (log_text desktop (m :: moves))]>
                      (fs (dworld st)))
               (ops (dworld st)
                ++ [Write lp (log_text desktop (m :: moves))]))
       (stdout st)).
Proof.
  intros Hdir Hlp Hv lp. unfold write_log. unfold bind at 1.
  rewrite (get_log_dir_existing _ _ Hdir). cbv zeta.
  rewrite Hv, (written_lines_all _ Hv), concat_log_lines.
  unfold bind at 1. unfold dlift at 1. fold lp.
  unfold write_file, commit, modify.
  destruct (fs (dworld st) !! lp) as [[c|]|] eqn:E; [done|done|].
  unfold lp at 1. rewrite parent_joinpath, Hdir. done.
Qed.

(** X9.  What [write_log] writes, [parse_log] reads back.  When the log
    directory exists, every component of the desktop path is valid UTF-8
    and holds no line end, and every move of a non-empty plan is one the
    log can hold (paths of the file system, every component valid UTF-8
    and without a line end, no bar in a component of the source, no
    character that [str.strip] removes at the end of the file name),
    [write_log] returns the path of the new log and [parse_log] of that
    file returns, in order, the source of each move paired with the
    place it was moved to. *)
Theorem log_round_trip (home desktop : path) (ts : string)
    (m : path * path) (moves : list (path * path)) (st : dstate) :
  fs (dworld st) !! log_dir_of home = Some Dir →
  fs (dworld st)
    !! joinpath (log_dir_of home) ("clean_" +:+ ts +:+ ".log") ≠ Some Dir →
  forallb one_line desktop = true →
  forallb valid_utf8 desktop = true →
  forallb log_safe (m :: moves) = true →
  ∃ st',
    write_log home desktop (m :: moves) ts st
    = (Ok (Some (joinpath (log_dir_of home) ("clean_" +:+ ts +:+ ".log"))),
       st')
    ∧ parse_log (joinpath (log_dir_of home) ("clean_" +:+ ts +:+ ".log")) st'
      = (Ok (records_of_plan (m :: moves)), st').
Proof.
  intros Hdir Hlp Hd Hv Hsafe.
  rewrite (write_log_existing _ _ _ _ _ _ Hdir Hlp
             (log_lines_valid _ _ Hv Hsafe)).
  eexists. split; [reflexivity|].
  erewrite parse_log_eq; [|cbn [dworld fs]; by rewrite lookup_insert_eq].
  by rewrite (records_of_log_text _ _ Hd Hsafe).
Qed.

Lemma log_round_trip_witness :
  let moves := [ (example_dir ++ ["my notes.txt"], example_dir ++ ["Documents"]);
                 (example_dir ++ ["a|b.png"], example_dir ++ ["Images"]) ] in
  let st := dstate_of [ (example_home ++ [".desktop-cleaner"], Dir);
                        (log_dir_of example_home, Dir) ] in
  let lp := joinpath (log_dir_of example_home) "clean_20250101-120000.log" in
  (∃ st',
     write_log example_home example_dir (take 1 moves) "20250101-120000" st
     = (Ok (Some lp), st')
     ∧ parse_log lp st' = (Ok (records_of_plan (take 1 moves)), st'))
  ∧ log_safe (example_dir ++ ["a|b.png"], example_dir ++ ["Images"]) = false
  ∧ records_of (log_text example_dir moves)
    ≠ Ok (records_of_plan moves)
  ∧ log_safe (example_dir ++ ["note" +:+ bytes [194; 160]],
              example_dir ++ ["Other"]) = false
  ∧ (write_log example_home example_dir
       [ (example_dir ++ [bytes [255] +:+ ".txt"],
          example_dir ++ ["Documents"]) ] "20250101-120000" st).1
    = Raise UnicodeEncodeError.
Proof.
  intros moves st lp. split; [|split; [|split; [|split]]].
  - apply (log_round_trip example_home example_dir "20250101-120000"
             (example_dir ++ ["my notes.txt"], example_dir ++ ["Documents"])
             [] st); by vm_compute.
  - by vm_compute.
  - by vm_compute.
  - by vm_compute.
  - by vm_compute.
Defined.

(** X10.  A damaged log is not recovered from.  When the latest log
    cannot be parsed, for instance because a line holds no bar,
    [undo_last_run] raises the error of the parse: nothing is printed and
    nothing is undone. *)
Theorem undo_last_run_damaged_log (ord : list path → list path)
    (home lg : path) (text : string) (e : exn) (st : dstate) :
  fs (dworld st) !! log_dir_of home = Some Dir →
  last_log ord home (fs (dworld st)) = Some lg →
  fs (dworld st) !! lg = Some (File text) →
  records_of text = Raise e →
  undo_last_run ord home st = (Raise e, st).
Proof.
  intros Hdir Hlast Hlg Hrec. unfold undo_last_run.
  unfold bind at 1. rewrite (get_log_dir_existing _ _ Hdir).
  unfold bind at 1. unfold glob_clean_logs.
  unfold last_log in Hlast. rewrite Hlast.
  unfold bind at 1. by rewrite (parse_log_eq _ _ _ Hlg), Hrec.
Qed.

Lemma undo_last_run_damaged_log_witness :
  let lg := log_dir_of example_home ++ ["clean_20250101-120000.log"] in
  let st := dstate_of [ (example_home ++ [".desktop-cleaner"], Dir);
                        (log_dir_of example_home, Dir);
                        (lg, File "DESKTOP=/home/u/Desktop
/home/u/Desktop/a.txt /home/u/Desktop/Documents/a.txt
") ] in
  undo_last_run id example_home st = (Raise ValueError, st).
Proof.
  intros lg st.
  apply (undo_last_run_damaged_log id example_home lg
           "DESKTOP=/home/u/Desktop
/home/u/Desktop/a.txt /home/u/Desktop/Documents/a.txt
"); by vm_compute.
Defined.

(** ** Further properties of the runs of the script *)

Lemma children_nil {C} (t : gmap path (node C)) d :
  (∀ p, p ≠ [] → parent p = d → t !! p = None) → children t d = [].
Proof.
  intros H. apply elem_of_nil_inv. intros p Hp.
  apply elem_of_children in Hp as (Hne & Hpar & [n Hn]).
  rewrite (H p Hne Hpar) in Hn. done.
Qed.

Lemma ord_nil (ord : list path → list path) :
  (∀ l, ord l ≡ₚ l) → ord [] = [].
Proof. intros H. by apply Permutation_nil_r. Qed.

Lemma mkdir_parents_two {C} p a b (w : world C) :
  fs w !! p = Some Dir →
  fs w !! joinpath p a = None →
  fs w !! joinpath (joinpath p a) b = None →
  mkdir_parents (joinpath (joinpath p a) b) w
  = (Ok tt,
     World (<[joinpath (joinpath p a) b := Dir]>
              (<[joinpath p a := Dir]> (fs w)))
       (ops w ++ [Mkdir (joinpath p a); Mkdir (joinpath (joinpath p a) b)])).
Proof.
  intros Hp Ha Hb. unfold mkdir_parents, joinpath in *.
  rewrite !rev_app_distr. cbn [rev app].
  assert (E2 : rev (b :: a :: rev p) = (p ++ [a]) ++ [b])
    by (cbn [rev]; by rewrite rev_involutive).
  assert (E1 : rev (a :: rev p) = p ++ [a])
    by (cbn [rev]; by rewrite rev_involutive).
  cbn [mkdir_parents_rev]. rewrite E2, E1, Hb, Ha.
  unfold bind. rewrite Ha, rev_involutive, Hp.
  unfold commit, modify. cbn [fs ops]. by rewrite <- (app_assoc (ops w)).
Qed.

(** X11.  [--undo] on a fresh home.  When [~/.desktop-cleaner] does not
    exist yet, [undo_last_run] creates it and its [logs] folder, finds no
    log there, says so and returns: asking for an undo that has nothing
    to undo still leaves two new directories behind. *)
Theorem undo_last_run_fresh_home (ord : list path → list path)
    (home : path) (st : dstate) :
  (∀ l, ord l ≡ₚ l) →
  fs (dworld st) !! home = Some Dir →
  fs (dworld st) !! joinpath home ".desktop-cleaner" = None →
  fs (dworld st) !! log_dir_of home = None →
  (∀ p, p ≠ [] → parent p = log_dir_of home → fs (dworld st) !! p = None) →
  undo_last_run ord home st
  = (Ok tt,
     DState (World (<[log_dir_of home := Dir]>
                      (<[joinpath home ".desktop-cleaner" := Dir]>
                         (fs (dworld st))))
               (ops (dworld st)
                ++ [Mkdir (joinpath home ".desktop-cleaner");
                    Mkdir (log_dir_of home)]))
       (stdout st ++ [NoCleanupLogs])).
Proof.
  intros Hord Hhome Hdc Hlogs Hempty.
  unfold undo_last_run. unfold bind at 1. unfold get_log_dir.
  unfold bind at 1. unfold dlift at 1. fold (log_dir_of home).
  unfold log_dir_of at 1.
  rewrite (mkdir_parents_two home ".desktop-cleaner" "logs" _ Hhome Hdc Hlogs).
  fold (log_dir_of home). unfold ret at 1.
  unfold bind at 1. unfold glob_clean_logs. cbn [dworld fs].
  rewrite children_nil.
  - rewrite (ord_nil ord Hord). reflexivity.
  - intros p Hne Hpar.
    rewrite lookup_insert_ne.
    + rewrite lookup_insert_ne; [by apply Hempty|].
      intros E. rewrite <- E in Hpar. rewrite parent_joinpath in Hpar.
      apply (f_equal length) in Hpar. unfold log_dir_of, joinpath in Hpar.
      rewrite !length_app in Hpar. simpl in Hpar. lia.
    + intros E. rewrite <- E in Hpar. unfold log_dir_of in Hpar at 1.
      rewrite parent_joinpath in Hpar.
      by apply (joinpath_ne_self (joinpath home ".desktop-cleaner") "logs").
Qed.

Lemma undo_last_run_fresh_home_witness :
  let st := dstate_of [] in
  undo_last_run id example_home st
  = (Ok tt,
     DState (World (<[log_dir_of example_home := Dir]>
                      (<[joinpath example_home ".desktop-cleaner" := Dir]>
                         (fs (dworld st))))
               (ops (dworld st)
                ++ [Mkdir (joinpath example_home ".desktop-cleaner");
                    Mkdir (log_dir_of example_home)]))
       (stdout st ++ [NoCleanupLogs])).
Proof.
  intros st.
  apply (undo_last_run_fresh_home id example_home st).
  1: done. 1-3: by vm_compute.
  intros p Hne Hpar. apply eq_None_not_Some. intros Hs.
  pose proof (proj2 (elem_of_children (fs (dworld st))
                       (log_dir_of example_home) p)
                (conj Hne (conj Hpar Hs))) as Hin.
  assert (Hnil : children (fs (dworld st)) (log_dir_of example_home) = [])
    by (vm_compute; reflexivity).
  rewrite Hnil in Hin. exact (proj1 (elem_of_nil p) Hin).
Defined.

Lemma filter_none {A} (P : A → Prop) `{!∀ x, Decision (P x)} (l : list A) :
  Forall (λ x, ¬ P x) l → filter P l = [].
Proof.
  induction 1 as [|x l Hx Hl IH]; [done|].
  by rewrite filter_cons_False.
Qed.

(** X12.  Nothing to clean.  When the folder exists and every entry of
    it is a directory or a dot file, [clean_desktop] prints that there is
    nothing to clean and returns 0, with or without the dry-run flag:
    no folder is created, nothing is moved and no log is written, not
    even the log directory is created. *)
Theorem clean_desktop_nothing_to_clean (ord : list path → list path)
    (home desktop : path) (dry_run : bool) (ts : string) (st : dstate) :
  nothing_eligible ord (fs (dworld st)) desktop →
  clean_desktop ord home desktop dry_run ts st
  = (Ok 0, DState (dworld st) (stdout st ++ [NothingToClean])).
Proof.
  intros [Hdir Hnone]. unfold clean_desktop. unfold bind at 1.
  rewrite plan_moves_eq. unfold pure_plan. rewrite Hdir.
  rewrite filter_none.
  - reflexivity.
  - eapply Forall_impl; [exact Hnone|]. intros item Hi. by rewrite Hi.
Qed.

Lemma clean_desktop_nothing_to_clean_witness :
  let st := dstate_of [ (example_dir ++ ["Projects"], Dir);
                        (example_dir ++ [".hidden"], File "H") ] in
  clean_desktop id example_home example_dir false "20250101-120000" st
  = (Ok 0, DState (dworld st) [NothingToClean]).
Proof.
  intros st.
  apply (clean_desktop_nothing_to_clean id example_home example_dir false
           "20250101-120000" st).
  split; [by vm_compute|].
  let l := eval vm_compute in (children (fs (dworld st)) example_dir) in
  change (id (children (fs (dworld st)) example_dir)) with l.
  repeat (apply Forall_cons; split; [by vm_compute|]).
  by apply Forall_nil.
Defined.

Lemma below_file_spec {C} (t : gmap path (node C)) below : ∀ above,
  below_file t above below = true
  ↔ ∃ k, k < length below ∧ is_regular t (above ++ take k below) = true.
Proof.
  induction below as [|c below IH]; intros above; cbn [below_file].
  - split; [done|]. intros (k & Hk & _). simpl in Hk. lia.
  - destruct (t !! above) as [[x|]|] eqn:E.
    + split; [|done]. intros _. exists 0. split; [simpl; lia|].
      rewrite take_0, app_nil_r. unfold is_regular. by rewrite E.
    + rewrite IH. split.
      * intros (k & Hk & Hr). exists (S k). split; [simpl; lia|].
        cbn [take]. by rewrite <- app_assoc in Hr.
      * intros ([|k] & Hk & Hr).
        -- rewrite take_0, app_nil_r in Hr. unfold is_regular in Hr.
           by rewrite E in Hr.
        -- exists k. split; [simpl in Hk; lia|]. cbn [take] in Hr.
           by rewrite <- app_assoc.
    + rewrite IH. split.
      * intros (k & Hk & Hr). exists (S k). split; [simpl; lia|].
        cbn [take]. by rewrite <- app_assoc in Hr.
      * intros ([|k] & Hk & Hr).
        -- rewrite take_0, app_nil_r in Hr. unfold is_regular in Hr.
           by rewrite E in Hr.
        -- exists k. split; [simpl in Hk; lia|]. cbn [take] in Hr.
           by rewrite <- app_assoc.
Qed.

Lemma missing_under_file {C} (t : gmap path (node C)) p :
  under_file t p → missing t p = NotADirectoryError.
Proof.
  intros H. unfold missing.
  by rewrite (proj2 (below_file_spec t p []) H).
Qed.

Lemma missing_plain {C} (t : gmap path (node C)) p :
  ¬ under_file t p → missing t p = FileNotFoundError.
Proof.
  intros H. unfold missing.
  destruct (below_file t [] p) eqn:E; [|done].
  destruct H. by apply (proj1 (below_file_spec t p [])).
Qed.

(** X13.  A path that is no folder.  [clean_desktop] on a path that does
    not exist raises [FileNotFoundError], or [NotADirectoryError] when a
    component on the way to it is a regular file; on a regular file it
    raises [NotADirectoryError].  The error comes from the listing of the
    planner: in each case nothing has been printed and nothing has
    changed, with or without the dry-run flag. *)
Theorem clean_desktop_not_a_folder (ord : list path → list path)
    (home desktop : path) (dry_run : bool) (ts : string) (st : dstate) :
  (fs (dworld st) !! desktop = None →
   ¬ under_file (fs (dworld st)) desktop →
   clean_desktop ord home desktop dry_run ts st
   = (Raise FileNotFoundError, st))
  ∧ (fs (dworld st) !! desktop = None →
     under_file (fs (dworld st)) desktop →
     clean_desktop ord home desktop dry_run ts st
     = (Raise NotADirectoryError, st))
  ∧ (∀ c, fs (dworld st) !! desktop = Some (File c) →
     clean_desktop ord home desktop dry_run ts st
     = (Raise NotADirectoryError, st)).
Proof.
  split; [|split].
  - intros Hd Hu. unfold clean_desktop. unfold bind at 1.
    rewrite plan_moves_eq. unfold pure_plan.
    by rewrite Hd, (missing_plain _ _ Hu).
  - intros Hd Hu. unfold clean_desktop. unfold bind at 1.
    rewrite plan_moves_eq. unfold pure_plan.
    by rewrite Hd, (missing_under_file _ _ Hu).
  - intros c Hd. unfold clean_desktop. unfold bind at 1.
    rewrite plan_moves_eq. unfold pure_plan. by rewrite Hd.
Qed.

Lemma clean_desktop_not_a_folder_witness :
  let st := dstate_of [ (example_dir ++ ["a.txt"], File "A") ] in
  clean_desktop id example_home ["nowhere"] false "20250101-120000" st
  = (Raise FileNotFoundError, st)
  ∧ clean_desktop id example_home (example_dir ++ ["a.txt"; "sub"]) false
      "20250101-120000" st
    = (Raise NotADirectoryError, st)
  ∧ clean_desktop id example_home (example_dir ++ ["a.txt"]) true
      "20250101-120000" st
    = (Raise NotADirectoryError, st).
Proof.
  intros st.
  pose proof (clean_desktop_not_a_folder id example_home ["nowhere"] false
                "20250101-120000" st) as (H1 & _ & _).
  pose proof (clean_desktop_not_a_folder id example_home
                (example_dir ++ ["a.txt"; "sub"]) false
                "20250101-120000" st) as (_ & H2 & _).
  pose proof (clean_desktop_not_a_folder id example_home
                (example_dir ++ ["a.txt"]) true "20250101-120000" st)
    as (_ & _ & H3).
  split; [|split].
  - apply H1; [by vm_compute|]. intros (k & Hk & Hr).
    destruct k as [|[|k]]; [by vm_compute in Hr|simpl in Hk; lia..].
  - apply H2; [by vm_compute|]. exists 4. split; [simpl; lia|by vm_compute].
  - apply (H3 "A"). by vm_compute.
Defined.

(** ** Running [organize] again *)

Lemma for_each_skip hf directory l : ∀ st,
  Forall (λ p, is_regular (fs (kworld st)) p = false) l →
  for_each l (organize_entry hf directory false) st = (Ok tt, st).
Proof.
  induction l as [|p l IH]; intros st Hall; [done|].
  apply Forall_cons in Hall as [Hp Hall].
  cbn [for_each]. unfold bind at 1.
  rewrite (organize_entry_skip hf directory p st Hp). by apply IH.
Qed.

(** After the loop of [organize], the only regular files left directly in
    the directory are entries that were regular before and were not in
    the listing. *)
Lemma organize_entries_leave hf directory l : ∀ st st1,
  NoDup l →
  fs (kworld st) !! directory = Some Dir →
  is_prefix_of directory hf = false →
  Forall (entry_ok directory (fs (kworld st))) l →
  for_each l (organize_entry hf directory false) st = (Ok tt, st1) →
  ∀ q, q ≠ [] → parent q = directory →
       is_regular (fs (kworld st1)) q = true →
       is_regular (fs (kworld st)) q = true ∧ q ∉ l.
Proof.
  induction l as [|p l IH]; intros st st1 Hnd Hdir Hout Hall Hrun q Hq Hpar Hr.
  { injection Hrun as <-. split; [done|]. apply not_elem_of_nil. }
  apply NoDup_cons in Hnd as [Hpl Hnd].
  apply Forall_cons in Hall as [Hokp Hall].
  set (t := fs (kworld st)) in *.
  cbn [for_each] in Hrun. unfold bind at 1 in Hrun.
  destruct (is_regular t p) eqn:Hreg.
  - apply is_regular_true in Hreg as [c Hp].
    destruct (organize_entry_moves hf directory p c st Hdir Hout Hokp Hp)
      as (st' & Hstep & _ & Hsrc & Hdest & Htd & Hframe & Hdirs).
    rewrite Hstep in Hrun. fold t in Hframe, Hdirs.
    set (t' := fs (kworld st')) in *.
    assert (Hall' : Forall (entry_ok directory t') l).
    { apply Forall_forall. intros p' Hin.
      apply (other_entry_ok hf directory p c t t'); try done.
      - by apply (proj1 (Forall_forall _ _) Hall).
      - intros ->. done. }
    destruct (IH st' st1 Hnd (Hdirs _ Hdir) Hout Hall' Hrun q Hq Hpar Hr)
      as [Hr' Hql].
    fold t' in Hr'.
    assert (Hqp : q ≠ p).
    { intros ->. unfold is_regular in Hr'. by rewrite Hsrc in Hr'. }
    split.
    + by rewrite <- (other_entry_regular hf directory p c t t').
    + apply not_elem_of_cons. by split.
  - rewrite (organize_entry_skip hf directory p st Hreg) in Hrun.
    destruct (IH st st1 Hnd Hdir Hout Hall Hrun q Hq Hpar Hr) as [Hr' Hql].
    split; [done|]. apply not_elem_of_cons. split; [|done].
    intros ->. fold t in Hr'. by rewrite Hreg in Hr'.
Qed.

(** X14.  [organize] is idempotent on a run without collisions.  When the
    directory exists, does not contain the history file, and no regular
    entry collides, [organize] returns normally, and a second [organize]
    right after it finds no regular file left in the directory: it only
    logs its heading, moves nothing and records nothing. *)
Theorem organize_twice (ord : list path → list path)
    (hf directory : path) (st : kstate) :
  (∀ l, ord l ≡ₚ l) →
  fs (kworld st) !! directory = Some Dir →
  is_prefix_of directory hf = false →
  (∀ p, p ∈ children (fs (kworld st)) directory →
        is_regular (fs (kworld st)) p = true →
        is_regular (fs (kworld st)) (target_of directory p) = false
        ∧ fs (kworld st) !! dest_of directory p = None) →
  ∃ st1,
    organize ord hf directory false st = (Ok tt, st1)
    ∧ organize ord hf directory false st1
      = (Ok tt,
         KState (kworld st1) (history st1)
           (klog st1 ++ [(INFO, OrganizingDirectory directory)])).
Proof.
  intros Hord Hdir Hout Hfree.
  set (t := fs (kworld st)) in *.
  set (l := ord (children t directory)).
  assert (Hl : ∀ p, p ∈ l ↔ p ∈ children t directory)
    by (intros p; unfold l; by rewrite Hord).
  assert (Hnd : NoDup l)
    by (unfold l; rewrite Hord; apply NoDup_children).
  assert (Hall : Forall (entry_ok directory t) l).
  { apply Forall_forall. intros p Hp. apply Hl in Hp.
    pose proof (proj1 (elem_of_children _ _ _) Hp) as (Hne & Hpar & _).
    split; [done|]. split; [done|]. by apply Hfree. }
  set (st0 := KState (kworld st) (history st)
                (klog st ++ [(INFO, OrganizingDirectory directory)])).
  destruct (organize_entries_move hf directory l st0 Hnd Hdir Hout Hall)
    as (st1 & Hrun & _ & _ & _ & Hdirs).
  cbn [kworld st0] in Hdirs. fold t in Hdirs.
  pose proof (organize_entries_leave hf directory l st0 st1
                Hnd Hdir Hout Hall Hrun) as Hleave.
  cbn [kworld st0] in Hleave. fold t in Hleave.
  exists st1. split.
  - unfold organize. unfold bind at 1. unfold logger at 1. unfold modify.
    unfold bind at 1. unfold lift at 1. cbn [kworld history klog].
    unfold iterdir. fold t. rewrite Hdir. fold l. exact Hrun.
  - unfold organize. unfold bind at 1. unfold logger at 1. unfold modify.
    unfold bind at 1. unfold lift at 1. cbn [kworld history klog].
    unfold iterdir. rewrite (Hdirs _ Hdir).
    apply for_each_skip. cbn [kworld]. apply Forall_forall. intros q Hq.
    rewrite Hord in Hq.
    apply elem_of_children in Hq as (Hne & Hpar & _).
    destruct (is_regular (fs (kworld st1)) q) eqn:Hr; [|done].
    destruct (Hleave q Hne Hpar Hr) as [Hrt Hnl].
    exfalso. apply Hnl, Hl. apply elem_of_children.
    split; [done|]. split; [done|].
    apply is_regular_true in Hrt as [c Hc]. by exists (File c).
Qed.

Lemma organize_twice_witness :
  let st := kstate_of [ (example_dir ++ ["photo.JPG"], File (Blob "P"));
                        (example_dir ++ ["notes.txt"], File (Blob "N"));
                        (example_dir ++ ["Projects"], Dir) ] [] in
  ∃ st1,
    organize id example_history_file example_dir false st = (Ok tt, st1)
    ∧ organize id example_history_file example_dir false st1
      = (Ok tt,
         KState (kworld st1) (history st1)
           (klog st1 ++ [(INFO, OrganizingDirectory example_dir)])).
Proof.
  intros st.
  apply (organize_twice id example_history_file example_dir st).
  - done.
  - by vm_compute.
  - by vm_compute.
  - intros p Hp.
    let l := eval vm_compute in (children (fs (kworld st)) example_dir) in
    change (children (fs (kworld st)) example_dir) with l in Hp.
    repeat (apply elem_of_cons in Hp as [->|Hp];
            [intros Hreg; split; by vm_compute|]).
    by apply elem_of_nil in Hp.
Defined.

(** ** The history file inside the organized directory *)

(** X15.  The history file is no exception among the entries.  When it is
    a regular file lying directly in the organized directory (the default
    when the package is run from that directory) and nothing collides with
    it, the loop of [organize] records its move, rewrites it with the
    ledger that now ends with that record, and then moves it into its
    category folder: the file is gone from its place and the moved copy
    holds the record of its own move. *)
Theorem history_file_is_moved (hf directory : path) (st : kstate)
    (c : kcontent) :
  hf ≠ [] → parent hf = directory →
  fs (kworld st) !! hf = Some (File c) →
  fs (kworld st) !! directory = Some Dir →
  is_regular (fs (kworld st)) (target_of directory hf) = false →
  fs (kworld st) !! dest_of directory hf = None →
  ∃ st',
    organize_entry hf directory false hf st = (Ok tt, st')
    ∧ history st' = history st ++ [record_of directory hf]
    ∧ fs (kworld st') !! hf = None
    ∧ fs (kworld st') !! dest_of directory hf
      = Some (File (Json (encode_history
                            (history st ++ [record_of directory hf])))).
Proof.
  intros Hne Hpar Hf Hdir Htd Hdest.
  pose proof (child_ne_dest directory hf hf Hne Hpar) as Hhd.
  pose proof (target_ne_dest directory hf hf) as Htdd.
  assert (Hht : hf ≠ target_of directory hf).
  { intros E. rewrite <- E in Htd. unfold is_regular in Htd.
    by rewrite Hf in Htd. }
  unfold organize_entry. unfold bind at 1. unfold lift at 1. unfold is_file.
  rewrite Hf.
  assert (Hst : KState (kworld st) (history st) (klog st) = st)
    by by destruct st.
  rewrite Hst, move_file_unfold. fold (target_of directory hf).
  fold (dest_of directory hf).
  set (td := target_of directory hf) in *.
  set (dest := dest_of directory hf) in *.
  set (t := fs (kworld st)) in *.
  assert (Hdt : dest ≠ td) by (intros E; by apply Htdd).
  assert (∃ w1, mkdir_exist_ok td (kworld st) = (Ok tt, w1)
                ∧ fs w1 !! td = Some Dir
                ∧ (∀ q, q ≠ td → fs w1 !! q = t !! q))
    as (w1 & -> & Htd1 & Hfr1).
  { unfold mkdir_exist_ok, commit, modify. fold t.
    unfold is_regular in Htd.
    destruct (t !! td) as [[c'|]|] eqn:E; [done| |].
    - exists (kworld st). by repeat split.
    - assert (Hptd : parent td = directory)
        by (unfold td, target_of; apply parent_joinpath).
      rewrite Hptd, Hdir.
      eexists. split; [reflexivity|]. simpl. split.
      + by rewrite lookup_insert_eq.
      + intros q Hq. by rewrite lookup_insert_ne. }
  cbv zeta.
  set (st0 := KState w1 (history st ++ [(hf, dest)]) (klog st)).
  assert (Hw : writable (fs (kworld st0)) hf).
  { split; cbn [kworld st0].
    - rewrite Hfr1 by done. by rewrite Hf.
    - rewrite Hpar. destruct (decide (directory = td)) as [E|E].
      + by rewrite E.
      + rewrite Hfr1 by done. done. }
  rewrite (saved_writable hf st0 Hw). cbn [kworld history klog st0 fs ops].
  set (j := Json (encode_history (history st ++ [(hf, dest)]))).
  rewrite (os_rename_free hf dest _ j).
  - eexists. split; [reflexivity|]. cbn [kworld history fs]. split; [done|].
    split.
    + rewrite lookup_insert_ne by done. by rewrite lookup_delete_eq.
    + by rewrite lookup_insert_eq.
  - done.
  - cbn [fs]. by rewrite lookup_insert_eq.
  - cbn [fs]. rewrite lookup_insert_ne by done. rewrite Hfr1 by done. done.
  - cbn [fs]. assert (Hpd : parent dest = td)
      by (unfold dest, dest_of; apply parent_joinpath).
    rewrite Hpd. rewrite lookup_insert_ne by done. done.
Qed.

Lemma history_file_is_moved_witness :
  let hf := example_dir ++ [".file_organizer_history.json"] in
  let st := kstate_of [ (hf, File (Json (JArr []))) ] [] in
  ∃ st',
    organize_entry hf example_dir false hf st = (Ok tt, st')
    ∧ fs (kworld st') !! hf = None
    ∧ fs (kworld st')
        !! (example_dir ++ ["Code"; ".file_organizer_history.json"])
      = Some (File (Json (encode_history
                            [(hf, example_dir
                                  ++ ["Code"; ".file_organizer_history.json"])]))).
Proof.
  intros hf st.
  destruct (history_file_is_moved hf example_dir st (Json (JArr [])))
    as (st' & Hrun & _ & Hgone & Hthere); try (by vm_compute).
  exists st'. split; [exact Hrun|]. split; [exact Hgone|exact Hthere].
Defined.

(** ** A real run of the script *)

Lemma child_ne_moved desktop p q :
  p ≠ [] → parent p = desktop → p ≠ moved_to desktop q.
Proof.
  intros Hne Hp. rewrite (child_eq _ _ Hne Hp) at 1.
  unfold moved_to, folder_of, joinpath. intros E.
  apply (f_equal length) in E. rewrite !length_app in E. simpl in E. lia.
Qed.

Lemma folder_ne_moved desktop p q : folder_of desktop p ≠ moved_to desktop q.
Proof.
  unfold moved_to, folder_of, joinpath. intros E.
  apply (f_equal length) in E. rewrite !length_app in E. simpl in E. lia.
Qed.

Lemma moved_to_inj desktop p q :
  p ≠ [] → parent p = desktop → q ≠ [] → parent q = desktop →
  moved_to desktop p = moved_to desktop q → p = q.
Proof.
  intros Hp1 Hp2 Hq1 Hq2 E. unfold moved_to in E.
  apply joinpath_inj in E as [_ En].
  rewrite (child_eq _ _ Hp1 Hp2), (child_eq _ _ Hq1 Hq2). by rewrite En.
Qed.

Lemma folder_outside desktop x p :
  is_prefix_of desktop x = false → folder_of desktop p ≠ x.
Proof. intros Hout. by apply outside_ne. Qed.

Lemma moved_outside desktop x p :
  is_prefix_of desktop x = false → moved_to desktop p ≠ x.
Proof.
  intros Hout. unfold moved_to, folder_of, joinpath. rewrite <- app_assoc.
  by apply outside_ne.
Qed.

(** [shutil.move] of a regular file to a free name in an existing
    directory is one rename. *)
Lemma shutil_move_free {C} src dst (w : world C) c :
  src ≠ dst →
  fs w !! src = Some (File c) → fs w !! dst = None →
  fs w !! parent dst = Some Dir →
  shutil_move src dst w =
    (Ok dst, World (<[dst := File c]> (delete src (fs w)))
               (ops w ++ [Rename src dst])).
Proof.
  intros Hne Hs Hd Hp. unfold shutil_move.
  unfold bind at 1. unfold is_dir at 1. rewrite Hd. cbn [andb].
  unfold bind at 1. unfold ret at 1.
  unfold bind at 1. unfold try_except.
  by rewrite (os_rename_free src dst w c).
Qed.

(** One file of the plan without a collision is moved to its
    destination; nothing else changes but the category folder, which is
    created when it is missing. *)
Lemma move_entry_moves desktop p c st :
  fs (dworld st) !! desktop = Some Dir →
  file_ok desktop (fs (dworld st)) p →
  fs (dworld st) !! p = Some (File c) →
  ∃ st',
    move_entry (move_of desktop p) st = (Ok tt, st')
    ∧ stdout st' = stdout st ++ [moved_line desktop p]
    ∧ fs (dworld st') !! p = None
    ∧ fs (dworld st') !! moved_to desktop p = Some (File c)
    ∧ fs (dworld st') !! folder_of desktop p = Some Dir
    ∧ (∀ q, q ≠ p → q ≠ moved_to desktop p → q ≠ folder_of desktop p →
            fs (dworld st') !! q = fs (dworld st) !! q)
    ∧ (∀ q, fs (dworld st) !! q = Some Dir →
            fs (dworld st') !! q = Some Dir).
Proof.
  intros Hdir (Hne & Hpar & _ & Htd & Hdest) Hp.
  pose proof (child_ne_moved desktop p p Hne Hpar) as Hpd.
  pose proof (folder_ne_moved desktop p p) as Htdd.
  assert (Hpt : p ≠ folder_of desktop p).
  { intros E. rewrite <- E in Htd. unfold is_regular in Htd.
    by rewrite Hp in Htd. }
  unfold move_entry, move_of. unfold bind at 1. unfold dlift at 1.
  fold (moved_to desktop p).
  set (td := folder_of desktop p) in *.
  set (dest := moved_to desktop p) in *.
  set (t := fs (dworld st)) in *.
  assert (∃ w1, mkdir_exist_ok td (dworld st) = (Ok tt, w1)
                ∧ fs w1 !! td = Some Dir
                ∧ (∀ q, q ≠ td → fs w1 !! q = t !! q)
                ∧ (∀ q, t !! q = Some Dir → fs w1 !! q = Some Dir))
    as (w1 & -> & Htd1 & Hfr1 & Hd1).
  { unfold mkdir_exist_ok, commit, modify. fold t.
    unfold is_regular in Htd.
    destruct (t !! td) as [[c'|]|] eqn:E; [done| |].
    - exists (dworld st). by repeat split.
    - assert (Hptd : parent td = desktop)
        by (unfold td, folder_of; apply parent_joinpath).
      rewrite Hptd, Hdir.
      eexists. split; [reflexivity|]. simpl. split; [|split].
      + by rewrite lookup_insert_eq.
      + intros q Hq. by rewrite lookup_insert_ne.
      + intros q Hq. rewrite lookup_insert_ne; [done|].
        intros <-. congruence. }
  unfold bind at 1. unfold dlift at 1. cbn [dworld stdout].
  rewrite (shutil_move_free p dest w1 c).
  - unfold print, modify. cbn [dworld stdout].
    eexists. split; [reflexivity|]. cbn [dworld stdout fs].
    split; [|split; [|split; [|split; [|split]]]].
    + unfold moved_line, td, folder_of. by rewrite name_joinpath.
    + rewrite lookup_insert_ne by done. by rewrite lookup_delete_eq.
    + by rewrite lookup_insert_eq.
    + rewrite lookup_insert_ne by done. rewrite lookup_delete_ne by done.
      done.
    + intros q Hqp Hqd Hqt. rewrite lookup_insert_ne by done.
      rewrite lookup_delete_ne by done. by apply Hfr1.
    + intros q Hq. rewrite lookup_insert_ne.
      * rewrite lookup_delete_ne; [by apply Hd1|]. intros <-. congruence.
      * intros <-. congruence.
  - done.
  - rewrite Hfr1 by done. done.
  - rewrite Hfr1 by done. done.
  - assert (Hpd' : parent dest = td)
      by (unfold dest, moved_to; apply parent_joinpath).
    by rewrite Hpd'.
Qed.

(** After a file has been moved, the other files of the plan are as they
    were. *)
Lemma other_file_ok desktop p c t t' p' :
  t !! p = Some (File c) →
  file_ok desktop t p →
  t' !! p = None →
  t' !! folder_of desktop p = Some Dir →
  (∀ q, q ≠ p → q ≠ moved_to desktop p → q ≠ folder_of desktop p →
        t' !! q = t !! q) →
  file_ok desktop t p' → p' ≠ p →
  file_ok desktop t' p' ∧ t' !! p' = t !! p'.
Proof.
  intros Hp (Hne & Hpar & _ & Htd & Hdest) Hsrc Hdir' Hframe
    (Hne' & Hpar' & Hr' & Htd' & Hdest') Hpp.
  assert (Hsame : t' !! p' = t !! p').
  { apply Hframe; [done|by apply child_ne_moved|].
    intros E. rewrite E in Hr'. by rewrite Htd in Hr'. }
  split; [|done].
  split; [done|]. split; [done|]. split; [|split].
  - unfold is_regular. by rewrite Hsame.
  - destruct (decide (folder_of desktop p' = folder_of desktop p)) as [E|E].
    + rewrite E. unfold is_regular. by rewrite Hdir'.
    + unfold is_regular. rewrite Hframe; [exact Htd'| | |done].
      * intros E'. rewrite E' in Htd'. unfold is_regular in Htd'.
        by rewrite Hp in Htd'.
      * apply folder_ne_moved.
  - rewrite Hframe; [done| | |].
    + intros E. by apply (child_ne_moved desktop p p').
    + intros E. apply Hpp. by apply (moved_to_inj desktop).
    + intros E. by apply (folder_ne_moved desktop p p').
Qed.

(** The loop of the real move over a plan without collisions. *)
Lemma move_entries_move desktop l : ∀ st,
  NoDup l →
  fs (dworld st) !! desktop = Some Dir →
  Forall (file_ok desktop (fs (dworld st))) l →
  ∃ st1,
    for_each (map (move_of desktop) l) move_entry st = (Ok tt, st1)
    ∧ stdout st1 = stdout st ++ map (moved_line desktop) l
    ∧ (∀ p, p ∈ l →
            fs (dworld st1) !! p = None
            ∧ fs (dworld st1) !! moved_to desktop p = fs (dworld st) !! p)
    ∧ (∀ q, (∀ p, p ∈ l → q ≠ p ∧ q ≠ moved_to desktop p
                           ∧ q ≠ folder_of desktop p) →
            fs (dworld st1) !! q = fs (dworld st) !! q)
    ∧ (∀ q, fs (dworld st) !! q = Some Dir →
            fs (dworld st1) !! q = Some Dir).
Proof.
  induction l as [|p l IH]; intros st Hnd Hdir Hall.
  { exists st. split; [done|]. simpl. rewrite app_nil_r.
    split; [done|]. split; [intros p Hp; by apply elem_of_nil in Hp|].
    by split. }
  apply NoDup_cons in Hnd as [Hpl Hnd].
  apply Forall_cons in Hall as [Hokp Hall].
  set (t := fs (dworld st)) in *.
  pose proof Hokp as (Hne & Hpar & Hreg & Htreg & Hdfree).
  apply is_regular_true in Hreg as [c Hp].
  destruct (move_entry_moves desktop p c st Hdir Hokp Hp)
    as (st' & Hrun & Hout & Hsrc & Hdest & Htd & Hframe & Hdirs).
  fold t in Hframe, Hdirs.
  set (t' := fs (dworld st')) in *.
  assert (Hother : ∀ p', p' ∈ l →
            file_ok desktop t' p' ∧ t' !! p' = t !! p').
  { intros p' Hin.
    apply (other_file_ok desktop p c t t'); try done.
    - by apply (proj1 (Forall_forall _ _) Hall).
    - intros ->. done. }
  assert (Hall' : Forall (file_ok desktop t') l).
  { apply Forall_forall. intros p' Hin. by apply Hother. }
  destruct (IH st' Hnd (Hdirs _ Hdir) Hall')
    as (st1 & Hrun1 & Hout1 & Hmoved1 & Hframe1 & Hdirs1).
  fold t' in Hmoved1, Hframe1, Hdirs1.
  exists st1. split; [|split; [|split; [|split]]].
  - cbn [map for_each]. unfold bind at 1. by rewrite Hrun.
  - rewrite Hout1, Hout. cbn [map]. by rewrite <- app_assoc.
  - intros p' Hin. apply elem_of_cons in Hin as [->|Hin].
    + split.
      * rewrite Hframe1; [done|].
        intros p' Hin'.
        pose proof (proj1 (Forall_forall _ _) Hall p' Hin')
          as (Hne' & Hpar' & Hr' & Ht' & Hd').
        split; [intros ->; done|]. split.
        -- by apply child_ne_moved.
        -- intros E. rewrite <- E in Ht'. unfold is_regular in Ht'.
           by rewrite Hp in Ht'.
      * rewrite Hframe1; [by rewrite Hdest, Hp|].
        intros p' Hin'.
        pose proof (proj1 (Forall_forall _ _) Hall p' Hin')
          as (Hne' & Hpar' & Hr' & Ht' & Hd').
        split; [|split].
        -- intros E. by apply (child_ne_moved desktop p' p).
        -- intros E. apply (moved_to_inj desktop) in E; try done.
           subst p'. done.
        -- intros E. by apply (folder_ne_moved desktop p' p).
    + destruct (Hmoved1 p' Hin) as [H1 H2]. split; [done|].
      rewrite H2. by apply Hother.
  - intros q Hav. rewrite Hframe1.
    + destruct (Hav p) as (H1 & H2 & H3); [by left|]. by apply Hframe.
    + intros p' Hin. apply Hav. by right.
  - intros q Hqd. by apply Hdirs1, Hdirs.
Qed.

(** ** The log directory *)

Lemma mkdir_parents_one {C} p a (w : world C) :
  fs w !! p = Some Dir →
  fs w !! joinpath p a = None →
  mkdir_parents (joinpath p a) w
  = (Ok tt, World (<[joinpath p a := Dir]> (fs w))
              (ops w ++ [Mkdir (joinpath p a)])).
Proof.
  intros Hp Ha. unfold mkdir_parents, joinpath in *.
  rewrite rev_app_distr. cbn [rev app].
  assert (E1 : rev (a :: rev p) = p ++ [a])
    by (cbn [rev]; by rewrite rev_involutive).
  cbn [mkdir_parents_rev]. rewrite E1, Ha, rev_involutive, Hp.
  reflexivity.
Qed.

(** [get_log_dir] creates what is missing of [~/.desktop-cleaner/logs]
    and touches nothing else. *)
Lemma mkdir_log_dir {C} home (w : world C) :
  fs w !! home = Some Dir →
  is_regular (fs w) (joinpath home ".desktop-cleaner") = false →
  is_regular (fs w) (log_dir_of home) = false →
  ∃ w',
    mkdir_parents (log_dir_of home) w = (Ok tt, w')
    ∧ fs w' !! log_dir_of home = Some Dir
    ∧ (∀ q, q ≠ joinpath home ".desktop-cleaner" → q ≠ log_dir_of home →
            fs w' !! q = fs w !! q)
    ∧ (∀ q y, fs w !! q = Some y → fs w' !! q = Some y).
Proof.
  intros Hhome Hdc Hlogs. unfold is_regular in Hdc, Hlogs.
  set (dc := joinpath home ".desktop-cleaner") in *.
  assert (Hne : dc ≠ log_dir_of home).
  { unfold log_dir_of. fold dc. intros E. symmetry in E.
    by apply joinpath_ne_self in E. }
  destruct (fs w !! log_dir_of home) as [[c|]|] eqn:El; [done| |].
  { exists w. split; [by apply mkdir_parents_existing|]. by repeat split. }
  destruct (fs w !! dc) as [[c|]|] eqn:Ed; [done| |].
  - unfold log_dir_of in *. fold dc in El |- *.
    rewrite (mkdir_parents_one dc "logs" w Ed El).
    eexists. split; [reflexivity|]. cbn [fs]. split; [|split].
    + by rewrite lookup_insert_eq.
    + intros q _ Hq. by rewrite lookup_insert_ne.
    + intros q y Hq. rewrite lookup_insert_ne; [done|]. congruence.
  - unfold log_dir_of in *. fold dc in El |- *. unfold dc in *.
    rewrite (mkdir_parents_two home ".desktop-cleaner" "logs" w Hhome Ed El).
    eexists. split; [reflexivity|]. cbn [fs]. split; [|split].
    + by rewrite lookup_insert_eq.
    + intros q Hq1 Hq2. rewrite lookup_insert_ne by done.
      by rewrite lookup_insert_ne.
    + intros q y Hq. rewrite lookup_insert_ne by congruence.
      rewrite lookup_insert_ne; [done|]. congruence.
Qed.

(** [write_log] on a plan that is not empty: the log directory is made
    ready and the log is written; no other path changes. *)
Lemma write_log_ok home desktop m moves ts st :
  fs (dworld st) !! home = Some Dir →
  is_regular (fs (dworld st)) (joinpath home ".desktop-cleaner") = false →
  is_regular (fs (dworld st)) (log_dir_of home) = false →
  fs (dworld st) !! log_path_of home ts ≠ Some Dir →
  forallb valid_utf8 (log_lines desktop (m :: moves)) = true →
  ∃ st',
    write_log home desktop (m :: moves) ts st
    = (Ok (Some (log_path_of home ts)), st')
    ∧ stdout st' = stdout st
    ∧ fs (dworld st') !! log_path_of home ts
      = Some (File (log_text desktop (m :: moves)))
    ∧ fs (dworld st') !! log_dir_of home = Some Dir
    ∧ (∀ q, q ≠ log_path_of home ts →
            q ≠ joinpath home ".desktop-cleaner" → q ≠ log_dir_of home →
            fs (dworld st') !! q = fs (dworld st) !! q)
    ∧ (∀ q y, q ≠ log_path_of home ts →
              fs (dworld st) !! q = Some y → fs (dworld st') !! q = Some y).
Proof.
  intros Hhome Hdc Hlogs Hlp Hv.
  destruct (mkdir_log_dir home (dworld st) Hhome Hdc Hlogs)
    as (w1 & Hmk & Hdir1 & Hfr1 & Hmono1).
  set (lp := log_path_of home ts) in *.
  assert (Hlp_dc : lp ≠ joinpath home ".desktop-cleaner").
  { unfold lp, log_path_of, log_dir_of, joinpath. intros E.
    apply (f_equal length) in E. rewrite !length_app in E. simpl in E. lia. }
  assert (Hlp_ld : lp ≠ log_dir_of home)
    by (unfold lp, log_path_of; apply joinpath_ne_self).
  unfold write_log. unfold bind at 1. unfold get_log_dir.
  unfold bind at 1. unfold dlift at 1. fold (log_dir_of home).
  rewrite Hmk. unfold ret at 1. cbv zeta.
  rewrite Hv, (written_lines_all _ Hv), concat_log_lines.
  unfold bind at 1. unfold dlift at 1. cbn [dworld stdout].
  fold (log_path_of home ts). fold lp.
  assert (Hlp1 : fs w1 !! lp = fs (dworld st) !! lp) by (by apply Hfr1).
  assert (Hpar : parent lp = log_dir_of home)
    by (unfold lp, log_path_of; apply parent_joinpath).
  unfold write_file, commit, modify. rewrite Hlp1, Hpar, Hdir1.
  destruct (fs (dworld st) !! lp) as [[c|]|] eqn:E; [|done|].
  - eexists. split; [reflexivity|]. cbn [dworld stdout fs].
    split; [done|]. split; [by rewrite lookup_insert_eq|].
    split; [by rewrite lookup_insert_ne|]. split.
    + intros q Hq1 Hq2 Hq3. rewrite lookup_insert_ne by done.
      by apply Hfr1.
    + intros q y Hq Hy. rewrite lookup_insert_ne by done. by apply Hmono1.
  - eexists. split; [reflexivity|]. cbn [dworld stdout fs].
    split; [done|]. split; [by rewrite lookup_insert_eq|].
    split; [by rewrite lookup_insert_ne|]. split.
    + intros q Hq1 Hq2 Hq3. rewrite lookup_insert_ne by done.
      by apply Hfr1.
    + intros q y Hq Hy. rewrite lookup_insert_ne by done. by apply Hmono1.
Qed.

Lemma prefix_snoc_inv' {A} (l k : list A) x :
  l `prefix_of` k ++ [x] → l `prefix_of` k ∨ l = k ++ [x].
Proof.
  intros [y Hy]. destruct y as [|z y _] using rev_ind.
  - right. by rewrite app_nil_r in Hy.
  - left. rewrite app_assoc in Hy. apply app_inj_tail in Hy as [-> _].
    by exists y.
Qed.

Lemma outside_joinpath desktop d n :
  is_prefix_of desktop d = false → joinpath d n ≠ desktop →
  is_prefix_of desktop (joinpath d n) = false.
Proof.
  unfold is_prefix_of. intros H Hne.
  apply bool_decide_eq_false in H. apply bool_decide_eq_false.
  intros [Hp| ->]%prefix_snoc_inv'; [by apply H|]. by apply Hne.
Qed.

Lemma plan_files_spec ord t desktop p :
  (∀ l, ord l ≡ₚ l) →
  p ∈ plan_files ord t desktop
  ↔ p ∈ children t desktop ∧ eligible t p = true.
Proof.
  intros Hord. unfold plan_files. rewrite list_elem_of_filter, Hord. tauto.
Qed.

Lemma eligible_regular (t : gmap path (node string)) desktop p :
  p ∈ children t desktop → eligible t p = true → is_regular t p = true.
Proof.
  intros (_ & _ & [n Hn])%elem_of_children. unfold eligible, is_regular.
  rewrite Hn. by destruct n.
Qed.

Lemma plan_files_ok ord t desktop :
  (∀ l, ord l ≡ₚ l) → collision_free t desktop →
  NoDup (plan_files ord t desktop)
  ∧ Forall (file_ok desktop t) (plan_files ord t desktop).
Proof.
  intros Hord Hfree. split.
  - unfold plan_files. apply NoDup_filter. rewrite Hord.
    apply NoDup_children.
  - apply Forall_forall. intros p [Hp He]%plan_files_spec; [|done].
    pose proof (proj1 (elem_of_children _ _ _) Hp) as (Hne & Hpar & _).
    destruct (Hfree p Hp He) as [H1 H2].
    split; [done|]. split; [done|].
    split; [by apply (eligible_regular t desktop)|]. by split.
Qed.

Lemma pure_plan_files ord t desktop :
  t !! desktop = Some Dir →
  pure_plan ord t desktop
  = Ok (map (move_of desktop) (plan_files ord t desktop)).
Proof. intros Hd. unfold pure_plan. by rewrite Hd. Qed.

(** A real run whose plan is not empty, whose moves go through and
    whose log is written. *)
Lemma clean_desktop_real ord home desktop ts st m moves st1 st2 lp :
  pure_plan ord (fs (dworld st)) desktop = Ok (m :: moves) →
  for_each (m :: moves) move_entry st = (Ok tt, st1) →
  write_log home desktop (m :: moves) ts st1 = (Ok (Some lp), st2) →
  clean_desktop ord home desktop false ts st
  = (Ok (length (m :: moves)),
     DState (dworld st2)
       (stdout st2 ++ [LogWrittenTo lp; CleanDone (length (m :: moves))])).
Proof.
  intros Hplan Hloop Hlog. unfold clean_desktop. unfold bind at 1.
  rewrite plan_moves_eq, Hplan. unfold bind at 1. rewrite Hloop.
  unfold bind at 1. rewrite Hlog.
  unfold bind, print, modify, ret. cbn [dworld stdout].
  by rewrite <- app_assoc.
Qed.

Lemma log_child_apart home desktop q p :
  is_prefix_of desktop (log_dir_of home) = false →
  q ≠ [] → parent q = log_dir_of home →
  p ≠ [] → parent p = desktop →
  q ≠ p ∧ q ≠ moved_to desktop p ∧ q ≠ folder_of desktop p.
Proof.
  intros Hout Hq Hqp Hp Hpp.
  assert (Hne : desktop ≠ log_dir_of home).
  { intros E. unfold is_prefix_of in Hout.
    apply bool_decide_eq_false in Hout. apply Hout. by rewrite E. }
  split; [|split].
  - intros E. apply Hne. by rewrite <- Hpp, <- Hqp, E.
  - intros E. apply (f_equal parent) in E. rewrite Hqp in E.
    unfold moved_to in E. rewrite parent_joinpath in E.
    by apply (folder_outside desktop (log_dir_of home) p Hout).
  - intros E. apply (f_equal parent) in E. rewrite Hqp in E.
    unfold folder_of in E. rewrite parent_joinpath in E. by apply Hne.
Qed.

(** A real run of [clean_desktop] on a folder without collisions. *)
Lemma clean_desktop_run ord home desktop ts st :
  (∀ l, ord l ≡ₚ l) →
  fs (dworld st) !! desktop = Some Dir →
  collision_free (fs (dworld st)) desktop →
  log_dir_ready (fs (dworld st)) home desktop ts →
  plan_files ord (fs (dworld st)) desktop ≠ [] →
  forallb valid_utf8
    (log_lines desktop
       (map (move_of desktop) (plan_files ord (fs (dworld st)) desktop)))
  = true →
  ∃ st',
    clean_desktop ord home desktop false ts st
    = (Ok (length (plan_files ord (fs (dworld st)) desktop)), st')
    ∧ (∀ p, p ∈ children (fs (dworld st)) desktop →
            eligible (fs (dworld st)) p = true →
            fs (dworld st') !! p = None
            ∧ fs (dworld st') !! moved_to desktop p = fs (dworld st) !! p)
    ∧ fs (dworld st') !! log_path_of home ts
      = Some (File (log_text desktop
                      (map (move_of desktop)
                         (plan_files ord (fs (dworld st)) desktop))))
    ∧ fs (dworld st') !! log_dir_of home = Some Dir
    ∧ (∀ q, fs (dworld st) !! q = Some Dir →
            fs (dworld st') !! q = Some Dir)
    ∧ (∀ q c, fs (dworld st) !! q = Some (File c) →
              q ≠ log_path_of home ts →
              ¬ (q ∈ children (fs (dworld st)) desktop
                 ∧ eligible (fs (dworld st)) q = true) →
              fs (dworld st') !! q = Some (File c))
    ∧ (∀ q, q ≠ [] → parent q = log_dir_of home →
            q ≠ log_path_of home ts →
            fs (dworld st') !! q = fs (dworld st) !! q).
Proof.
  intros Hord Hdir Hfree (Hhome & Hdc & Hlogs & Hlp & Hout) Hsome Hv.
  set (t := fs (dworld st)) in *.
  set (files := plan_files ord t desktop) in *.
  set (lp := log_path_of home ts) in *.
  set (dc := joinpath home ".desktop-cleaner") in *.
  destruct (plan_files_ok ord t desktop Hord Hfree) as [Hnd Hall].
  fold files in Hnd, Hall.
  destruct (move_entries_move desktop files st Hnd Hdir Hall)
    as (st1 & Hloop & _ & Hmoved & Hframe & Hdirs).
  fold t in Hmoved, Hframe, Hdirs.
  assert (Hin : ∀ p, p ∈ files → p ≠ [] ∧ parent p = desktop).
  { intros p Hp. pose proof (proj1 (Forall_forall _ _) Hall p Hp)
      as (H1 & H2 & _). by split. }
  assert (Houtside : ∀ q, is_prefix_of desktop q = false →
                          fs (dworld st1) !! q = t !! q).
  { intros q Hq. apply Hframe. intros p Hp. destruct (Hin p Hp) as [H1 H2].
    split; [|split].
    - intros ->. by apply (child_outside desktop p p Hq).
    - intros E. by apply (moved_outside desktop q p Hq).
    - intros E. by apply (folder_outside desktop q p Hq). }
  assert (Hout_dc : is_prefix_of desktop dc = false).
  { unfold is_prefix_of in *. apply bool_decide_eq_false.
    apply bool_decide_eq_false in Hout. intros Hp. apply Hout.
    unfold log_dir_of, joinpath. fold dc. by apply prefix_app_r. }
  assert (Hout_lp : is_prefix_of desktop lp = false).
  { unfold lp, log_path_of. apply outside_joinpath; [done|].
    fold (log_path_of home ts). fold lp. intros E. apply Hlp.
    by rewrite E. }
  assert (Hlp_dc : lp ≠ dc).
  { unfold lp, dc, log_path_of, log_dir_of, joinpath. intros E.
    apply (f_equal length) in E. rewrite !length_app in E. simpl in E. lia. }
  assert (Hlp_ld : lp ≠ log_dir_of home)
    by (unfold lp, log_path_of; apply joinpath_ne_self).
  destruct files as [|p0 rest] eqn:Hfiles; [done|].
  rewrite <- Hfiles in *.
  assert (Hplan : pure_plan ord t desktop
                  = Ok (move_of desktop p0 :: map (move_of desktop) rest)).
  { rewrite (pure_plan_files ord t desktop Hdir). fold files.
    by rewrite Hfiles. }
  assert (Hloop' : for_each (move_of desktop p0
                             :: map (move_of desktop) rest) move_entry st
                   = (Ok tt, st1)).
  { rewrite <- Hloop. by rewrite Hfiles. }
  destruct (write_log_ok home desktop (move_of desktop p0)
              (map (move_of desktop) rest) ts st1)
    as (st2 & Hlog & _ & Hlp2 & Hld2 & Hfr2 & Hmono2).
  { by apply Hdirs. }
  { unfold is_regular. fold dc. by rewrite (Houtside dc Hout_dc). }
  { unfold is_regular. by rewrite (Houtside _ Hout). }
  { fold lp. by rewrite (Houtside lp Hout_lp). }
  { rewrite Hfiles in Hv. exact Hv. }
  fold lp in Hlog, Hlp2, Hfr2, Hmono2. fold dc in Hfr2.
  rewrite (clean_desktop_real ord home desktop ts st _ _ st1 st2 lp
             Hplan Hloop' Hlog).
  eexists. split.
  { f_equal. f_equal. cbn [length]. rewrite length_map.
    by rewrite Hfiles. }
  cbn [dworld].
  split; [|split; [|split; [|split; [|split]]]].
  - intros p Hp He.
    assert (Hpf : p ∈ files) by (by apply plan_files_spec).
    destruct (Hin p Hpf) as [Hne Hpar].
    destruct (Hmoved p Hpf) as [H1 H2]. split.
    + rewrite Hfr2; [done| | |].
      * by apply (child_outside desktop lp p).
      * by apply (child_outside desktop dc p).
      * by apply (child_outside desktop (log_dir_of home) p).
    + rewrite Hfr2; [done| | |].
      * by apply moved_outside.
      * by apply moved_outside.
      * by apply moved_outside.
  - rewrite Hlp2. by rewrite Hfiles.
  - done.
  - intros q Hq. apply Hmono2; [|by apply Hdirs].
    intros ->. by apply Hlp.
  - intros q c Hq Hqlp Hnot. apply Hmono2; [done|].
    rewrite Hframe; [done|]. intros p Hp.
    pose proof (proj1 (Forall_forall _ _) Hall p Hp)
      as (_ & _ & _ & Htd & Hd).
    split; [|split].
    + intros ->. apply Hnot.
      by apply (proj1 (plan_files_spec ord t desktop p Hord)).
    + intros ->. congruence.
    + intros ->. unfold is_regular in Htd. by rewrite Hq in Htd.
  - intros q Hq Hqp Hqlp.
    assert (Hq_dc : q ≠ dc).
    { intros E. apply (f_equal length) in Hqp. rewrite E in Hqp.
      unfold parent, dc, log_dir_of, joinpath in Hqp.
      rewrite removelast_last in Hqp. rewrite !length_app in Hqp.
      simpl in Hqp. lia. }
    assert (Hq_ld : q ≠ log_dir_of home).
    { intros E. apply (f_equal length) in Hqp. rewrite E in Hqp.
      unfold parent, log_dir_of, joinpath in Hqp.
      rewrite removelast_last in Hqp. rewrite !length_app in Hqp.
      simpl in Hqp. lia. }
    rewrite Hfr2 by done. apply Hframe. intros p Hp.
    destruct (Hin p Hp) as [Hne Hpar].
    by apply (log_child_apart home desktop).
Qed.

Lemma classify_file_valid p : valid_utf8 (classify_file p) = true.
Proof.
  unfold classify_file.
  pose proof (first_owner_range CATEGORIES (lower (suffix p)) "Other") as H.
  revert H. generalize (first_owner CATEGORIES (lower (suffix p)) "Other").
  intros c Hc. cbn in Hc.
  repeat (apply elem_of_cons in Hc as [->|Hc]; [done|]).
  by apply elem_of_nil in Hc.
Qed.

Lemma encodable_lines ord t home desktop :
  (∀ l, ord l ≡ₚ l) →
  encodable t home desktop →
  forallb valid_utf8
    (log_lines desktop (map (move_of desktop) (plan_files ord t desktop)))
  = true.
Proof.
  intros Hord (_ & Hd & Hn). unfold log_lines. cbn [forallb].
  apply andb_true_iff. split.
  - apply valid_utf8_app; [done|].
    apply valid_utf8_app; [by apply valid_utf8_str_of_path|done].
  - apply forallb_forall. intros l Hl.
    apply in_map_iff in Hl as (m & <- & Hin).
    apply in_map_iff in Hin as (p & <- & Hp).
    apply list_elem_of_In in Hp.
    apply (proj1 (plan_files_spec ord t desktop p Hord)) in Hp as [Hc He].
    pose proof (proj1 (elem_of_children _ _ _) Hc) as (Hne & Hpar & _).
    pose proof (Hn p Hc He) as Hname.
    assert (Hp : forallb valid_utf8 p = true).
    { rewrite (child_eq desktop p Hne Hpar). rewrite forallb_app, Hd.
      cbn [forallb]. by rewrite Hname. }
    cbn [move_of fst snd].
    apply valid_utf8_app; [by apply valid_utf8_str_of_path|].
    apply valid_utf8_app; [done|].
    apply valid_utf8_app; [|done]. apply valid_utf8_str_of_path.
    unfold joinpath, folder_of, joinpath. rewrite !forallb_app, Hd.
    cbn [forallb]. by rewrite classify_file_valid, Hname.
Qed.

(** X16.  A real run of the script.  When the folder exists, at least one
    of its entries is eligible, no eligible file collides (no regular
    file has the name of its category folder and its destination is
    free), the paths involved are valid UTF-8, and the log directory
    exists or can be created outside the folder, [clean_desktop] returns
    the number of eligible files; every one of them is gone from the
    folder and lies in its category folder with its content; the log of
    the run holds the plan; directories, dot files and every other file
    are where they were. *)
Theorem clean_desktop_moves_files (ord : list path → list path)
    (home desktop : path) (ts : string) (st : dstate) :
  (∀ l, ord l ≡ₚ l) →
  fs (dworld st) !! desktop = Some Dir →
  collision_free (fs (dworld st)) desktop →
  log_dir_ready (fs (dworld st)) home desktop ts →
  encodable (fs (dworld st)) home desktop →
  plan_files ord (fs (dworld st)) desktop ≠ [] →
  ∃ st',
    clean_desktop ord home desktop false ts st
    = (Ok (length (plan_files ord (fs (dworld st)) desktop)), st')
    ∧ (∀ p, p ∈ children (fs (dworld st)) desktop →
            eligible (fs (dworld st)) p = true →
            fs (dworld st') !! p = None
            ∧ fs (dworld st') !! moved_to desktop p = fs (dworld st) !! p)
    ∧ fs (dworld st') !! log_path_of home ts
      = Some (File (log_text desktop
                      (map (move_of desktop)
                         (plan_files ord (fs (dworld st)) desktop))))
    ∧ (∀ q, fs (dworld st) !! q = Some Dir →
            fs (dworld st') !! q = Some Dir)
    ∧ (∀ q c, fs (dworld st) !! q = Some (File c) →
              q ≠ log_path_of home ts →
              ¬ (q ∈ children (fs (dworld st)) desktop
                 ∧ eligible (fs (dworld st)) q = true) →
              fs (dworld st') !! q = Some (File c)).
Proof.
  intros Hord Hdir Hfree Hready Henc Hsome.
  destruct (clean_desktop_run ord home desktop ts st
              Hord Hdir Hfree Hready Hsome
              (encodable_lines ord _ home desktop Hord Henc))
    as (st' & H1 & H2 & H3 & _ & H4 & H5 & _).
  exists st'. split; [exact H1|]. split; [exact H2|]. split; [exact H3|].
  split; [exact H4|exact H5].
Qed.

Lemma clean_desktop_moves_files_witness :
  let a := example_dir ++ ["a.txt"] in
  let st := dstate_of [ (a, File "A");
                        (example_dir ++ ["photo.JPG"], File "P");
                        (example_dir ++ ["Projects"], Dir);
                        (example_dir ++ [".hidden"], File "H") ] in
  ∃ st',
    clean_desktop id example_home example_dir false "20250101-120000" st
    = (Ok 2, st')
    ∧ fs (dworld st') !! a = None
    ∧ fs (dworld st') !! (example_dir ++ ["Documents"; "a.txt"])
      = Some (File "A")
    ∧ fs (dworld st') !! (example_dir ++ [".hidden"]) = Some (File "H").
Proof.
  intros a st.
  destruct (clean_desktop_moves_files id example_home example_dir
              "20250101-120000" st)
    as (st' & Hrun & Hmoved & _ & _ & Hkept).
  - done.
  - by vm_compute.
  - intros p Hp.
    let l := eval vm_compute in (children (fs (dworld st)) example_dir) in
    change (children (fs (dworld st)) example_dir) with l in Hp.
    repeat (apply elem_of_cons in Hp as [->|Hp];
            [intros He; split; by vm_compute|]).
    by apply elem_of_nil in Hp.
  - repeat split; by vm_compute.
  - split; [by vm_compute|]. split; [by vm_compute|]. intros p Hp.
    let l := eval vm_compute in (children (fs (dworld st)) example_dir) in
    change (children (fs (dworld st)) example_dir) with l in Hp.
    repeat (apply elem_of_cons in Hp as [->|Hp];
            [intros He; by vm_compute|]).
    by apply elem_of_nil in Hp.
  - by vm_compute.
  - assert (Hn : length (plan_files id (fs (dworld st)) example_dir) = 2)
      by (by vm_compute).
    rewrite Hn in Hrun.
    exists st'. split; [exact Hrun|].
    destruct (Hmoved a) as [H1 H2].
    + let l := eval vm_compute in (children (fs (dworld st)) example_dir) in
      change (children (fs (dworld st)) example_dir) with l.
      unfold a. by repeat constructor.
    + by vm_compute.
    + split; [exact H1|]. split.
      * etransitivity; [exact H2|]. by vm_compute.
      * apply Hkept; [by vm_compute|by vm_compute|].
        intros [_ He]. by vm_compute in He.
Defined.

(** ** Undoing a real run of the script *)

Lemma undo_moves_present s d c rest u k st :
  fs (dworld st) !! d = Some (File c) → fs (dworld st) !! s = None →
  fs (dworld st) !! parent s = Some Dir →
  undo_moves ((s, d) :: rest) u k st
  = undo_moves rest (S u) k
      (DState (World (<[s := File c]> (delete d (fs (dworld st))))
                 (ops (dworld st) ++ [Rename d s]))
         (stdout st ++ [UndoLine (name d) (parent s)])).
Proof.
  intros Hd Hs Hp. cbn [undo_moves].
  unfold bind at 1. unfold dlift at 1. unfold path_exists. rewrite Hd.
  unfold bind at 1. unfold dlift at 1. cbn [dworld stdout].
  rewrite (mkdir_parents_existing _ _ Hp).
  unfold bind at 1. unfold dlift at 1. cbn [dworld stdout].
  rewrite (shutil_move_free d s (dworld st) c); [|congruence|done..].
  unfold bind at 1. unfold print at 1. unfold modify. reflexivity.
Qed.

Lemma undo_moves_restore recs : ∀ u k st,
  present (fs (dworld st)) recs →
  ∃ st2,
    undo_moves recs u k st = (Ok (u + length recs, k), st2)
    ∧ stdout st2 = stdout st ++ map undone_line recs
    ∧ (∀ r, r ∈ recs →
            fs (dworld st2) !! r.1 = fs (dworld st) !! r.2
            ∧ fs (dworld st2) !! r.2 = None)
    ∧ (∀ q, q ∉ recs.*1 → q ∉ recs.*2 →
            fs (dworld st2) !! q = fs (dworld st) !! q).
Proof.
  induction recs as [|[s d] rest IH]; intros u k st (Hnd1 & Hnd2 & Hall).
  { exists st. cbn [undo_moves length map]. rewrite Nat.add_0_r, app_nil_r.
    split; [done|]. split; [done|].
    split; [intros r Hr; by apply elem_of_nil in Hr|done]. }
  rewrite fmap_cons in Hnd1, Hnd2. cbn [fst snd] in Hnd1, Hnd2.
  apply NoDup_cons in Hnd1 as [Hs1 Hnd1].
  apply NoDup_cons in Hnd2 as [Hd2 Hnd2].
  apply Forall_cons in Hall as [(Hs & Hd & Hp) Hall].
  cbn [fst snd] in Hs, Hd, Hp.
  set (t := fs (dworld st)) in *.
  apply is_regular_true in Hd as [c Hd].
  rewrite (undo_moves_present s d c rest u k st Hd Hs Hp). fold t.
  set (st' := DState _ _).
  assert (Hsd : s ≠ d) by congruence.
  assert (Hfs' : ∀ q, q ≠ s → q ≠ d → fs (dworld st') !! q = t !! q).
  { intros q Hqs Hqd. unfold st'. cbn [dworld fs].
    rewrite lookup_insert_ne by done. by rewrite lookup_delete_ne. }
  assert (Hs' : fs (dworld st') !! s = Some (File c)).
  { unfold st'. cbn [dworld fs]. by rewrite lookup_insert_eq. }
  assert (Hd' : fs (dworld st') !! d = None).
  { unfold st'. cbn [dworld fs].
    rewrite lookup_insert_ne by done. by rewrite lookup_delete_eq. }
  assert (Hrest : ∀ r, r ∈ rest →
            r.1 ≠ s ∧ r.1 ≠ d ∧ r.2 ≠ s ∧ r.2 ≠ d).
  { intros r Hr.
    pose proof (proj1 (Forall_forall _ _) Hall r Hr) as (Hr1 & Hr2 & _).
    apply is_regular_true in Hr2 as [c2 Hr2]. fold t in Hr1, Hr2.
    repeat split.
    - intros E. apply Hs1. rewrite <- E. apply list_elem_of_fmap.
      by exists r.
    - intros E. rewrite E in Hr1. congruence.
    - intros E. rewrite E in Hr2. congruence.
    - intros E. apply Hd2. rewrite <- E. apply list_elem_of_fmap.
      by exists r. }
  assert (Hrst : present (fs (dworld st')) rest).
  { split; [done|]. split; [done|]. apply Forall_forall. intros r Hr.
    pose proof (proj1 (Forall_forall _ _) Hall r Hr) as (Hr1 & Hr2 & Hrp).
    destruct (Hrest r Hr) as (E1 & E2 & E3 & E4). fold t in Hr1, Hr2, Hrp.
    split; [|split].
    - rewrite Hfs' by done. done.
    - unfold is_regular. rewrite Hfs' by done. exact Hr2.
    - rewrite Hfs'; [done| |]; congruence. }
  destruct (IH (S u) k st' Hrst) as (st2 & Hrun & Hout & Hback & Hframe).
  exists st2. split; [|split; [|split]].
  - rewrite Hrun. cbn [length]. do 3 f_equal. lia.
  - rewrite Hout. unfold st'. cbn [stdout map]. unfold undone_line at 2.
    cbn [fst snd]. by rewrite <- app_assoc.
  - intros r Hr. apply elem_of_cons in Hr as [->|Hr]; cbn [fst snd].
    + split.
      * rewrite Hframe; [by rewrite Hs', Hd| |].
        -- done.
        -- intros (r & E & Hr)%list_elem_of_fmap.
           destruct (Hrest r Hr) as (_ & _ & E3 & _). by apply E3.
      * rewrite Hframe; [done| |].
        -- intros (r & E & Hr)%list_elem_of_fmap.
           destruct (Hrest r Hr) as (_ & E2 & _). by apply E2.
        -- done.
    + destruct (Hback r Hr) as [H1 H2]. split; [|done].
      rewrite H1. destruct (Hrest r Hr) as (_ & _ & E3 & E4).
      by apply Hfs'.
  - intros q Hq1 Hq2. rewrite fmap_cons in Hq1, Hq2.
    cbn [fst snd] in Hq1, Hq2.
    apply not_elem_of_cons in Hq1 as [Hqs Hq1].
    apply not_elem_of_cons in Hq2 as [Hqd Hq2].
    rewrite Hframe by done. by apply Hfs'.
Qed.

(** ** The last of the sorted logs *)

Lemma path_leb_total p : ∀ q, path_leb p q = false → path_leb q p = true.
Proof.
  induction p as [|a p IH]; intros [|b q]; cbn [path_leb]; try done.
  rewrite (String.compare_antisym b a).
  destruct (String.compare a b); cbn [CompOpp]; try done. apply IH.
Qed.

Lemma elem_of_insert_sorted x a s :
  x ∈ insert_sorted a s ↔ x = a ∨ x ∈ s.
Proof.
  induction s as [|q s IH]; cbn [insert_sorted].
  - rewrite list_elem_of_singleton. split; [by left|].
    intros [H|H]; [done|by apply elem_of_nil in H].
  - destruct (path_leb a q).
    + by rewrite elem_of_cons.
    + rewrite !elem_of_cons, IH. tauto.
Qed.

Lemma elem_of_sorted x l : x ∈ sorted l ↔ x ∈ l.
Proof.
  induction l as [|a l IH]; [done|].
  unfold sorted. cbn [foldr]. fold (sorted l).
  by rewrite elem_of_insert_sorted, elem_of_cons, IH.
Qed.

Lemma insert_sorted_ne a s : insert_sorted a s ≠ [].
Proof. destruct s as [|q s]; cbn [insert_sorted]; [done|]. by destruct (path_leb a q). Qed.

Lemma last_insert_sorted_above a s :
  Forall (λ q, path_leb a q = false) s → last (insert_sorted a s) = Some a.
Proof.
  induction 1 as [|q s Hq Hs IH]; [done|].
  cbn [insert_sorted]. rewrite Hq.
  pose proof (insert_sorted_ne a s) as Hne.
  destruct (insert_sorted a s) as [|y l]; [done|]. exact IH.
Qed.

Lemma last_insert_sorted_below a s :
  Exists (λ q, path_leb a q = true) s → last (insert_sorted a s) = last s.
Proof.
  induction 1 as [q s Hq|q s Hs IH]; cbn [insert_sorted].
  - by rewrite Hq.
  - destruct (path_leb a q); [done|].
    pose proof (insert_sorted_ne a s) as Hne.
    destruct (insert_sorted a s) as [|y l]; [done|].
    destruct s as [|z s]; [by apply Exists_nil in Hs|]. exact IH.
Qed.

(** [sorted(...)[-1]] is the entry every other entry sorts strictly
    before. *)
Lemma last_sorted_max m l :
  NoDup l → m ∈ l →
  (∀ q, q ∈ l → q ≠ m → path_leb m q = false) →
  last (sorted l) = Some m.
Proof.
  induction l as [|a l IH]; intros Hnd Hm Hmax.
  { by apply elem_of_nil in Hm. }
  apply NoDup_cons in Hnd as [Ha Hnd].
  unfold sorted. cbn [foldr]. fold (sorted l).
  destruct (decide (a = m)) as [->|Hne].
  - apply last_insert_sorted_above. apply Forall_forall.
    intros q Hq. apply (proj1 (elem_of_sorted q l)) in Hq.
    apply Hmax; [by right|]. intros ->. done.
  - apply elem_of_cons in Hm as [->|Hm]; [done|].
    rewrite last_insert_sorted_below.
    + apply IH; [done|done|]. intros q Hq. apply Hmax. by right.
    + apply Exists_exists. exists m. split; [by apply elem_of_sorted|].
      apply path_leb_total. apply Hmax; [by left|done].
Qed.

Lemma length_append a b :
  String.length (a +:+ b) = String.length a + String.length b.
Proof.
  induction a as [|x a IH]; [done|].
  rewrite append_cons. cbn [String.length]. by rewrite IH.
Qed.

(** The name [write_log] gives a log matches the pattern of the glob. *)
Lemma is_clean_log_name ts : is_clean_log ("clean_" +:+ ts +:+ ".log") = true.
Proof.
  unfold is_clean_log. apply andb_true_iff. split; [apply andb_true_iff; split|].
  - unfold startswith. apply prefix_append.
  - unfold endswith. rewrite !rev_str_app.
    change (rev_str ".log") with "gol.". rewrite append_assoc'.
    apply prefix_append.
  - apply Nat.leb_le. rewrite !length_append. cbn [String.length]. lia.
Qed.

Lemma records_of_files_fst desktop files :
  (records_of_files desktop files).*1 = files.
Proof. induction files as [|p l IH]; [done|]. cbn. f_equal. exact IH. Qed.

Lemma records_of_files_snd desktop files :
  (records_of_files desktop files).*2 = map (moved_to desktop) files.
Proof. induction files as [|p l IH]; [done|]. cbn. f_equal. exact IH. Qed.

Lemma records_of_plan_files desktop files :
  map (λ m : path * path, (m.1, joinpath m.2 (name m.1)))
    (map (move_of desktop) files)
  = records_of_files desktop files.
Proof. induction files as [|p l IH]; [done|]. cbn. f_equal. exact IH. Qed.

(** X17.  A real run of the script, then [--undo].  When the run of
    [clean_desktop] meets no collision and its paths are valid UTF-8 (as
    in X16), the paths of the plan can be written one per line of the log
    (no line end or bar in a source, no component that [Path] would drop,
    no name ending in a character that [str.strip] removes, among them
    U+00A0 and U+3000), and every log already in the log directory sorts
    strictly before the new one, [undo_last_run] reads the log of that
    run, restores every file and skips none: each regular file of the
    tree other than the log is again at its path with its content, and
    the last line printed counts as many restored files as the run had
    moved. *)
Theorem clean_then_undo (ord : list path → list path)
    (home desktop : path) (ts : string) (st : dstate) :
  (∀ l, ord l ≡ₚ l) →
  fs (dworld st) !! desktop = Some Dir →
  collision_free (fs (dworld st)) desktop →
  log_dir_ready (fs (dworld st)) home desktop ts →
  encodable (fs (dworld st)) home desktop →
  plan_files ord (fs (dworld st)) desktop ≠ [] →
  log_faithful ord (fs (dworld st)) home desktop ts →
  ∃ st1 st2,
    clean_desktop ord home desktop false ts st
    = (Ok (length (plan_files ord (fs (dworld st)) desktop)), st1)
    ∧ undo_last_run ord home st1 = (Ok tt, st2)
    ∧ last (stdout st2)
      = Some (UndoComplete
                (length (plan_files ord (fs (dworld st)) desktop)) 0)
    ∧ (∀ q c, fs (dworld st) !! q = Some (File c) →
              q ≠ log_path_of home ts →
              fs (dworld st2) !! q = Some (File c)).
Proof.
  intros Hord Hdir Hfree Hready Henc Hsome (Hline & Hsafe & Hmax).
  destruct (clean_desktop_run ord home desktop ts st
              Hord Hdir Hfree Hready Hsome
              (encodable_lines ord _ home desktop Hord Henc))
    as (st1 & Hrun & Hmoved & Hlp1 & Hld1 & Hdirs & Hkept & Hlogs).
  destruct (plan_files_ok ord (fs (dworld st)) desktop Hord Hfree)
    as [Hnd Hall].
  set (t := fs (dworld st)) in *.
  set (files := plan_files ord t desktop) in *.
  set (lp := log_path_of home ts) in *.
  set (recs := records_of_files desktop files).
  assert (Hin : ∀ p, p ∈ files →
            p ∈ children t desktop ∧ eligible t p = true)
    by (intros p Hp; by apply (proj1 (plan_files_spec ord t desktop p Hord))).
  assert (Hok : ∀ p, p ∈ files → file_ok desktop t p)
    by (intros p Hp; by apply (proj1 (Forall_forall _ _) Hall)).
  (* the log of the run holds its records *)
  assert (Hrec : records_of (log_text desktop (map (move_of desktop) files))
                 = Ok recs).
  { rewrite records_of_log_text; [by rewrite records_of_plan_files|done|].
    apply forallb_forall. intros m Hm.
    apply in_map_iff in Hm as (p & <- & Hp).
    apply list_elem_of_In in Hp. destruct (Hin p Hp) as [H1 H2].
    by apply Hsafe. }
  (* it is the last of the sorted logs *)
  assert (Hlast : last_log ord home (fs (dworld st1)) = Some lp).
  { unfold last_log. apply last_sorted_max.
    - apply NoDup_filter. rewrite Hord. apply NoDup_children.
    - apply list_elem_of_filter. split.
      + unfold lp, log_path_of. rewrite name_joinpath.
        apply is_clean_log_name.
      + rewrite Hord. apply elem_of_children. split; [|split].
        * unfold lp, log_path_of, joinpath. by destruct (log_dir_of home).
        * unfold lp, log_path_of. apply parent_joinpath.
        * rewrite Hlp1. by eexists.
    - intros q [Hcl Hch]%list_elem_of_filter Hq. rewrite Hord in Hch.
      apply elem_of_children in Hch as (Hne & Hpar & Hex).
      apply Hmax; [|done|done].
      apply elem_of_children. split; [done|]. split; [done|].
      by rewrite <- (Hlogs q Hne Hpar Hq). }
  (* its records can be restored one by one *)
  assert (Hpresent : present (fs (dworld st1)) recs).
  { split; [|split].
    - unfold recs. by rewrite records_of_files_fst.
    - unfold recs. rewrite records_of_files_snd.
      apply NoDup_fmap_2_strong; [|done].
      intros p p' Hp Hp' E.
      destruct (Hok p Hp) as (H1 & H2 & _).
      destruct (Hok p' Hp') as (H1' & H2' & _).
      by apply (moved_to_inj desktop).
    - apply Forall_forall. intros r Hr. unfold recs, records_of_files in Hr.
      apply list_elem_of_fmap in Hr as (p & -> & Hp). cbn [fst snd].
      destruct (Hin p Hp) as [Hc He].
      destruct (Hmoved p Hc He) as [H1 H2].
      destruct (Hok p Hp) as (_ & Hpar & Hreg & _).
      split; [done|]. split.
      + unfold is_regular. rewrite H2. exact Hreg.
      + rewrite Hpar. by apply Hdirs. }
  assert (Hne : recs ≠ []).
  { unfold recs, records_of_files. intros E.
    apply fmap_nil_inv in E. done. }
  destruct recs as [|r0 rs] eqn:Hrecs; [done|]. rewrite <- Hrecs in *.
  assert (Hrec' : records_of (log_text desktop (map (move_of desktop) files))
                  = Ok (r0 :: rs)) by (by rewrite Hrec, Hrecs).
  pose proof (undo_last_run_unfold ord home st1 lp _ r0 rs
                Hld1 Hlast Hlp1 Hrec') as Hundo.
  rewrite <- Hrecs in Hundo.
  destruct (undo_moves_restore recs 0 0
              (DState (dworld st1) (stdout st1 ++ [UndoingMovesFrom lp])))
    as (st2 & Hloop & _ & Hback & Hframe); [exact Hpresent|].
  cbn [dworld] in Hback, Hframe.
  rewrite Hloop in Hundo. cbn [fst snd] in Hundo.
  assert (Hlen : length recs = length files).
  { rewrite Hrecs. fold recs. rewrite <- Hrecs. unfold recs at 1.
    unfold records_of_files. by rewrite length_map. }
  exists st1. eexists. split; [exact Hrun|]. split; [exact Hundo|].
  cbn [dworld stdout]. split.
  - rewrite last_snoc. by rewrite Nat.add_0_l, Hlen.
  - intros q c Hq Hqlp.
    destruct (decide (q ∈ files)) as [Hqf|Hqf].
    + destruct (Hback (q, moved_to desktop q)) as [H1 _].
      { rewrite Hrecs. fold recs. rewrite <- Hrecs. unfold recs.
        unfold records_of_files. apply list_elem_of_fmap. by exists q. }
      cbn [fst snd] in H1. rewrite H1.
      destruct (Hin q Hqf) as [Hc He].
      destruct (Hmoved q Hc He) as [_ H2]. by rewrite H2.
    + rewrite Hframe.
      * apply Hkept; [done|done|].
        intros [Hc He]. apply Hqf.
        by apply (proj2 (plan_files_spec ord t desktop q Hord)).
      * rewrite Hrecs. fold recs. rewrite <- Hrecs. unfold recs.
        by rewrite records_of_files_fst.
      * rewrite Hrecs. fold recs. rewrite <- Hrecs. unfold recs.
        rewrite records_of_files_snd.
        intros (p & E & Hp)%list_elem_of_fmap.
        destruct (Hok p Hp) as (_ & _ & _ & _ & Hd).
        rewrite <- E in Hd. congruence.
Qed.

Lemma clean_then_undo_witness :
  let a := example_dir ++ ["a.txt"] in
  let st := dstate_of [ (a, File "A");
                        (example_dir ++ ["photo.JPG"], File "P");
                        (example_dir ++ ["Projects"], Dir);
                        (example_dir ++ [".hidden"], File "H") ] in
  ∃ st1 st2,
    clean_desktop id example_home example_dir false "20250101-120000" st
    = (Ok 2, st1)
    ∧ undo_last_run id example_home st1 = (Ok tt, st2)
    ∧ last (stdout st2) = Some (UndoComplete 2 0)
    ∧ fs (dworld st2) !! a = Some (File "A").
Proof.
  intros a st.
  destruct (clean_then_undo id example_home example_dir
              "20250101-120000" st)
    as (st1 & st2 & Hrun & Hundo & Hlast & Hback).
  - done.
  - by vm_compute.
  - intros p Hp.
    let l := eval vm_compute in (children (fs (dworld st)) example_dir) in
    change (children (fs (dworld st)) example_dir) with l in Hp.
    repeat (apply elem_of_cons in Hp as [->|Hp];
            [intros He; split; by vm_compute|]).
    by apply elem_of_nil in Hp.
  - repeat split; by vm_compute.
  - split; [by vm_compute|]. split; [by vm_compute|]. intros p Hp.
    let l := eval vm_compute in (children (fs (dworld st)) example_dir) in
    change (children (fs (dworld st)) example_dir) with l in Hp.
    repeat (apply elem_of_cons in Hp as [->|Hp];
            [intros He; by vm_compute|]).
    by apply elem_of_nil in Hp.
  - by vm_compute.
  - split; [by vm_compute|]. split.
    + intros p Hp.
      let l := eval vm_compute in (children (fs (dworld st)) example_dir) in
      change (children (fs (dworld st)) example_dir) with l in Hp.
      repeat (apply elem_of_cons in Hp as [->|Hp];
              [intros He; first [by vm_compute | by vm_compute in He]|]).
      by apply elem_of_nil in Hp.
    + intros q Hq.
      let l := eval vm_compute in
        (children (fs (dworld st)) (log_dir_of example_home)) in
      change (children (fs (dworld st)) (log_dir_of example_home)) with l
        in Hq.
      by apply elem_of_nil in Hq.
  - assert (Hn : length (plan_files id (fs (dworld st)) example_dir) = 2)
      by (by vm_compute).
    rewrite Hn in Hrun, Hlast.
    exists st1, st2. split; [exact Hrun|]. split; [exact Hundo|].
    split; [exact Hlast|]. apply Hback; by vm_compute.
Defined.

(** ** Finding the desktop folder *)

Lemma count_files_eq entries : ∀ st,
  count_files entries st
  = (Ok (length (filter (λ x, is_regular (fs (dworld st)) x = true)
                   entries)), st).
Proof.
  induction entries as [|x rest IH]; intros [w out]; [done|].
  cbn [count_files]. unfold bind at 1. unfold dlift at 1. unfold is_file.
  cbn [dworld stdout]. unfold bind at 1. rewrite IH. unfold ret.
  cbn [dworld stdout].
  destruct (fs w !! x) as [[c|]|] eqn:E.
  - rewrite filter_cons_True; [done|]. unfold is_regular. by rewrite E.
  - rewrite filter_cons_False; [done|]. unfold is_regular. by rewrite E.
  - rewrite filter_cons_False; [done|]. unfold is_regular. by rewrite E.
Qed.

Section FindDesktopFacts.
Variable ord : list path → list path.
Variable home : path.
Variable e : environment.
Hypothesis Hord : ∀ l, ord l ≡ₚ l.

Lemma scan_candidates_eq cs : ∀ st,
  scan_candidates ord cs st
  = (Ok (map (λ c, (c, file_count (fs (dworld st)) c))
           (filter (λ c, usable (fs (dworld st)) c = true) cs)), st).
Proof.
  induction cs as [|c rest IH]; intros [w out]; [done|].
  cbn [scan_candidates]. cbn [dworld stdout] in *.
  destruct (is_blocked c) eqn:Hb.
  { rewrite IH. rewrite filter_cons_False; [done|].
    unfold usable. rewrite Hb. cbn. discriminate. }
  unfold bind at 1. unfold dlift at 1. unfold path_exists.
  cbn [dworld stdout].
  destruct (fs w !! c) as [[x|]|] eqn:E.
  - unfold bind at 1. unfold dlift at 1. unfold is_dir.
    cbn [dworld stdout]. rewrite E. rewrite IH.
    rewrite filter_cons_False; [done|].
    unfold usable, is_folder. cbn [dworld fs]. rewrite Hb, E. cbn.
    discriminate.
  - unfold bind at 1. unfold dlift at 1. unfold is_dir.
    cbn [dworld stdout]. rewrite E.
    unfold bind at 1. unfold dlift at 1. unfold iterdir.
    cbn [dworld stdout]. rewrite E.
    unfold bind at 1. rewrite count_files_eq.
    unfold bind at 1. rewrite IH. unfold ret. cbn [dworld].
    rewrite filter_cons_True; [|unfold usable, is_folder; by rewrite Hb, E].
    cbn [map]. do 4 f_equal. unfold file_count.
    apply Permutation_length, filter_Permutation, Hord.
  - unfold bind at 1. unfold ret at 1. rewrite IH.
    rewrite filter_cons_False; [done|].
    unfold usable, is_folder. cbn [dworld fs]. rewrite Hb, E. cbn.
    discriminate.
Qed.

Lemma windows_desktops_eq user_dirs : ∀ st,
  windows_desktops user_dirs st
  = (Ok (windows_of (fs (dworld st)) user_dirs), st).
Proof.
  induction user_dirs as [|u rest IH]; intros [w out]; [done|].
  cbn [windows_desktops]. unfold bind at 1. unfold dlift at 1.
  unfold is_dir. cbn [dworld stdout] in *.
  unfold windows_of.
  destruct (fs w !! u) as [[x|]|] eqn:E.
  - rewrite IH. rewrite filter_cons_False; [done|]. intros [H _].
    unfold is_folder in H. by rewrite E in H.
  - unfold bind at 1. unfold dlift at 1. unfold path_exists.
    cbn [dworld stdout]. unfold bind at 1. rewrite IH. unfold ret.
    cbn [dworld].
    destruct (fs w !! joinpath u "Desktop") as [n|] eqn:Ed.
    + rewrite filter_cons_True; [done|].
      split; [unfold is_folder; by rewrite E|]. rewrite Ed. by eexists.
    + rewrite filter_cons_False; [done|]. intros [_ [n Hn]].
      congruence.
  - rewrite IH. rewrite filter_cons_False; [done|]. intros [H _].
    unfold is_folder in H. by rewrite E in H.
Qed.

End FindDesktopFacts.

(** ** The fullest candidate *)

Lemma elem_of_insert_by_count y x l :
  y ∈ insert_by_count x l ↔ y = x ∨ y ∈ l.
Proof.
  induction l as [|z l IH]; cbn [insert_by_count].
  - rewrite list_elem_of_singleton. split; [by left|].
    intros [H|H]; [done|by apply elem_of_nil in H].
  - destruct (z.2 <=? x.2)%nat.
    + by rewrite elem_of_cons.
    + rewrite !elem_of_cons, IH. tauto.
Qed.

Lemma elem_of_sort_by_count y l : y ∈ sort_by_count l ↔ y ∈ l.
Proof.
  induction l as [|a l IH]; [done|].
  unfold sort_by_count. cbn [foldr]. fold (sort_by_count l).
  by rewrite elem_of_insert_by_count, elem_of_cons, IH.
Qed.

(** The head of the sorted candidates is the first of those with the
    largest count. *)
Lemma sort_by_count_head pre x post :
  (∀ y, y ∈ pre → y.2 < x.2) →
  (∀ y, y ∈ post → y.2 ≤ x.2) →
  ∃ tl, sort_by_count (pre ++ x :: post) = x :: tl.
Proof.
  intros Hpre Hpost. induction pre as [|y pre IH].
  - cbn [app]. unfold sort_by_count. cbn [foldr]. fold (sort_by_count post).
    destruct (sort_by_count post) as [|z l] eqn:E; [by exists []|].
    cbn [insert_by_count].
    assert (Hz : z.2 ≤ x.2).
    { apply Hpost. apply elem_of_sort_by_count. rewrite E. by left. }
    apply Nat.leb_le in Hz. rewrite Hz. by eexists.
  - destruct IH as [tl Htl]; [intros z Hz; apply Hpre; by right|].
    cbn [app]. unfold sort_by_count. cbn [foldr].
    fold (sort_by_count (pre ++ x :: post)). rewrite Htl.
    cbn [insert_by_count].
    assert (Hy : y.2 < x.2) by (apply Hpre; by left).
    apply Nat.leb_gt in Hy. rewrite Hy. by eexists.
Qed.

Lemma candidate_desktops_plain ord home e st :
  is_wsl e = false →
  candidate_desktops ord home e st = (Ok (unix_desktops home), st).
Proof. intros H. unfold candidate_desktops. by rewrite H. Qed.

(** [candidate_desktops] only reads. *)
Lemma candidate_desktops_reads ord home e st :
  ∃ r, candidate_desktops ord home e st = (r, st).
Proof.
  unfold candidate_desktops. destruct (is_wsl e); [|by eexists].
  unfold bind at 1. unfold dlift at 1. unfold path_exists.
  destruct st as [w out]. cbn [dworld stdout].
  destruct (fs w !! users_root) as [[x|]|] eqn:E; [| |by eexists].
  - unfold bind at 1. unfold dlift at 1. unfold iterdir.
    cbn [dworld stdout]. rewrite E. by eexists.
  - unfold bind at 1. unfold dlift at 1. unfold iterdir.
    cbn [dworld stdout]. rewrite E.
    unfold bind at 1. rewrite windows_desktops_eq. by eexists.
Qed.

Lemma find_desktop_auto ord home e st cs :
  (∀ l, ord l ≡ₚ l) →
  candidate_desktops ord home e st = (Ok cs, st) →
  find_desktop ord home e None st
  = (Ok (match sort_by_count
                 (map (λ c, (c, file_count (fs (dworld st)) c))
                    (filter (λ c, usable (fs (dworld st)) c = true) cs)) with
         | [] => inl DesktopNotFound
         | best :: _ => inr best.1
         end), st).
Proof.
  intros Hord Hc. unfold find_desktop. unfold bind at 1. rewrite Hc.
  unfold bind at 1. rewrite (scan_candidates_eq ord Hord).
  by destruct (sort_by_count _).
Qed.

(** X18.  Which folder is detected.  Without [--path], when the
    candidates are [pre ++ d :: post] in priority order, [d] is an
    existing directory whose path holds no blocked name, every usable
    candidate before [d] holds strictly fewer regular files than [d] and
    every usable candidate after it holds at most as many, [find_desktop]
    returns [d]: the fullest usable candidate wins, priority only
    decides between equally full ones, and nothing is changed. *)
Theorem find_desktop_picks_fullest (ord : list path → list path)
    (home : path) (e : environment) (st : dstate)
    (pre post : list path) (d : path) :
  (∀ l, ord l ≡ₚ l) →
  candidate_desktops ord home e st = (Ok (pre ++ d :: post), st) →
  usable (fs (dworld st)) d = true →
  (∀ c, c ∈ pre → usable (fs (dworld st)) c = true →
        file_count (fs (dworld st)) c < file_count (fs (dworld st)) d) →
  (∀ c, c ∈ post → usable (fs (dworld st)) c = true →
        file_count (fs (dworld st)) c ≤ file_count (fs (dworld st)) d) →
  find_desktop ord home e None st = (Ok (inr d), st).
Proof.
  intros Hord Hc Hd Hpre Hpost.
  rewrite (find_desktop_auto ord home e st _ Hord Hc).
  set (t := fs (dworld st)) in *.
  rewrite filter_app, filter_cons_True by done.
  rewrite map_app. cbn [map].
  destruct (sort_by_count_head
              (map (λ c, (c, file_count t c))
                 (filter (λ c, usable t c = true) pre))
              (d, file_count t d)
              (map (λ c, (c, file_count t c))
                 (filter (λ c, usable t c = true) post)))
    as [tl ->]; [| |done].
  - intros y (c & -> & [Hu Hin]%list_elem_of_filter)%list_elem_of_fmap.
    cbn [snd]. by apply Hpre.
  - intros y (c & -> & [Hu Hin]%list_elem_of_filter)%list_elem_of_fmap.
    cbn [snd]. by apply Hpost.
Qed.

Lemma find_desktop_picks_fullest_witness :
  let e := Environment [] (Ok "6.8.0-generic") in
  let st := dstate_of [ (example_dir ++ ["a.txt"], File "A");
                        (example_home ++ ["Bureau"], Dir);
                        (example_home ++ ["Bureau"; "x.txt"], File "X");
                        (example_home ++ ["Bureau"; "y.txt"], File "Y") ] in
  find_desktop id example_home e None st
  = (Ok (inr (example_home ++ ["Bureau"])), st).
Proof.
  intros e st.
  apply (find_desktop_picks_fullest id example_home e st
           [ example_home ++ ["Desktop"]; example_home ++ ["desktop"];
             example_home ++ ["Escritorio"] ]
           [ example_home ++ ["Schreibtisch"] ]).
  - done.
  - by vm_compute.
  - by vm_compute.
  - intros c Hc.
    repeat (apply elem_of_cons in Hc as [->|Hc];
            [intros Hu; first [by vm_compute in Hu
                              | apply (bool_decide_unpack _); by vm_compute]|]).
    by apply elem_of_nil in Hc.
  - intros c Hc.
    repeat (apply elem_of_cons in Hc as [->|Hc];
            [intros Hu; first [by vm_compute in Hu
                              | apply (bool_decide_unpack _); by vm_compute]|]).
    by apply elem_of_nil in Hc.
Defined.

(** X19.  What [find_desktop] returns.  However it is called, it changes
    nothing; a path it returns is an existing directory; and a path it
    detects by itself holds none of the blocked names, in whatever
    letter case. *)
Theorem find_desktop_returns_folder (ord : list path → list path)
    (home : path) (e : environment) (custom_path : option path)
    (st st' : dstate) (r : result (system_exit + path)) :
  (∀ l, ord l ≡ₚ l) →
  find_desktop ord home e custom_path st = (r, st') →
  st' = st
  ∧ (∀ d, r = Ok (inr d) →
          is_folder (fs (dworld st)) d = true
          ∧ (custom_path = None → is_blocked d = false)).
Proof.
  intros Hord Hrun. destruct custom_path as [p|].
  - unfold find_desktop in Hrun. unfold bind at 1 in Hrun.
    unfold dlift at 1 in Hrun. unfold path_exists in Hrun.
    destruct st as [w out]. cbn [dworld stdout] in *.
    destruct (fs w !! p) as [[x|]|] eqn:E; cbn [negb] in Hrun.
    + unfold bind at 1 in Hrun. unfold dlift at 1 in Hrun.
      unfold is_dir in Hrun. cbn [dworld stdout] in Hrun.
      rewrite E in Hrun. injection Hrun as <- <-. split; [done|].
      intros d [=].
    + unfold bind at 1 in Hrun. unfold dlift at 1 in Hrun.
      unfold is_dir in Hrun. cbn [dworld stdout] in Hrun.
      rewrite E in Hrun. injection Hrun as <- <-. split; [done|].
      intros d [= <-]. split; [|done]. unfold is_folder. by rewrite E.
    + injection Hrun as <- <-. split; [done|]. intros d [=].
  - destruct (candidate_desktops_reads ord home e st) as [[cs|x] Hc].
    + rewrite (find_desktop_auto ord home e st cs Hord Hc) in Hrun.
      injection Hrun as <- <-. split; [done|]. intros d Hd.
      destruct (sort_by_count _) as [|best tl] eqn:Hs; [done|].
      injection Hd as <-.
      assert (Hin : best ∈ sort_by_count
                (map (λ c, (c, file_count (fs (dworld st)) c))
                   (filter (λ c, usable (fs (dworld st)) c = true) cs)))
        by (rewrite Hs; by left).
      apply (proj1 (elem_of_sort_by_count _ _)) in Hin.
      apply list_elem_of_fmap in Hin as (c & -> & Hin).
      apply list_elem_of_filter in Hin as [Hu _]. cbn [fst].
      unfold usable in Hu. apply andb_true_iff in Hu as [Hb Hf].
      split; [done|]. intros _. by apply negb_true_iff.
    + unfold find_desktop in Hrun. unfold bind at 1 in Hrun.
      rewrite Hc in Hrun. injection Hrun as <- <-. split; [done|].
      intros d [=].
Qed.

Lemma find_desktop_returns_folder_witness :
  let e := Environment ["WSL_DISTRO_NAME"] (Ok "5.15-microsoft-standard") in
  let users := ["mnt"; "c"; "Users"] in
  let st := dstate_of [ (["mnt"], Dir); (["mnt"; "c"], Dir); (users, Dir);
                        (users ++ ["Public"], Dir);
                        (users ++ ["Public"; "Desktop"], Dir);
                        (users ++ ["Public"; "Desktop"; "a.lnk"], File "L");
                        (users ++ ["ann"], Dir);
                        (users ++ ["ann"; "Desktop"], Dir);
                        (users ++ ["ann"; "Desktop"; "todo.txt"], File "T") ] in
  is_folder (fs (dworld st)) (users ++ ["ann"; "Desktop"]) = true
  ∧ is_blocked (users ++ ["ann"; "Desktop"]) = false.
Proof.
  intros e users st.
  destruct (find_desktop_returns_folder id example_home e None st st
              (Ok (inr (users ++ ["ann"; "Desktop"]))))
    as [_ H]; [done|by vm_compute|].
  destruct (H _ eq_refl) as [H1 H2]. split; [exact H1|]. by apply H2.
Defined.

(** ** A home whose path holds a blocked name *)

Lemma contains_app_r sub s x :
  contains sub s = true → contains sub (s +:+ x) = true.
Proof.
  induction s as [|a s IH]; intros H.
  - cbn [contains] in H. rewrite orb_false_r in H.
    destruct sub as [|b sub]; [|done]. rewrite append_nil_l.
    destruct x; by cbn.
  - rewrite append_cons. cbn [contains] in *.
    apply orb_true_iff in H as [H|H]; apply orb_true_iff.
    + left. rewrite <- append_cons. by apply prefix_app_r_str.
    + right. by apply IH.
Qed.

Lemma lower_cons_plain x s :
  byte_of x ≠ 196 → byte_of x ≠ 226 →
  lower (String x s) = String (lower_ascii x) (lower s).
Proof.
  intros H1 H2. apply Nat.eqb_neq in H1, H2.
  destruct s as [|b [|c s]]; cbn [lower]; [done|..];
    rewrite H1; cbn [andb]; [done|]. by rewrite H2.
Qed.

Lemma lower_slash b : lower (String "/" b) = String "/" (lower b).
Proof. by rewrite lower_cons_plain. Qed.

(** A separator never completes a character of several bytes, so lower
    case goes through it. *)
Lemma lower_two x y s :
  lower (String x (String y s))
  = if ((byte_of x =? 196) && (byte_of y =? 176))%nat
    then String "i" (bytes [204; 135] +:+ lower s)
    else match s with
         | EmptyString => String (lower_ascii x) (lower (String y s))
         | String z s' =>
             if ((byte_of x =? 226) && (byte_of y =? 132)
                 && (byte_of z =? 170))%nat
             then String "k" (lower s')
             else String (lower_ascii x) (lower (String y s))
         end.
Proof. by destruct s. Qed.

Lemma lower_one x : lower (String x EmptyString) = String (lower_ascii x) EmptyString.
Proof. done. Qed.

Lemma lower_app_slash_le n : ∀ a b,
  String.length a ≤ n →
  lower (a +:+ String "/" b) = lower a +:+ String "/" (lower b).
Proof.
  induction n as [n IH] using lt_wf_ind. intros a b Hn.
  destruct a as [|x [|y [|z a]]].
  - rewrite !append_nil_l. apply lower_slash.
  - change (lower (String x (String "/" b))
            = lower (String x EmptyString) +:+ String "/" (lower b)).
    rewrite lower_two, lower_one.
    replace (byte_of "/" =? 176)%nat with false by done.
    rewrite andb_false_r.
    destruct b as [|c b].
    + by rewrite lower_slash.
    + replace (byte_of "/" =? 132)%nat with false by done.
      rewrite andb_false_r. cbn [andb].
      by rewrite lower_slash.
  - change (lower (String x (String y (String "/" b)))
            = lower (String x (String y EmptyString))
              +:+ String "/" (lower b)).
    rewrite (lower_two x y (String "/" b)), (lower_two x y EmptyString).
    destruct ((byte_of x =? 196)%nat && (byte_of y =? 176)%nat) eqn:E.
    + rewrite !append_cons. do 3 f_equal. apply lower_slash.
    + replace (byte_of "/" =? 170)%nat with false by done.
      rewrite andb_false_r. rewrite append_cons. f_equal.
      apply (IH 1 ltac:(cbn in Hn; lia) (String y EmptyString) b).
      cbn; lia.
  - change (lower (String x (String y (String z (a +:+ String "/" b))))
            = lower (String x (String y (String z a)))
              +:+ String "/" (lower b)).
    rewrite (lower_two x y (String z (a +:+ String "/" b))),
            (lower_two x y (String z a)).
    destruct ((byte_of x =? 196)%nat && (byte_of y =? 176)%nat) eqn:E.
    + rewrite append_cons. f_equal. rewrite append_assoc'. f_equal.
      apply (IH (S (String.length a)) ltac:(cbn in Hn; lia) (String z a) b).
      cbn; lia.
    + destruct ((byte_of x =? 226)%nat && (byte_of y =? 132)%nat
                && (byte_of z =? 170)%nat) eqn:E'.
      * rewrite append_cons. f_equal.
        apply (IH (String.length a) ltac:(cbn in Hn; lia) a b). lia.
      * rewrite append_cons. f_equal.
        apply (IH (S (S (String.length a))) ltac:(cbn in Hn; lia)
                 (String y (String z a)) b).
        cbn; lia.
Qed.

Lemma lower_app_slash a b :
  lower (a +:+ String "/" b) = lower a +:+ String "/" (lower b).
Proof. by apply (lower_app_slash_le (String.length a)). Qed.

Lemma str_of_path_snoc p c :
  p ≠ [] → str_of_path (p ++ [c]) = str_of_path p +:+ "/" +:+ c.
Proof.
  intros Hne. unfold str_of_path. rewrite (join_str_snoc "/" p c Hne).
  by rewrite append_assoc'.
Qed.

Lemma is_blocked_joinpath home n :
  is_blocked home = true → is_blocked (joinpath home n) = true.
Proof.
  intros H. assert (Hne : home ≠ []) by (by intros ->).
  unfold is_blocked in *. apply existsb_exists.
  apply existsb_exists in H as (b & Hb & Hc). exists b. split; [done|].
  unfold joinpath. rewrite (str_of_path_snoc home n Hne).
  change (str_of_path home +:+ "/" +:+ n)
    with (str_of_path home +:+ String "/" n).
  rewrite lower_app_slash. by apply contains_app_r.
Qed.

(** X20.  A home whose path holds a blocked name.  Outside WSL every
    candidate lies under the home directory, and the blocked names are
    looked for anywhere in the path and in any letter case.  So when the
    path of the home directory itself holds one of them (as
    [/home/publicist] holds [public]), every candidate is skipped and
    [find_desktop] gives up with its error, whatever the folders that
    exist. *)
Theorem find_desktop_blocked_home (ord : list path → list path)
    (home : path) (e : environment) (st : dstate) :
  (∀ l, ord l ≡ₚ l) →
  is_wsl e = false →
  is_blocked home = true →
  find_desktop ord home e None st = (Ok (inl DesktopNotFound), st).
Proof.
  intros Hord Hwsl Hb.
  rewrite (find_desktop_auto ord home e st (unix_desktops home) Hord
             (candidate_desktops_plain ord home e st Hwsl)).
  rewrite filter_none; [done|].
  apply Forall_forall. intros c Hc. unfold usable.
  assert (Hbc : is_blocked c = true).
  { unfold unix_desktops in Hc.
    repeat (apply elem_of_cons in Hc as [->|Hc];
            [by apply is_blocked_joinpath|]).
    by apply elem_of_nil in Hc. }
  rewrite Hbc. cbn. discriminate.
Qed.

Lemma find_desktop_blocked_home_witness :
  let home := ["home"; "publicist"] in
  let e := Environment [] (Ok "6.8.0-generic") in
  let st := dstate_of [ (home, Dir); (home ++ ["Desktop"], Dir);
                        (home ++ ["Desktop"; "a.txt"], File "A") ] in
  find_desktop id home e None st = (Ok (inl DesktopNotFound), st).
Proof.
  intros home e st.
  apply (find_desktop_blocked_home id home e st); [done|by vm_compute..].
Defined.

(** ** C5: what a real run of the package moves *)

Lemma saved_cases hf st :
  kworld (saved hf st) = kworld st
  ∨ kworld (saved hf st)
    = World (<[hf := File (Json (encode_history (history st)))]>
               (fs (kworld st)))
            (ops (kworld st)
             ++ [Write hf (Json (encode_history (history st)))]).
Proof.
  unfold saved.
  destruct (write_file hf _ (kworld st)) as [r w] eqn:E.
  apply write_file_cases in E as [[-> [e ->]]|[-> ->]]; cbn; auto.
Qed.

Lemma no_rename_nil {C} : @no_rename C [].
Proof. intros s d H. by apply elem_of_nil in H. Qed.

Lemma no_rename_app {C} (a b : list (fsop C)) :
  no_rename a → no_rename b → no_rename (a ++ b).
Proof. intros Ha Hb s d [H|H]%elem_of_app; [by apply (Ha s d)|by apply (Hb s d)]. Qed.

(** One entry of a real run: the only rename it can perform is that of
    the entry itself, a regular file, to its destination; directories
    stay. *)
Lemma organize_entry_renames hf directory p st r st' :
  organize_entry hf directory false p st = (r, st') →
  ∃ new, ops (kworld st') = ops (kworld st) ++ new
         ∧ (∀ s d, Rename s d ∈ new →
                   s = p ∧ d = dest_of directory p
                   ∧ is_regular (fs (kworld st)) p = true)
         ∧ (∀ q, fs (kworld st) !! q = Some Dir →
                 fs (kworld st') !! q = Some Dir).
Proof.
  unfold organize_entry. unfold bind at 1. unfold lift at 1. unfold is_file.
  destruct (fs (kworld st) !! p) as [[c|]|] eqn:Hp.
  2,3: intros [= <- <-]; exists []; rewrite app_nil_r;
       (split; [done|split; [|done]]);
       intros s d H; by apply elem_of_nil in H.
  assert (Hreg : is_regular (fs (kworld st)) p = true)
    by (unfold is_regular; by rewrite Hp).
  assert (Hst : KState (kworld st) (history st) (klog st) = st)
    by by destruct st.
  rewrite Hst, move_file_unfold. fold (target_of directory p).
  fold (dest_of directory p).
  set (td := target_of directory p). set (dest := dest_of directory p).
  destruct (mkdir_exist_ok td (kworld st)) as [r1 w1] eqn:Hmk.
  assert (∃ mk, ops w1 = ops (kworld st) ++ mk ∧ no_rename mk
                ∧ (∀ q, fs (kworld st) !! q = Some Dir →
                        fs w1 !! q = Some Dir)
                ∧ fs w1 !! p = Some (File c))
    as (mk & Ho1 & Hn1 & Hd1 & Hp1).
  { destruct (mkdir_exist_ok_cases _ _ _ _ Hmk) as [->|(_ & Hn & ->)].
    - exists []. rewrite app_nil_r. split; [done|].
      split; [apply no_rename_nil|]. by split.
    - exists [Mkdir td]. cbn [fs ops]. split; [done|]. split.
      { intros s d H. apply elem_of_cons in H as [H|H]; [discriminate|].
        by apply elem_of_nil in H. }
      split.
      + intros q Hq. rewrite lookup_insert_ne; [done|]. congruence.
      + rewrite lookup_insert_ne; [done|]. congruence. }
  destruct r1 as [[]|e].
  2:{ intros [= <- <-]. exists mk. cbn [kworld]. split; [done|].
      split; [|done]. intros s d H. by destruct (Hn1 s d). }
  cbv zeta.
  set (st0 := KState w1 (history st ++ [(p, dest)]) (klog st)).
  set (st1 := saved hf st0).
  assert (∃ wr, ops (kworld st1) = ops w1 ++ wr ∧ no_rename wr
                ∧ ∃ c1, fs (kworld st1) !! p = Some (File c1))
    as (wr & Ho2 & Hn2 & c1 & Hp2).
  { unfold st1. destruct (saved_cases hf st0) as [->| ->].
    - exists []. rewrite app_nil_r. split; [done|].
      split; [apply no_rename_nil|]. by exists c.
    - eexists [_]. cbn [fs ops kworld st0]. split; [done|]. split.
      { intros s d H. apply elem_of_cons in H as [H|H]; [discriminate|].
        by apply elem_of_nil in H. }
      destruct (decide (hf = p)) as [->|Hne].
      + rewrite lookup_insert_eq. by eexists.
      + rewrite lookup_insert_ne by done. by exists c. }
  assert (Hd2 : ∀ q, fs (kworld st) !! q = Some Dir →
                     fs (kworld st1) !! q = Some Dir)
    by (intros q Hq; unfold st1; apply saved_fs_dir; by apply Hd1).
  destruct (os_rename p dest (kworld st1)) as [r2 w2] eqn:Hrn.
  destruct (os_rename_file _ _ _ _ _ _ Hp2 Hrn) as [->|(-> & -> & Hd)].
  - assert (Hall : ∃ new, ops (kworld st1) = ops (kworld st) ++ new
                          ∧ no_rename new).
    { exists (mk ++ wr). split; [by rewrite Ho2, Ho1, <- app_assoc|].
      by apply no_rename_app. }
    destruct Hall as (new & Ho & Hn).
    destruct r2 as [[]|e]; intros [= <- <-]; exists new; cbn [kworld];
      (split; [done|split; [|done]]);
      intros s d H; by destruct (Hn s d).
  - intros [= <- <-]. cbn [kworld fs ops].
    exists (mk ++ wr ++ [Rename p dest]).
    split; [by rewrite Ho2, Ho1, <- !app_assoc|]. split.
    + intros s d H. apply elem_of_app in H as [H|H]; [by destruct (Hn1 s d)|].
      apply elem_of_app in H as [H|H]; [by destruct (Hn2 s d)|].
      apply list_elem_of_singleton in H. by injection H as -> ->.
    + intros q Hq. pose proof (Hd2 q Hq) as Hq2.
      rewrite lookup_insert_ne by congruence.
      rewrite lookup_delete_ne by congruence. done.
Qed.

Lemma organize_entries_renames (hf directory : path)
    (t0 : gmap path (node kcontent)) (l : list path) : ∀ st r st',
  (∀ q, t0 !! q = Some Dir → fs (kworld st) !! q = Some Dir) →
  for_each l (organize_entry hf directory false) st = (r, st') →
  ∃ new, ops (kworld st') = ops (kworld st) ++ new
         ∧ (∀ s d, Rename s d ∈ new →
                   s ∈ l ∧ d = dest_of directory s ∧ t0 !! s ≠ Some Dir)
         ∧ (∀ q, t0 !! q = Some Dir → fs (kworld st') !! q = Some Dir).
Proof.
  induction l as [|p l IH]; intros st r st' Hdirs.
  - intros [= <- <-]. exists []. rewrite app_nil_r. split; [done|].
    split; [|done]. intros s d H. by apply elem_of_nil in H.
  - cbn [for_each]. unfold bind at 1.
    destruct (organize_entry hf directory false p st) as [r1 st1] eqn:He.
    destruct (organize_entry_renames _ _ _ _ _ _ He)
      as (new1 & Ho1 & Hr1 & Hd1).
    assert (Hdirs1 : ∀ q, t0 !! q = Some Dir →
                          fs (kworld st1) !! q = Some Dir)
      by (intros q Hq; by apply Hd1, Hdirs).
    assert (Hr1' : ∀ s d, Rename s d ∈ new1 →
              s ∈ p :: l ∧ d = dest_of directory s ∧ t0 !! s ≠ Some Dir).
    { intros s d H. destruct (Hr1 s d H) as (-> & -> & Hreg).
      split; [by left|]. split; [done|]. intros Hdir.
      apply Hdirs in Hdir. unfold is_regular in Hreg.
      by rewrite Hdir in Hreg. }
    destruct r1 as [[]|e].
    + intros Hrest.
      destruct (IH _ _ _ Hdirs1 Hrest) as (new2 & Ho2 & Hr2 & Hd2).
      exists (new1 ++ new2). split; [by rewrite Ho2, Ho1, <- app_assoc|].
      split; [|done]. intros s d H.
      apply elem_of_app in H as [H|H]; [by apply Hr1'|].
      destruct (Hr2 s d H) as (Hin & -> & Hnd). split; [by right|done].
    + intros [= <- <-]. by exists new1.
Qed.

(** A real run of [organize] renames regular files of the listing only,
    each to its destination, and leaves every directory where it is. *)
Lemma organize_renames ord hf directory st r st' :
  (∀ l, ord l ≡ₚ l) →
  organize ord hf directory false st = (r, st') →
  ∃ new, ops (kworld st') = ops (kworld st) ++ new
         ∧ (∀ s d, Rename s d ∈ new →
                   s ∈ kiro_plan ord (fs (kworld st)) directory
                   ∧ d = dest_of directory s)
         ∧ (∀ q, fs (kworld st) !! q = Some Dir →
                 fs (kworld st') !! q = Some Dir).
Proof.
  intros Hord. unfold organize. unfold bind at 1.
  unfold logger at 1. unfold modify. unfold bind at 1. unfold lift at 1.
  cbn [kworld history klog]. unfold iterdir.
  assert (Hnone : ∃ new : list (fsop kcontent),
            ops (kworld st) = ops (kworld st) ++ new
            ∧ (∀ s d, Rename s d ∈ new →
                      s ∈ kiro_plan ord (fs (kworld st)) directory
                      ∧ d = dest_of directory s)
            ∧ (∀ q, fs (kworld st) !! q = Some Dir →
                    fs (kworld st) !! q = Some Dir)).
  { exists []. rewrite app_nil_r. split; [done|]. split; [|done].
    intros s d H. by apply elem_of_nil in H. }
  destruct (fs (kworld st) !! directory) as [[c|]|].
  - intros [= <- <-]. exact Hnone.
  - intros Hrun.
    destruct (organize_entries_renames hf directory (fs (kworld st)) _
                (KState (kworld st) (history st)
                   (klog st ++ [(INFO, OrganizingDirectory directory)]))
                _ _ (λ q Hq, Hq) Hrun)
      as (new & Ho & Hr & Hd).
    cbn [kworld] in *. exists new. split; [done|]. split; [|done].
    intros s d H. destruct (Hr s d H) as (Hin & -> & Hnd).
    split; [|done]. unfold kiro_plan. apply list_elem_of_filter.
    split; [|done].
    rewrite Hord in Hin. apply elem_of_children in Hin as (_ & _ & [n Hn]).
    unfold is_regular. rewrite Hn. by destruct n.
  - intros [= <- <-]. exact Hnone.
Qed.

(** Without a collision, a real run moves every regular file of the
    listing. *)
Lemma organize_moves_all ord hf directory st :
  (∀ l, ord l ≡ₚ l) →
  fs (kworld st) !! directory = Some Dir →
  is_prefix_of directory hf = false →
  (∀ p, p ∈ kiro_plan ord (fs (kworld st)) directory →
        is_regular (fs (kworld st)) (target_of directory p) = false
        ∧ fs (kworld st) !! dest_of directory p = None) →
  ∃ st',
    organize ord hf directory false st = (Ok tt, st')
    ∧ history st'
      = history st
        ++ map (record_of directory)
             (kiro_plan ord (fs (kworld st)) directory)
    ∧ (∀ p, p ∈ kiro_plan ord (fs (kworld st)) directory →
            fs (kworld st') !! p = None
            ∧ fs (kworld st') !! dest_of directory p
              = fs (kworld st) !! p).
Proof.
  intros Hord Hdir Hout Hfree.
  set (t := fs (kworld st)) in *.
  set (l := ord (children t directory)).
  assert (Hnd : NoDup l)
    by (unfold l; rewrite Hord; apply NoDup_children).
  assert (Hall : Forall (entry_ok directory t) l).
  { apply Forall_forall. intros p Hp.
    assert (Hc : p ∈ children t directory) by (by rewrite <- (Hord _)).
    pose proof (proj1 (elem_of_children _ _ _) Hc) as (Hne & Hpar & _).
    split; [done|]. split; [done|]. intros Hreg. apply Hfree.
    unfold kiro_plan. apply list_elem_of_filter. by split. }
  set (st0 := KState (kworld st) (history st)
                (klog st ++ [(INFO, OrganizingDirectory directory)])).
  destruct (organize_entries_move hf directory l st0 Hnd Hdir Hout Hall)
    as (st1 & Hrun & Hh1 & Hmoved & _).
  cbn [kworld history st0] in Hh1, Hmoved. fold t in Hh1, Hmoved.
  exists st1. split; [|split].
  - unfold organize. unfold bind at 1. unfold logger at 1. unfold modify.
    unfold bind at 1. unfold lift at 1. cbn [kworld history klog].
    unfold iterdir. fold t. rewrite Hdir. fold l. exact Hrun.
  - exact Hh1.
  - intros p Hp. unfold kiro_plan in Hp. fold l in Hp.
    apply list_elem_of_filter in Hp as [Hreg Hin]. by apply Hmoved.
Qed.

Lemma pure_plan_complete ord t desktop plan src :
  (∀ l, ord l ≡ₚ l) →
  pure_plan ord t desktop = Ok plan →
  src ∈ children t desktop → t !! src ≠ Some Dir →
  startswith "." (name src) = false →
  (src, joinpath desktop (classify_file src)) ∈ plan.
Proof.
  intros Hord. unfold pure_plan.
  destruct (t !! desktop) as [[c|]|]; try discriminate.
  intros [= <-] Hc Hnd Hdot. apply list_elem_of_fmap. exists src.
  split; [done|]. apply list_elem_of_filter. split; [|by rewrite Hord].
  unfold eligible. rewrite Hdot. cbn [negb andb].
  destruct (t !! src) as [[c|]|]; done.
Qed.

(** C5 (as amended).  The plan of [plan_moves] is computed without
    touching the world and holds direct children of the folder only; no
    entry of it is a directory and none has a name that starts with a dot,
    whatever the extension; every other direct child is in the plan.  The
    package's [organize] acts on the direct
    children that are regular files, whatever their name.  A dry run
    announces exactly these.  A real run renames no other path: every
    rename of its journal moves a regular direct child to its
    destination in the folder of its category, and every directory is
    still in place afterwards.  When no collision stands in the way, the
    real run moves every one of them, a dot file like any other file. *)
Theorem planner_exclusion (ord : list path → list path) (desktop : path) :
  (∀ l, ord l ≡ₚ l) →
  (∀ st, plan_moves ord desktop st =
           (pure_plan ord (fs (dworld st)) desktop, st))
  ∧ (∀ t plan src td,
       pure_plan ord t desktop = Ok plan → (src, td) ∈ plan →
       src ≠ [] ∧ parent src = desktop ∧ is_Some (t !! src)
       ∧ t !! src ≠ Some Dir
       ∧ startswith "." (name src) = false
       ∧ td = joinpath desktop (classify_file src))
  ∧ (∀ t plan src,
       pure_plan ord t desktop = Ok plan →
       src ≠ [] → parent src = desktop → is_Some (t !! src) →
       t !! src ≠ Some Dir → startswith "." (name src) = false →
       (src, joinpath desktop (classify_file src)) ∈ plan)
  ∧ (∀ hf st,
       (organize ord hf desktop true st).2 =
         KState (kworld st) (history st)
           (klog st ++ (kiro_dry_report ord (fs (kworld st)) desktop).2))
  ∧ (∀ t p,
       p ∈ kiro_plan ord t desktop ↔
       (p ≠ [] ∧ parent p = desktop ∧ ∃ c, t !! p = Some (File c)))
  ∧ (∀ hf st r st',
       organize ord hf desktop false st = (r, st') →
       ∃ new, ops (kworld st') = ops (kworld st) ++ new
              ∧ (∀ s d, Rename s d ∈ new →
                        s ∈ kiro_plan ord (fs (kworld st)) desktop
                        ∧ d = dest_of desktop s)
              ∧ (∀ q, fs (kworld st) !! q = Some Dir →
                      fs (kworld st') !! q = Some Dir))
  ∧ (∀ hf st,
       fs (kworld st) !! desktop = Some Dir →
       is_prefix_of desktop hf = false →
       (∀ p, p ∈ kiro_plan ord (fs (kworld st)) desktop →
             is_regular (fs (kworld st)) (target_of desktop p) = false
             ∧ fs (kworld st) !! dest_of desktop p = None) →
       ∃ st',
         organize ord hf desktop false st = (Ok tt, st')
         ∧ history st'
           = history st
             ++ map (record_of desktop)
                  (kiro_plan ord (fs (kworld st)) desktop)
         ∧ (∀ p, p ∈ kiro_plan ord (fs (kworld st)) desktop →
                 fs (kworld st') !! p = None
                 ∧ fs (kworld st') !! dest_of desktop p
                   = fs (kworld st) !! p)).
Proof.
  intros Hord. split; [intros st; apply plan_moves_eq|].
  split; [|split; [|split; [|split; [|split]]]].
  - intros t plan src td Hplan Hin.
    destruct (pure_plan_entry _ _ _ _ _ _ Hord Hplan Hin)
      as (Hc & Hnd & Hdot & Htd).
    apply elem_of_children in Hc as (? & ? & ?). done.
  - intros t plan src Hplan Hne Hpar Hex Hnd Hdot.
    apply (pure_plan_complete ord t desktop plan src Hord Hplan); [|done..].
    by apply elem_of_children.
  - intros hf st. by rewrite organize_dry.
  - intros t p. rewrite (kiro_plan_entry _ _ _ _ Hord), elem_of_children.
    split.
    + intros [(? & ? & ?) ?]. done.
    + intros (? & ? & [c Hc]). repeat split; eauto.
  - intros hf st r st'. by apply organize_renames.
  - intros hf st. by apply organize_moves_all.
Qed.

Lemma planner_exclusion_witness :
  let t : gmap path (node string) :=
    tree_of (base_tree ++
             [ (example_dir ++ ["photo.JPG"], File "img");
               (example_dir ++ ["Projects"], Dir);
               (example_dir ++ [".hidden"], File "h") ]) in
  let st := kstate_of [ (example_dir ++ ["photo.JPG"], File (Blob "img"));
                        (example_dir ++ ["Projects"], Dir);
                        (example_dir ++ [".hidden"], File (Blob "h")) ] [] in
  (pure_plan id t example_dir =
     Ok [(example_dir ++ ["photo.JPG"], example_dir ++ ["Images"])]
   ∧ t !! (example_dir ++ ["photo.JPG"]) ≠ Some Dir
   ∧ startswith "." (name (example_dir ++ ["photo.JPG"])) = false)
  ∧ ∃ st',
      organize id example_history_file example_dir false st = (Ok tt, st')
      ∧ history st'
        = [ (example_dir ++ [".hidden"],
             example_dir ++ ["Others"; ".hidden"]);
            (example_dir ++ ["photo.JPG"],
             example_dir ++ ["Images"; "photo.JPG"]) ]
      ∧ fs (kworld st') !! (example_dir ++ [".hidden"]) = None
      ∧ fs (kworld st') !! (example_dir ++ ["Others"; ".hidden"])
        = Some (File (Blob "h")).
Proof.
  intros t st.
  assert (Hplan : pure_plan id t example_dir =
            Ok [(example_dir ++ ["photo.JPG"], example_dir ++ ["Images"])])
    by (by vm_compute).
  destruct (planner_exclusion id example_dir (λ l, reflexivity l))
    as (_ & Hentry & _ & _ & _ & _ & Hreal).
  split.
  - split; [exact Hplan|].
    destruct (Hentry t _ (example_dir ++ ["photo.JPG"])
                (example_dir ++ ["Images"]) Hplan)
      as (_ & _ & _ & Hnd & Hdot & _); [by left|].
    by split.
  - assert (Hk : kiro_plan id (fs (kworld st)) example_dir
                 = [example_dir ++ [".hidden"];
                    example_dir ++ ["photo.JPG"]])
      by (by vm_compute).
    destruct (Hreal example_history_file st) as (st' & Hrun & Hh & Hmoved).
    + by vm_compute.
    + by vm_compute.
    + rewrite Hk. intros p Hp.
      repeat (apply elem_of_cons in Hp as [->|Hp];
              [split; by vm_compute|]).
      by inversion Hp.
    + exists st'. split; [exact Hrun|]. rewrite Hk in Hh, Hmoved.
      split; [rewrite Hh; by vm_compute|].
      destruct (Hmoved (example_dir ++ [".hidden"])) as [H1 H2];
        [by left|].
      split; [exact H1|].
      assert (E : dest_of example_dir (example_dir ++ [".hidden"])
                  = example_dir ++ ["Others"; ".hidden"])
        by (by vm_compute).
      rewrite E in H2. rewrite H2. by vm_compute.
Defined.

(** C5, as stated, fails for the package: a dot file is organized like
    any other file.  The dry run announces its move and the real run
    moves it into [Others]. *)
Lemma organize_moves_dot_files :
  let st := kstate_of [ (example_dir ++ [".hidden"], File (Blob "h"));
                        (example_dir ++ ["Projects"], Dir) ] [] in
  let dry := (organize id example_history_file example_dir true st).2 in
  let real := (organize id example_history_file example_dir false st).2 in
  kiro_plan id (fs (kworld st)) example_dir = [example_dir ++ [".hidden"]]
  ∧ klog dry = [ (INFO, OrganizingDirectory example_dir);
                 (INFO, WouldMove ".hidden" "Others") ]
  ∧ fs (kworld real) !! (example_dir ++ [".hidden"]) = None
  ∧ fs (kworld real) !! (example_dir ++ ["Others"; ".hidden"])
    = Some (File (Blob "h")).
Proof. repeat split; by vm_compute. Qed.
